(** * openclaw-installer: configuration merge and savings tracker

    A shallow embedding of the logic of the Sansa installer for OpenClaw:

    - [src/config-patch.ts]: [deepMerge] and [patchOpenClawConfig];
    - the savings tracker script held by [SAVINGS_TRACKER_MJS] in
      [src/templates.ts]: [scanSessionLogs], [computeCosts] and the main
      body from [loadState] to [saveState];
    - [src/install.ts]: the steps of the installer on the file system
      ([installStartupHook], [createSansaConfig], [installSavingsTracker],
      [getWorkspacePath], [updateHeartbeat]), its selection menu
      ([arrowMenu]) and [main].

    Conventions.

    - Documents are the values [JSON.parse] produces.  [deepMerge] is
      read at three levels.
      [ConfigMerger] and [MergeAlgebra] read an object as the list of its
      own data properties, each key once, in the order they were added:
      the merge of documents none of whose keys is [__proto__], key by
      key; no statement there depends on the order of the keys.
      [MergeHeap] adds the heap on which objects live, for the aliasing
      between the result and the arguments.
      [MergeObjects] adds what a property read and an assignment do to an
      object: the prototype chain, the accessor [__proto__] of
      [Object.prototype], and the order in which the keys of an object
      are listed (array indices first, in ascending order).
    - A string is its text, byte by byte.
    - The numbers of the tracker are integers (token counts, epoch
      milliseconds) with the sum of integers, which is the sum of Numbers
      up to 2^53: the statements on sums carry that bound.
      [computeCosts] is written over the operations of a Number and read
      both over exact rationals and over binary64.
    - [JSON.parse], [JSON.stringify], [path.dirname], [StringToNumber]
      and the path [CONFIG_PATH] are parameters; [Date.now()] is an
      argument.
    - A file system call the code does not guard succeeds on the regular
      files of the model; [TrackerScript] has the entries on which the
      calls of the scan throw.
    - The paths of types.ts, the texts of the three templates and
      [String.prototype.trim] are parameters of the installer; what the
      installer prints is left out, but for the writes of the menu. *)

From Stdlib Require Import ZArith QArith String Ascii List Lia Floats Sorted.
From stdpp Require Import base option list strings pretty gmap.

Set Warnings "-register-all".

Local Open Scope string_scope.
Local Open Scope list_scope.
Local Open Scope Z_scope.

(* ===================================================================== *)
(** * JSON values                                                         *)
(* ===================================================================== *)

(** What [JSON.parse] returns.  The payload of a number is a parameter:
    the merge never looks inside a number (its documents carry rationals),
    the tracker does arithmetic on integers ([Num := Z]). *)
Inductive json (Num : Type) : Type :=
| JNull
| JBool (b : bool)
| JNum (n : Num)
| JStr (s : string)
| JArr (xs : list (json Num))
| JObj (props : list (string * json Num)).

Arguments JNull {Num}.
Arguments JBool {Num} b.
Arguments JNum {Num} n.
Arguments JStr {Num} s.
Arguments JArr {Num} xs.
Arguments JObj {Num} props.

(** The own properties of an object, in property order. *)
Abbreviation props Num := (list (string * json Num)).

(** A JavaScript value read out of a document: [None] is [undefined]. *)
Abbreviation jsval Num := (option (json Num)).

Section OwnProperties.
Context {V : Type}.

(** [o[key]] for an own data property; [None] when the object has none. *)
Fixpoint getOwn (o : list (string * V)) (key : string) : option V :=
  match o with
  | [] => None
  | (k, v) :: rest => if String.eqb k key then Some v else getOwn rest key
  end.

(** [o[key] = v]: an existing own property keeps its place, a new one is
    added behind the others. *)
Fixpoint setOwn (o : list (string * V)) (key : string) (v : V) : list (string * V) :=
  match o with
  | [] => [(key, v)]
  | (k, x) :: rest =>
      if String.eqb k key then (k, v) :: rest else (k, x) :: setOwn rest key v
  end.

(** [Object.keys(o)]. *)
Definition keys (o : list (string * V)) : list string := map fst o.

End OwnProperties.

(** [v !== null && typeof v === "object" && !Array.isArray(v)], on a value
    that may be [undefined]. *)
Definition isPlainObject {Num} (v : jsval Num) : bool :=
  match v with
  | Some (JObj _) => true
  | _ => false
  end.

(** Induction on documents, through the arrays and objects they nest. *)
Section JsonInduction.
Context {Num : Type}.
Variable P : json Num -> Prop.
Hypothesis Hnull : P JNull.
Hypothesis Hbool : forall b, P (JBool b).
Hypothesis Hnum : forall n, P (JNum n).
Hypothesis Hstr : forall s, P (JStr s).
Hypothesis Harr : forall xs, Forall P xs -> P (JArr xs).
Hypothesis Hobj : forall ps, Forall (fun kj => P kj.2) ps -> P (JObj ps).

Fixpoint json_nested_ind (j : json Num) : P j :=
  match j with
  | JNull => Hnull
  | JBool b => Hbool b
  | JNum n => Hnum n
  | JStr s => Hstr s
  | JArr xs =>
      Harr xs ((fix go (xs : list (json Num)) : Forall P xs :=
                  match xs with
                  | [] => @List.Forall_nil _ P
                  | x :: rest =>
                      @List.Forall_cons _ P x rest (json_nested_ind x) (go rest)
                  end) xs)
  | JObj ps =>
      Hobj ps ((fix go (ps : props Num) : Forall (fun kj => P kj.2) ps :=
                  match ps with
                  | [] => List.Forall_nil _
                  | (k, x) :: rest =>
                      @List.Forall_cons _ (fun kj => P kj.2) (k, x) rest
                        (json_nested_ind x) (go rest)
                  end) ps)
  end.
End JsonInduction.

(** ** Completions: a value, or a thrown exception *)

Inductive outcome (A : Type) : Type :=
| Ok (a : A)
| Throw.
Arguments Ok {A} a.
Arguments Throw {A}.

#[export] Instance outcome_ret : MRet outcome := fun A a => Ok a.
#[export] Instance outcome_bind : MBind outcome := fun A B f m =>
  match m with
  | Ok a => f a
  | Throw => Throw
  end.

(* ===================================================================== *)
(** * ConfigMerger: [deepMerge] of config-patch.ts                        *)
(* ===================================================================== *)

Module ConfigMerger.

Section DeepMerge.
Context {Num : Type}.

(** [deepMerge(target, source)] for [source = JObj entries].  The source is
    the structurally decreasing argument: the recursive call is made on a
    value held by the source.

    - [out = { ...target }] is the initial [out] of the loop;
    - the loop runs over [Object.entries(source)];
    - [existing = out[key]];
    - both plain objects: [out[key] = deepMerge(existing, val)];
    - otherwise: [out[key] = val]. *)
Fixpoint deepMergeInto (source : json Num) (target : props Num) {struct source}
  : props Num :=
  match source with
  | JObj entries =>
      (fix loop (entries : props Num) (out : props Num) {struct entries}
         : props Num :=
         match entries with
         | [] => out
         | (key, val) :: rest =>
             loop rest
               (match val, getOwn out key with
                | JObj _, Some (JObj existing) =>
                    setOwn out key (JObj (deepMergeInto val existing))
                | _, _ => setOwn out key val
                end)
         end) entries target
  | _ => target
  end.

Definition deepMerge (target source : props Num) : props Num :=
  deepMergeInto (JObj source) target.

(** One turn of the loop of [deepMerge], on the current [out]. *)
Definition mergeEntry (out : props Num) (key : string) (val : json Num)
  : props Num :=
  match val, getOwn out key with
  | JObj s, Some (JObj existing) => setOwn out key (JObj (deepMerge existing s))
  | _, _ => setOwn out key val
  end.

(** The value a turn of the loop stores at the key, from the value found
    there and the value of the patch. *)
Definition mergedValue (existing : jsval Num) (val : json Num) : json Num :=
  match val, existing with
  | JObj s, Some (JObj t) => JObj (deepMerge t s)
  | _, _ => val
  end.

End DeepMerge.

(** ** Lemmas on own properties *)

Section OwnPropertyLemmas.
Context {V : Type}.
Implicit Types (o : list (string * V)) (v : V) (k : string).

Lemma getOwn_setOwn_eq o k v : getOwn (setOwn o k v) k = Some v.
Proof.
  induction o as [|[k' x] o IH]; simpl.
  - by rewrite String.eqb_refl.
  - destruct (String.eqb k' k) eqn:E; simpl; by rewrite E.
Qed.

Lemma getOwn_setOwn_ne o k k' v :
  k <> k' -> getOwn (setOwn o k v) k' = getOwn o k'.
Proof.
  intros Hne. induction o as [|[k0 x] o IH]; simpl.
  - destruct (String.eqb_spec k k'); [done|done].
  - destruct (String.eqb_spec k0 k) as [->|Hk]; simpl.
    + destruct (String.eqb_spec k k'); [done|done].
    + by rewrite IH.
Qed.

Lemma setOwn_same o k v : getOwn o k = Some v -> setOwn o k v = o.
Proof.
  induction o as [|[k' x] o IH]; simpl; [done|].
  destruct (String.eqb_spec k' k) as [->|Hne].
  - by intros [= ->].
  - intros H. by rewrite IH.
Qed.

Lemma getOwn_elem_of o k v :
  NoDup (keys o) -> (k, v) ∈ o -> getOwn o k = Some v.
Proof.
  induction o as [|[k' x] o IH]; simpl; [by intros _ ?%elem_of_nil|].
  intros [Hk Hnd]%NoDup_cons [[= -> ->]|Hin]%elem_of_cons.
  - by rewrite String.eqb_refl.
  - destruct (String.eqb_spec k' k) as [->|Hne]; [|by apply IH].
    exfalso. apply Hk. apply list_elem_of_fmap. by exists (k, v).
Qed.

Lemma getOwn_not_key o k : getOwn o k = None <-> k ∉ keys o.
Proof.
  induction o as [|[k' x] o IH]; simpl.
  - split; [intros _ ?%elem_of_nil; done|done].
  - destruct (String.eqb_spec k' k) as [->|Hne].
    + split; [done|]. intros H. exfalso. apply H. left.
    + rewrite IH. split.
      * intros H [?|?]%elem_of_cons; [congruence|done].
      * intros H ?. apply H. by right.
Qed.

Lemma keys_setOwn o k v :
  keys (setOwn o k v) = if getOwn o k is Some _ then keys o else keys o ++ [k].
Proof.
  induction o as [|[k' x] o IH]; simpl; [done|].
  destruct (String.eqb_spec k' k) as [->|Hne]; simpl; [done|].
  rewrite IH. by destruct (getOwn o k).
Qed.

Lemma setOwn_new o k v :
  getOwn o k = None -> setOwn o k v = o ++ [(k, v)].
Proof.
  induction o as [|[k' x] o IH]; simpl; [done|].
  destruct (String.eqb_spec k' k) as [->|Hne]; [done|].
  intros H. by rewrite IH.
Qed.

End OwnPropertyLemmas.

(** ** The loop of [deepMerge] *)

Section DeepMergeLemmas.
Context {Num : Type}.
Implicit Types (target source out : props Num) (val : json Num) (key : string).

Lemma deepMerge_nil target : deepMerge target [] = target.
Proof. reflexivity. Qed.

Lemma deepMerge_cons target key val rest :
  deepMerge target ((key, val) :: rest) = deepMerge (mergeEntry target key val) rest.
Proof. unfold deepMerge, mergeEntry. simpl. by destruct val. Qed.

Lemma mergeEntry_setOwn out key val :
  mergeEntry out key val = setOwn out key (mergedValue (getOwn out key) val).
Proof.
  unfold mergeEntry, mergedValue.
  destruct val; try done. by destruct (getOwn out key) as [[]|].
Qed.

(** A key the patch does not hold is read as in the target. *)
Lemma deepMerge_other target source key :
  key ∉ keys source -> getOwn (deepMerge target source) key = getOwn target key.
Proof.
  revert target. induction source as [|[k v] source IH]; intros target Hn.
  - by rewrite deepMerge_nil.
  - rewrite deepMerge_cons, IH by (intros ?; apply Hn; by right).
    rewrite mergeEntry_setOwn. apply getOwn_setOwn_ne.
    intros ->. apply Hn. left.
Qed.

End DeepMergeLemmas.

(** ** The merges listed among the testable properties *)

Example merge_scalar_override :
  deepMerge [("a", JObj [("b", JNum 1%Z)])] [("a", JObj [("b", JNum 2%Z)])]
  = [("a", JObj [("b", JNum 2%Z)])].
Proof. reflexivity. Qed.

Example merge_type_conflict :
  deepMerge [("a", JObj [("b", JNum 1%Z)])] [("a", JNum 5%Z)] = [("a", JNum 5%Z)].
Proof. reflexivity. Qed.

Example merge_array_replaced :
  deepMerge [("a", JArr [JNum 1%Z; JNum 2%Z])] [("a", JArr [JNum 3%Z])]
  = [("a", JArr [JNum 3%Z])].
Proof. reflexivity. Qed.

Example merge_keeps_other_keys :
  deepMerge [("a", JObj [("b", JNum 1%Z); ("c", JNum 2%Z)]); ("d", JStr "kept")]
            [("a", JObj [("b", JNum 3%Z)]); ("e", JNull)]
  = [("a", JObj [("b", JNum 3%Z); ("c", JNum 2%Z)]); ("d", JStr "kept"); ("e", JNull)].
Proof. reflexivity. Qed.

End ConfigMerger.

(* ===================================================================== *)
(** * ConfigMerger: [deepMerge] on the heap                               *)
(* ===================================================================== *)

Module MergeHeap.
Import ConfigMerger.
Local Open Scope nat_scope.

(** [deepMerge] as it runs: objects and arrays live in a heap and are
    held by reference, [{ ...target }] allocates the result, and
    [out[key] = ...] updates it in place. *)

Section Heap.
Context {Num : Type}.

Abbreviation loc := positive.

(** A value as the engine holds it: objects and arrays by reference. *)
Inductive hval :=
| HNull
| HBool (b : bool)
| HNum (n : Num)
| HStr (s : string)
| HRef (l : loc).

Inductive hobj :=
| HObject (own : list (string * hval))
| HArray (elems : list hval).

Abbreviation heap := (gmap loc hobj).

(** The own enumerable properties of the object at [l], as [{ ...o }] and
    [Object.entries(o)] read them: those of a plain object, the indices of
    an array. *)
Definition spreadH (h : heap) (l : loc) : list (string * hval) :=
  match h !! l with
  | Some (HObject own) => own
  | Some (HArray elems) => imap (fun i x => (pretty i, x)) elems
  | None => []
  end.

(** [v !== null && typeof v === "object" && !Array.isArray(v)]. *)
Definition isPlainObjectH (h : heap) (v : option hval) : bool :=
  match v with
  | Some (HRef l) =>
      match h !! l with
      | Some (HObject _) => true
      | _ => false
      end
  | _ => false
  end.

(** [out[key] = v], in place. *)
Definition assign (h : heap) (out : loc) (key : string) (v : hval) : heap :=
  <[out := HObject (setOwn (spreadH h out) key v)]> h.

Definition refOf (v : hval) : option loc :=
  match v with
  | HRef l => Some l
  | _ => None
  end.

(** One turn of the loop: [existing = out[key]], then
    [out[key] = deepMerge(existing, val)] when both are plain objects and
    [out[key] = val] otherwise.  [rec] is the recursive call. *)
Definition mergeEntryH (rec : heap -> loc -> loc -> option (heap * loc))
    (out : loc) (h : heap) (key : string) (val : hval) : option heap :=
  let existing := getOwn (spreadH h out) key in
  if isPlainObjectH h (Some val) && isPlainObjectH h existing then
    e ← existing ≫= refOf;
    s ← refOf val;
    '(h', r) ← rec h e s;
    Some (assign h' out key (HRef r))
  else Some (assign h out key val).

(** [for (const [key, val] of Object.entries(source))]. *)
Fixpoint mergeLoopH (rec : heap -> loc -> loc -> option (heap * loc))
    (out : loc) (entries : list (string * hval)) (h : heap) : option heap :=
  match entries with
  | [] => Some h
  | (key, val) :: rest =>
      h' ← mergeEntryH rec out h key val; mergeLoopH rec out rest h'
  end.

(** [deepMerge(target, source)]: [out = { ...target }] is a new object,
    the loop updates it and it is returned.  The recursion follows the
    nesting of the source, which a heap does not bound: [fuel] bounds the
    depth of the calls, and [None] is fuel that ran out. *)
Fixpoint deepMergeH (fuel : nat) (h : heap) (target source : loc)
  : option (heap * loc) :=
  match fuel with
  | O => None
  | S fuel =>
      let out := fresh (dom h) in
      let h0 := <[out := HObject (spreadH h target)]> h in
      h' ← mergeLoopH (deepMergeH fuel) out (spreadH h source) h0;
      Some (h', out)
  end.

(** ** Documents in the heap *)

(** [repr h v j]: in the heap [h] the value [v] is the document [j]. *)
Inductive repr (h : heap) : hval -> json Num -> Prop :=
| repr_null : repr h HNull JNull
| repr_bool b : repr h (HBool b) (JBool b)
| repr_num n : repr h (HNum n) (JNum n)
| repr_str s : repr h (HStr s) (JStr s)
| repr_arr l elems xs :
    h !! l = Some (HArray elems) ->
    Forall2 (repr h) elems xs ->
    repr h (HRef l) (JArr xs)
| repr_obj l own ps :
    h !! l = Some (HObject own) ->
    Forall2 (fun kv kj => kv.1 = kj.1 /\ repr h kv.2 kj.2) own ps ->
    repr h (HRef l) (JObj ps).

(** The own properties [own] hold the documents of [ps], key by key. *)
Abbreviation reprProps h own ps :=
  (Forall2 (fun (kv : string * hval) (kj : string * json Num) =>
              kv.1 = kj.1 /\ repr h kv.2 kj.2) own ps).

(** How deep plain objects nest in a document. *)
Fixpoint jdepth (j : json Num) : nat :=
  match j with
  | JObj ps =>
      S ((fix go (ps : props Num) : nat :=
            match ps with
            | [] => O
            | (_, x) :: rest => Nat.max (jdepth x) (go rest)
            end) ps)
  | _ => O
  end.

(** [rec] changes no object of the heap it is called on, and returns a
    new one. *)
Definition framed (rec : heap -> loc -> loc -> option (heap * loc)) : Prop :=
  forall h t s h' r, rec h t s = Some (h', r) -> h ⊆ h' /\ h !! r = None.

(** [rec] merges documents whose source nests no deeper than [n]: on a
    heap [h] that holds the documents in its part [hb], it returns, and
    its result is the merged document in a part [hb'] of the new heap that
    adds only new objects to [hb]. *)
Definition refines (rec : heap -> loc -> loc -> option (heap * loc)) (n : nat) : Prop :=
  forall hb h t s T S,
    hb ⊆ h ->
    repr hb (HRef t) (JObj T) ->
    repr hb (HRef s) (JObj S) ->
    jdepth (JObj S) <= n ->
    exists h' r hb',
      rec h t s = Some (h', r) /\
      hb' ⊆ h' /\
      (forall l, is_Some (h !! l) -> hb' !! l = hb !! l) /\
      repr hb' (HRef r) (JObj (deepMerge T S)).

(** ** Frame *)

Implicit Types (h : heap) (out l : loc) (v val : hval) (key : string).

Lemma spreadH_object h l own : h !! l = Some (HObject own) -> spreadH h l = own.
Proof. unfold spreadH. by intros ->. Qed.

Lemma assign_out h out key v :
  assign h out key v !! out = Some (HObject (setOwn (spreadH h out) key v)).
Proof. unfold assign. by rewrite lookup_insert_eq. Qed.

Lemma assign_other h out key v l : l <> out -> assign h out key v !! l = h !! l.
Proof. intros. unfold assign. by rewrite lookup_insert_ne. Qed.

Lemma mergeEntryH_frame rec out h key val h' own :
  framed rec ->
  h !! out = Some (HObject own) ->
  mergeEntryH rec out h key val = Some h' ->
  (exists v', h' !! out = Some (HObject (setOwn own key v')))
  /\ (forall l x, l <> out -> h !! l = Some x -> h' !! l = Some x).
Proof.
  intros Hrec Hout. unfold mergeEntryH.
  destruct (isPlainObjectH h (Some val) && isPlainObjectH h _).
  - destruct (getOwn (spreadH h out) key ≫= refOf) as [e|]; [|done]. cbn.
    destruct (refOf val) as [s|]; [|done]. cbn.
    destruct (rec h e s) as [[h2 r]|] eqn:Hr; [|done]. cbn.
    intros [= <-]. destruct (Hrec _ _ _ _ _ Hr) as [Hsub Hfresh].
    split.
    + exists (HRef r). rewrite assign_out.
      by rewrite (spreadH_object h2 out own) by (by eapply lookup_weaken).
    + intros l x Hl Hx. rewrite assign_other by done. by eapply lookup_weaken.
  - intros [= <-]. split.
    + exists val. by rewrite assign_out, (spreadH_object h out own).
    + intros l x Hl Hx. by rewrite assign_other.
Qed.

Lemma mergeLoopH_frame rec out entries : forall h h' own,
  framed rec ->
  h !! out = Some (HObject own) ->
  mergeLoopH rec out entries h = Some h' ->
  (exists own', h' !! out = Some (HObject own') /\
                forall key, key ∉ keys entries -> getOwn own' key = getOwn own key)
  /\ (forall l x, l <> out -> h !! l = Some x -> h' !! l = Some x).
Proof.
  induction entries as [|[key val] rest IH]; intros h h' own Hrec Hout; simpl.
  - intros [= <-]. split; [by exists own|done].
  - destruct (mergeEntryH rec out h key val) as [h1|] eqn:H1; [|done]. cbn.
    intros Hloop.
    destruct (mergeEntryH_frame _ _ _ _ _ _ _ Hrec Hout H1) as [[v' Hout1] Hfr1].
    destruct (IH _ _ _ Hrec Hout1 Hloop) as [(own' & Hout' & Hkeys) Hfr].
    split.
    + exists own'. split; [done|]. intros k Hk.
      rewrite Hkeys by (intros ?; apply Hk; by right).
      apply getOwn_setOwn_ne. intros ->. apply Hk. left.
    + intros l x Hl Hx. by apply Hfr, Hfr1.
Qed.

Lemma fresh_lookup h : h !! fresh (dom h) = None.
Proof. apply not_elem_of_dom, is_fresh. Qed.

(** Whatever the heap and the fuel: a call that returns has changed no
    object of the heap it started from, its result is a new object, and
    the result reads as the target at every key the source does not hold. *)
Lemma deepMergeH_frame fuel : forall h target source h' r,
  deepMergeH fuel h target source = Some (h', r) ->
  h ⊆ h' /\ h !! r = None /\
  exists own', h' !! r = Some (HObject own') /\
    forall key, key ∉ keys (spreadH h source) ->
                getOwn own' key = getOwn (spreadH h target) key.
Proof.
  induction fuel as [|fuel IH]; intros h target source h' r; [done|]. simpl.
  destruct (mergeLoopH _ _ _ _) as [h1|] eqn:Hloop; [|done]. cbn.
  intros [= <- <-].
  assert (framed (deepMergeH fuel)) as Hrec.
  { intros ????? H. by destruct (IH _ _ _ _ _ H) as (? & ? & _). }
  pose proof (fresh_lookup h) as Hfresh.
  destruct (mergeLoopH_frame _ _ _ _ _ _ Hrec (lookup_insert_eq _ _ _) Hloop)
    as [(own' & Hout & Hkeys) Hfr].
  split; [|split; [done|by exists own']].
  apply map_subseteq_spec. intros l x Hx. apply Hfr.
  - intros ->. congruence.
  - rewrite lookup_insert_ne; [done|]. intros <-. congruence.
Qed.

Lemma repr_weaken h h' v j : h ⊆ h' -> repr h v j -> repr h' v j.
Proof.
  intros Hsub. revert v.
  induction j as [| | | |xs IH|ps IH] using json_nested_ind;
    intros v Hr; inversion Hr as [| | | |l elems xs' Hl H2|l own ps' Hl H2];
    subst; try constructor.
  - econstructor; [by eapply lookup_weaken|].
    clear Hr Hl. induction H2 as [|e x elems xs He _ IH2]; constructor.
    + apply Forall_inv in IH. by apply IH.
    + apply IH2. by apply Forall_inv_tail in IH.
  - econstructor; [by eapply lookup_weaken|].
    clear Hr Hl. induction H2 as [|e x own ps [Hk He] _ IH2]; constructor.
    + apply Forall_inv in IH. split; [done|]. by apply IH.
    + apply IH2. by apply Forall_inv_tail in IH.
Qed.

Lemma reprProps_weaken h h' own ps :
  h ⊆ h' -> reprProps h own ps -> reprProps h' own ps.
Proof.
  intros Hsub H. induction H as [|?? ?? [? ?]]; constructor; [|done].
  split; [done|]. by eapply repr_weaken.
Qed.

Lemma reprProps_getOwn h own ps key :
  reprProps h own ps ->
  match getOwn own key, getOwn ps key with
  | Some v, Some j => repr h v j
  | None, None => True
  | _, _ => False
  end.
Proof.
  induction 1 as [|[k v] [k' j] own ps [Hk Hr] _ IH]; simpl; [done|].
  simpl in Hk. subst k'. by destruct (String.eqb k key).
Qed.

Lemma reprProps_setOwn h own ps key v j :
  reprProps h own ps -> repr h v j ->
  reprProps h (setOwn own key v) (setOwn ps key j).
Proof.
  intros H Hv. induction H as [|[k x] [k' y] own ps [Hk Hr] Hrest IH]; simpl.
  - by repeat constructor.
  - simpl in Hk. subst k'.
    destruct (String.eqb k key); (constructor; [by split|done]).
Qed.

Lemma repr_isPlainObject hb h v j :
  hb ⊆ h -> repr hb v j -> isPlainObjectH h (Some v) = isPlainObject (Some j).
Proof.
  intros Hsub Hr.
  inversion Hr as [| | | |l elems xs Hl _|l own ps Hl _]; subst; simpl; try done.
  - by rewrite (lookup_weaken _ _ _ _ Hl Hsub).
  - by rewrite (lookup_weaken _ _ _ _ Hl Hsub).
Qed.

Lemma jdepth_props key x ps n :
  jdepth (JObj ((key, x) :: ps)) <= S n -> jdepth x <= n /\ jdepth (JObj ps) <= S n.
Proof. simpl. lia. Qed.

(** ** The heap run refines the merge of documents *)

Lemma agree_subseteq (hb hb' h : heap) :
  hb ⊆ h -> (forall l, is_Some (h !! l) -> hb' !! l = hb !! l) -> hb ⊆ hb'.
Proof.
  intros Hsub Hagree. apply map_subseteq_spec. intros l x Hx.
  rewrite Hagree; [done|]. exists x. by eapply lookup_weaken.
Qed.

Lemma subseteq_assign (hb h : heap) out key v :
  hb ⊆ h -> hb !! out = None -> hb ⊆ assign h out key v.
Proof.
  intros Hsub Hout. apply map_subseteq_spec. intros l x Hx.
  rewrite assign_other by congruence. by eapply lookup_weaken.
Qed.

Lemma repr_object_inv hb v ps :
  repr hb v (JObj ps) ->
  exists l own, v = HRef l /\ hb !! l = Some (HObject own) /\ reprProps hb own ps.
Proof. inversion 1; subst. eauto. Qed.

Lemma reprProps_existing hb h own ps key :
  hb ⊆ h -> reprProps hb own ps ->
  isPlainObjectH h (getOwn own key) = isPlainObject (getOwn ps key).
Proof.
  intros Hsub Hown. pose proof (reprProps_getOwn hb own ps key Hown) as Hex.
  destruct (getOwn own key) as [v|], (getOwn ps key) as [j|]; try done.
  by eapply repr_isPlainObject.
Qed.

Lemma mergeLoopH_refines rec n out :
  framed rec -> refines rec n ->
  forall entries pentries hb h own ps,
    hb ⊆ h -> hb !! out = None -> h !! out = Some (HObject own) ->
    reprProps hb own ps -> reprProps hb entries pentries ->
    jdepth (JObj pentries) <= S n ->
    exists h' hb' own',
      mergeLoopH rec out entries h = Some h' /\
      hb' ⊆ h' /\ hb' !! out = None /\
      (forall l, is_Some (h !! l) -> hb' !! l = hb !! l) /\
      h' !! out = Some (HObject own') /\
      reprProps hb' own' (deepMerge ps pentries).
Proof.
  intros Hframed Hrec entries.
  induction entries as [|[key val] rest IH];
    intros pentries hb h own ps Hsub Hbout Hout Hown Hents Hdepth.
  { apply Forall2_nil_inv_l in Hents as ->. exists h, hb, own.
    by rewrite deepMerge_nil. }
  apply Forall2_cons_inv_l in Hents as ([key' x] & prest & [Hk Hval] & Hrest & ->).
  simpl in Hk, Hval. subst key'.
  apply jdepth_props in Hdepth as [Hdx Hdrest].
  rewrite deepMerge_cons, mergeEntry_setOwn.
  cbn [mergeLoopH]. unfold mergeEntryH. rewrite (spreadH_object h out own) by done.
  rewrite (repr_isPlainObject hb h val x), (reprProps_existing hb h own ps) by done.
  destruct (isPlainObject (Some x) && isPlainObject (getOwn ps key)) eqn:Hb.
  - apply andb_true_iff in Hb as [Hx Hj].
    destruct x as [| | | | |S']; try done.
    pose proof (reprProps_getOwn hb own ps key Hown) as Hex.
    destruct (getOwn ps key) as [[| | | | |E']|]; try done.
    destruct (getOwn own key) as [v|]; [|done].
    apply repr_object_inv in Hex as (e & owne & -> & Hle & Howne).
    pose proof Hval as Hval'.
    apply repr_object_inv in Hval' as (s & owns & -> & Hls & Howns).
    destruct (Hrec hb h e s E' S') as (h2 & r & hb2 & Hrun & Hsub2 & Hagree & Hr);
      [done|by econstructor|done|done|].
    destruct (Hframed _ _ _ _ _ Hrun) as [Hh2 Hfresh].
    cbn. rewrite Hrun. cbn.
    assert (hb ⊆ hb2) as Hbb by (by eapply agree_subseteq).
    assert (hb2 !! out = None) as Hb2out by (rewrite Hagree; [done|by eexists]).
    destruct (IH prest hb2 (assign h2 out key (HRef r)) (setOwn own key (HRef r))
                (setOwn ps key (JObj (deepMerge E' S'))))
      as (h' & hb' & own' & Hloop & Hsub' & Hb'out & Hagree' & Hout' & Hown');
      [by apply subseteq_assign
      |done
      |by rewrite assign_out, (spreadH_object h2 out own)
         by (by eapply lookup_weaken)
      |apply reprProps_setOwn; [by eapply reprProps_weaken|done]
      |by eapply reprProps_weaken
      |done|].
    exists h', hb', own'. repeat split; try done.
    intros l Hl. rewrite Hagree'.
    + by apply Hagree.
    + destruct (decide (l = out)) as [->|Hne]; [by rewrite assign_out|].
      rewrite assign_other by done. destruct Hl as [y Hy].
      exists y. by eapply lookup_weaken.
  - assert (mergedValue (getOwn ps key) x = x) as ->.
    { destruct x; try done. by destruct (getOwn ps key) as [[]|]. }
    cbn [mbind option_bind].
    destruct (IH prest hb (assign h out key val) (setOwn own key val) (setOwn ps key x))
      as (h' & hb' & own' & Hloop & Hsub' & Hb'out & Hagree' & Hout' & Hown');
      [by apply subseteq_assign
      |done
      |by rewrite assign_out, (spreadH_object h out own)
      |by apply reprProps_setOwn
      |done|done|].
    exists h', hb', own'. repeat split; try done.
    intros l Hl. apply Hagree'.
    destruct (decide (l = out)) as [->|Hne]; [by rewrite assign_out|].
    by rewrite assign_other.
Qed.

Lemma deepMergeH_framed fuel : framed (deepMergeH fuel).
Proof. intros ????? H. by destruct (deepMergeH_frame _ _ _ _ _ _ H) as (? & ? & _). Qed.

Lemma deepMergeH_refines fuel : refines (deepMergeH fuel) fuel.
Proof.
  induction fuel as [|fuel IH]; intros hb h t s T S Hsub Ht Hs Hdepth.
  { simpl in Hdepth. lia. }
  apply repr_object_inv in Ht as (? & ownt & [= <-] & Hlt & Hownt).
  apply repr_object_inv in Hs as (? & owns & [= <-] & Hls & Howns).
  cbn [deepMergeH].
  set (out := fresh (dom h)).
  pose proof (fresh_lookup h) as Hfresh. fold out in Hfresh.
  rewrite (spreadH_object h t ownt), (spreadH_object h s owns)
    by (by eapply lookup_weaken).
  assert (hb !! out = None) as Hbout.
  { destruct (hb !! out) eqn:E; [|done].
    by rewrite (lookup_weaken _ _ _ _ E Hsub) in Hfresh. }
  destruct (mergeLoopH_refines (deepMergeH fuel) fuel out (deepMergeH_framed fuel) IH
              owns S hb (<[out := HObject ownt]> h) ownt T)
    as (h' & hb' & own' & Hloop & Hsub' & Hb'out & Hagree & Hout' & Hown');
    [by etrans; [|apply insert_subseteq]
    |done|by rewrite lookup_insert_eq|done|done|done|].
  rewrite Hloop. cbn.
  exists h', out, (<[out := HObject own']> hb'). split; [done|].
  split; [by apply insert_subseteq_l|]. split.
  - intros l Hl. assert (l <> out) by (intros ->; destruct Hl; congruence).
    rewrite lookup_insert_ne by done. apply Hagree.
    by rewrite lookup_insert_ne.
  - econstructor; [by rewrite lookup_insert_eq|].
    eapply reprProps_weaken; [|done]. by apply insert_subseteq.
Qed.

End Heap.

(** A heap with the target [{ a: { b: 1 }, d: "x" }] at 1 and the patch
    [{ a: { c: 2 }, e: [1] }] at 3. *)
Definition sampleHeap : gmap positive (hobj (Num := Z)) :=
  {[ 1%positive := HObject [("a", HRef 2); ("d", HStr "x")];
     2%positive := HObject [("b", HNum 1%Z)];
     3%positive := HObject [("a", HRef 4); ("e", HRef 5)];
     4%positive := HObject [("c", HNum 2%Z)];
     5%positive := HArray [HNum 1%Z] ]}.


End MergeHeap.

(* ===================================================================== *)
(** * ConfigMerger: [patchOpenClawConfig] of config-patch.ts              *)
(* ===================================================================== *)

Module ConfigPatch.
Import ConfigMerger.

(** The calls that change the file system, as the trace records them. *)
Inductive FsCall :=
| CopyFile (src dst : string)
| MkDir (path : string)
| WriteFile (path content : string).

(** The regular files by path, and the trace of the calls made so far. *)
Record World := mkWorld {
  files : gmap string string;
  calls : list FsCall
}.

(** A computation on the file system that may throw. *)
Definition IO (A : Type) : Type := World -> outcome A * World.

#[export] Instance IO_ret : MRet IO := fun A a w => (Ok a, w).
#[export] Instance IO_bind : MBind IO := fun A B f m w =>
  match m w with
  | (Ok a, w') => f a w'
  | (Throw, w') => (Throw, w')
  end.

(** [try { body } catch { handler }]. *)
Definition tryCatch {A} (body handler : IO A) : IO A := fun w =>
  match body w with
  | (Ok a, w') => (Ok a, w')
  | (Throw, w') => handler w'
  end.

Definition throw {A} : IO A := fun w => (Throw, w).

Definition readFileSync (path : string) : IO string := fun w =>
  match files w !! path with
  | Some content => (Ok content, w)
  | None => (Throw, w)
  end.

Definition existsSync (path : string) : IO bool := fun w =>
  (Ok (bool_decide (is_Some (files w !! path))), w).

Definition copyFileSync (src dst : string) : IO unit := fun w =>
  match files w !! src with
  | Some content =>
      (Ok (), mkWorld (<[dst := content]> (files w)) (calls w ++ [CopyFile src dst]))
  | None => (Throw, w)
  end.

(** [mkdirSync(path, { recursive: true })]: no regular file changes. *)
Definition mkdirSync (path : string) : IO unit := fun w =>
  (Ok (), mkWorld (files w) (calls w ++ [MkDir path])).

Definition writeFileSync (path content : string) : IO unit := fun w =>
  (Ok (), mkWorld (<[path := content]> (files w)) (calls w ++ [WriteFile path content])).

Definition newline : string := String (ascii_of_nat 10) "".

Lemma string_app_empty_r (s : string) : s +:+ "" = s.
Proof.
  induction s as [|a s IH]; [done|].
  change (String a (s +:+ "") = String a s). by rewrite IH.
Qed.

(** Numbers of a configuration document are carried, never computed on:
    they are kept as the rationals their decimal text denotes. *)
Abbreviation document := (json Q).

(** [SANSA_MODEL_ENTRY] of types.ts. *)
Definition SANSA_MODEL_ENTRY : document :=
  JObj [("id", JStr "sansa-auto");
        ("name", JStr "sansa-auto (Custom Provider)");
        ("reasoning", JBool true);
        ("input", JArr [JStr "text"; JStr "image"]);
        ("cost", JObj [("input", JNum 1.5%Q); ("output", JNum 6%Q);
                       ("cacheRead", JNum 0%Q); ("cacheWrite", JNum 0%Q)]);
        ("contextWindow", JNum 131072%Q);
        ("maxTokens", JNum 32768%Q)].

Section PatchOpenClawConfig.

(** [CONFIG_PATH] of types.ts (it depends on the home directory),
    [JSON.parse] (where [None] is a [SyntaxError]),
    [JSON.stringify(data, null, 2)] and [path.dirname]. *)
Variable CONFIG_PATH : string.
Variable JSON_parse : string -> option document.
Variable JSON_stringify : document -> string.
Variable dirname : string -> string.

(** [readJson]: [null] when the file is missing or unparseable. *)
Definition readJson (filePath : string) : IO document :=
  tryCatch
    (content ← readFileSync filePath;
     match JSON_parse content with
     | Some data => mret data
     | None => throw
     end)
    (mret JNull).

Definition writeJson (filePath : string) (data : document) : IO unit :=
  mkdirSync (dirname filePath);;
  writeFileSync filePath (JSON_stringify data +:+ newline).

(** [{ ...v }]: the own enumerable properties of [v].  A document that is
    not an object has none, but for the indices of an array and of a
    string.  A string is spread into its UTF-16 code units, which are the
    bytes of the model for a text in ASCII; the spread of a string with
    other characters is outside the model. *)
Definition indexed (xs : list document) : props Q :=
  imap (fun i x => (pretty i, x)) xs.

Definition spread (v : document) : props Q :=
  match v with
  | JObj o => o
  | JArr xs => indexed xs
  | JStr s => indexed ((fun c => JStr (String c "")) <$> list_ascii_of_string s)
  | JNull | JBool _ | JNum _ => []
  end.

Definition sansaPatch (apiKey : string) : props Q :=
  [("models",
    JObj [("mode", JStr "merge");
          ("providers",
           JObj [("sansa-ai",
                  JObj [("baseUrl", JStr "https://api.sansaml.com/v1");
                        ("apiKey", JStr apiKey);
                        ("api", JStr "openai-completions");
                        ("models", JArr [SANSA_MODEL_ENTRY])])])]);
   ("agents",
    JObj [("defaults",
           JObj [("model", JObj [("primary", JStr "sansa-ai/sansa-auto")]);
                 ("models",
                  JObj [("sansa-ai/sansa-auto", JObj [("alias", JStr "Sansa")])])])])].

(** [`${CONFIG_PATH}.bak.${Date.now()}`]. *)
Definition backupPath (now : Z) : string :=
  CONFIG_PATH +:+ ".bak." +:+ pretty now.

(** [patchOpenClawConfig(apiKey)], with [now] the reading of [Date.now()]. *)
Definition patchOpenClawConfig (apiKey : string) (now : Z) : IO unit :=
  data ← readJson CONFIG_PATH;
  let existing := match data with JNull => JObj [] | _ => data end in
  let merged := deepMerge (spread existing) (sansaPatch apiKey) in
  there ← existsSync CONFIG_PATH;
  (if there : bool then copyFileSync CONFIG_PATH (backupPath now) else mret ());;
  writeJson CONFIG_PATH (JObj merged).

(** The document [patchOpenClawConfig] merges into, and the text it
    writes, for the files of [w]. *)
Definition existingConfig (w : World) : document :=
  match files w !! CONFIG_PATH with
  | Some content =>
      match JSON_parse content with
      | Some JNull | None => JObj []
      | Some data => data
      end
  | None => JObj []
  end.

Definition mergedText (apiKey : string) (w : World) : string :=
  JSON_stringify (JObj (deepMerge (spread (existingConfig w)) (sansaPatch apiKey)))
  +:+ newline.

Lemma backupPath_fresh now : backupPath now <> CONFIG_PATH.
Proof.
  unfold backupPath. intros H.
  assert (CONFIG_PATH +:+ ".bak." +:+ pretty now = CONFIG_PATH +:+ "") as H'.
  { by rewrite H, string_app_empty_r. }
  by apply (inj (String.app CONFIG_PATH)) in H'.
Qed.

(** The clock reading is in the path as its decimal digits, and two
    readings give two paths. *)
Lemma backupPath_stamp now now' : backupPath now' = backupPath now -> now' = now.
Proof.
  unfold backupPath. intros H.
  apply (inj (String.app CONFIG_PATH)), (inj (String.app ".bak.")) in H.
  by apply (inj pretty) in H.
Qed.

(** C3. A run of the merge on a configuration file that exists makes one
    copy of it, to the path [CONFIG_PATH] followed by [.bak.] and the
    decimal digits of the clock reading, before it writes the merged
    document: the calls made are the copy, the [mkdir] and the write, in
    this order; afterwards the backup holds the text the configuration file
    held before, the configuration file holds the merged document, and no
    other file has changed.  The path of the backup is not the path of the
    configuration file, and another clock reading gives another path.
    When no configuration file exists the calls are the [mkdir] and the
    write alone, and only the configuration file has changed: there is no
    backup. *)
Theorem backup_before_write apiKey now w :
  let backup := CONFIG_PATH +:+ ".bak." +:+ pretty now in
  match files w !! CONFIG_PATH with
  | Some original =>
      exists w',
        patchOpenClawConfig apiKey now w = (Ok (), w') /\
        calls w' = calls w ++ [CopyFile CONFIG_PATH backup;
                               MkDir (dirname CONFIG_PATH);
                               WriteFile CONFIG_PATH (mergedText apiKey w)] /\
        files w' !! backup = Some original /\
        files w' !! CONFIG_PATH = Some (mergedText apiKey w) /\
        (forall path, path <> backup -> path <> CONFIG_PATH ->
                      files w' !! path = files w !! path) /\
        backup <> CONFIG_PATH /\
        (forall now', CONFIG_PATH +:+ ".bak." +:+ pretty now' = backup -> now' = now)
  | None =>
      exists w',
        patchOpenClawConfig apiKey now w = (Ok (), w') /\
        calls w' = calls w ++ [MkDir (dirname CONFIG_PATH);
                               WriteFile CONFIG_PATH (mergedText apiKey w)] /\
        files w' !! CONFIG_PATH = Some (mergedText apiKey w) /\
        forall path, path <> CONFIG_PATH -> files w' !! path = files w !! path
  end.
Proof.
  cbv zeta. change (CONFIG_PATH +:+ ".bak." +:+ pretty now) with (backupPath now).
  pose proof (backupPath_fresh now) as Hfresh.
  pose proof (fun now' => backupPath_stamp now now') as Hstamp.
  unfold patchOpenClawConfig, mergedText, existingConfig, readJson, writeJson,
    tryCatch, readFileSync, existsSync, copyFileSync, mkdirSync, writeFileSync,
    throw, mbind, mret, IO_bind, IO_ret.
  destruct (files w !! CONFIG_PATH) as [original|] eqn:Hfile; cbn.
  - assert (forall data : document,
              exists w',
                (let (o, w') :=
                   copyFileSync CONFIG_PATH (backupPath now) w in
                 match o with
                 | Ok _ => writeJson CONFIG_PATH data w'
                 | Throw => (Throw, w')
                 end) = (Ok (), w') /\
                calls w' = calls w ++ [CopyFile CONFIG_PATH (backupPath now);
                                       MkDir (dirname CONFIG_PATH);
                                       WriteFile CONFIG_PATH
                                         (JSON_stringify data +:+ newline)] /\
                files w' !! backupPath now = Some original /\
                files w' !! CONFIG_PATH = Some (JSON_stringify data +:+ newline) /\
                (forall path, path <> backupPath now -> path <> CONFIG_PATH ->
                              files w' !! path = files w !! path) /\
                backupPath now <> CONFIG_PATH /\
                (forall now', backupPath now' = backupPath now -> now' = now)) as Hrun.
    { intros data. unfold copyFileSync, writeJson, mkdirSync, writeFileSync,
        mbind, IO_bind. rewrite Hfile. cbn. eexists. split; [done|]. cbn.
      rewrite <- !app_assoc. split; [done|].
      split; [by rewrite lookup_insert_ne, lookup_insert_eq|].
      split; [by rewrite lookup_insert_eq|].
      split; [|by split].
      intros path ??. by rewrite !lookup_insert_ne. }
    unfold copyFileSync, writeJson, mkdirSync, writeFileSync, mbind, IO_bind in Hrun.
    destruct (JSON_parse original) as [data|]; cbn; rewrite Hfile; cbn.
    + destruct data; apply Hrun.
    + apply Hrun.
  - rewrite Hfile. cbn. eexists. split; [done|]. cbn.
    rewrite <- !app_assoc. split; [done|].
    split; [by rewrite lookup_insert_eq|].
    intros path ?. by rewrite lookup_insert_ne.
Qed.

(** On a fresh install the merged document is the patch. *)
Example patch_of_empty_config apiKey :
  deepMerge (spread (JObj [])) (sansaPatch apiKey) = sansaPatch apiKey.
Proof. reflexivity. Qed.

(** Providers, defaults and other keys of the user stay; the Sansa
    provider and the default model are added. *)
Example patch_keeps_user_config apiKey :
  deepMerge
    (spread
       (JObj [("theme", JStr "dark");
              ("models",
               JObj [("providers",
                      JObj [("openai", JObj [("apiKey", JStr "sk-user")])])]);
              ("agents",
               JObj [("defaults",
                      JObj [("workspace", JStr "/home/u/w");
                            ("model", JObj [("primary", JStr "openai/gpt")])])])]))
    (sansaPatch apiKey)
  = [("theme", JStr "dark");
     ("models",
      JObj [("providers",
             JObj [("openai", JObj [("apiKey", JStr "sk-user")]);
                   ("sansa-ai",
                    JObj [("baseUrl", JStr "https://api.sansaml.com/v1");
                          ("apiKey", JStr apiKey);
                          ("api", JStr "openai-completions");
                          ("models", JArr [SANSA_MODEL_ENTRY])])]);
            ("mode", JStr "merge")]);
     ("agents",
      JObj [("defaults",
             JObj [("workspace", JStr "/home/u/w");
                   ("model", JObj [("primary", JStr "sansa-ai/sansa-auto")]);
                   ("models",
                    JObj [("sansa-ai/sansa-auto", JObj [("alias", JStr "Sansa")])])])])].
Proof. reflexivity. Qed.

End PatchOpenClawConfig.

(** The backup of a configuration file, for a clock reading. *)
Example backup_path_literal :
  backupPath "/home/u/.openclaw/openclaw.json" 1700000000000
  = "/home/u/.openclaw/openclaw.json.bak.1700000000000".
Proof. by vm_compute. Qed.

End ConfigPatch.

(* ===================================================================== *)
(** * UsageAggregator: the savings tracker script                         *)
(* ===================================================================== *)

Module SavingsTracker.

(** Numbers of the tracker are integers: token counts and epoch
    milliseconds, on which the arithmetic of a JavaScript Number is exact
    up to 2^53.  A count that is a fraction is outside the model. *)
Abbreviation value := (json Z).

(** ** The coercions of ECMAScript the script relies on *)

(** [!v] is false. *)
Definition truthy (v : jsval Z) : bool :=
  match v with
  | None | Some JNull => false
  | Some (JBool b) => b
  | Some (JNum n) => negb (n =? 0)
  | Some (JStr s) => negb (String.eqb s "")
  | Some (JArr _) | Some (JObj _) => true
  end.

(** [a ?? b], with a right-hand side that is a value. *)
Definition nullishOr (a : jsval Z) (b : value) : value :=
  match a with
  | None | Some JNull => b
  | Some v => v
  end.

(** [v.name] on a value that is not [null], for the field names the
    script reads ([message], [usage], [timestamp], [input], [input_tokens],
    [output], [output_tokens]): an object answers with its own property,
    and no other value carries a property of these names. *)
Definition readField (v : value) (name : string) : jsval Z :=
  match v with
  | JObj o => getOwn o name
  | _ => None
  end.

(** [v.name]: reading a property of [null] throws. *)
Definition getField (v : value) (name : string) : outcome (jsval Z) :=
  match v with
  | JNull => Throw
  | _ => Ok (readField v name)
  end.

(** [v?.name]: [undefined] on [undefined] and [null], [v.name] otherwise. *)
Definition getFieldOpt (v : jsval Z) (name : string) : jsval Z :=
  match v with
  | None | Some JNull => None
  | Some v => readField v name
  end.

(** [ToString] of a value of a parsed document.  An object whose own
    [toString] property hides the inherited method cannot be converted
    (the property parsed from JSON is not callable); an array is the join
    of its elements, [null] elements being empty.  A number is an integer
    written with all its digits, as [ToString] writes the integers below
    10^21. *)
Fixpoint toString (v : value) : outcome string :=
  match v with
  | JNull => Ok "null"
  | JBool b => Ok (if b then "true" else "false")
  | JNum n => Ok (pretty n)
  | JStr s => Ok s
  | JObj o =>
      match getOwn o "toString" with
      | Some _ => Throw
      | None => Ok "[object Object]"
      end
  | JArr xs =>
      (fix join (xs : list value) : outcome string :=
         match xs with
         | [] => Ok ""
         | x :: rest =>
             e ← match x with JNull => Ok "" | _ => toString x end;
             match rest with
             | [] => Ok e
             | _ => r ← join rest; Ok (e +:+ "," +:+ r)
             end
         end) xs
  end.

(** [ToPrimitive]: objects and arrays become strings. *)
Definition toPrimitive (v : value) : outcome value :=
  match v with
  | JArr _ | JObj _ => s ← toString v; Ok (JStr s)
  | _ => Ok v
  end.

(** [a + b]: concatenation as soon as one side is a string, the sum of
    the numbers otherwise ([null] is 0, [true] is 1).  The sum is that of
    integers: it is the sum of the two Numbers when the magnitudes of the
    two add up to 2^53 at most, the bound that the statements on sums
    carry ([withinExact]). *)
Definition add (a b : value) : outcome value :=
  pa ← toPrimitive a;
  pb ← toPrimitive b;
  match pa, pb with
  | JStr _, _ | _, JStr _ =>
      sa ← toString pa; sb ← toString pb; Ok (JStr (sa +:+ sb))
  | _, _ =>
      let num (p : value) : Z :=
        match p with
        | JNum n => n
        | JBool true => 1
        | _ => 0
        end in
      Ok (JNum (num pa + num pb))
  end.

(** ** The record store and the running totals *)

(** The running totals [inputTokens] and [outputTokens]. *)
Record Tokens := mkTokens { inputTokens : value; outputTokens : value }.

(** A line of a session file, as [line.trim()] and [JSON.parse(line)] see
    it: blank, rejected by the parser, or decoded. *)
Inductive Line :=
| Blank
| Malformed
| Decoded (entry : value).

(** A file of a [sessions] directory: its name, [statSync(..).mtimeMs] and
    [readFileSync(..).split("\n")]. *)
Record SessionFile := mkFile {
  fileName : string;
  mtimeMs : Z;
  lines : list Line
}.

(** An entry of [AGENTS_DIR]: [sessions] is [None] when
    [<AGENTS_DIR>/<name>/sessions] does not exist. *)
Record AgentEntry := mkAgent {
  entryName : string;
  isDirectory : bool;
  sessions : option (list SessionFile)
}.

(** [f.endsWith(suffix)]. *)
Definition endsWith (f suffix : string) : bool :=
  let n := String.length f in
  let m := String.length suffix in
  (m <=? n)%nat && String.eqb (substring (n - m) m f) suffix.

(** [usage.input ?? usage.input_tokens ?? 0] and its output twin, on a
    usage block that is not [null]. *)
Definition tokenField (usage : value) (name alt : string) : value :=
  nullishOr (readField usage name) (nullishOr (readField usage alt) (JNum 0)).

(** The second half of the [try] block:
    [inputTokens += ...; outputTokens += ...].  The totals are updated in
    place, so an exception thrown by the second statement leaves the first
    update standing; the [catch] goes on with the totals as they are. *)
Definition accumulate (acc : Tokens) (usage : value) : Tokens :=
  match add (inputTokens acc) (tokenField usage "input" "input_tokens") with
  | Throw => acc
  | Ok inputTokens' =>
      match add (outputTokens acc) (tokenField usage "output" "output_tokens") with
      | Throw => mkTokens inputTokens' (outputTokens acc)
      | Ok outputTokens' => mkTokens inputTokens' outputTokens'
      end
  end.

(** ** [scanSessionLogs] *)

Section Scan.

(** [StringToNumber] of ECMAScript, on the integers of this model; [None]
    is [NaN]. *)
Variable StringToNumber : string -> option Z.

(** [ToNumber] of a primitive value; [None] is [NaN]. *)
Definition toNumber (p : value) : option Z :=
  match p with
  | JNull => Some 0
  | JBool b => Some (if b then 1 else 0)
  | JNum n => Some n
  | JStr s => StringToNumber s
  | JArr _ | JObj _ => None
  end.

(** [ts < sinceMs] for a number [sinceMs]: a comparison with [NaN] is
    false. *)
Definition lessThan (ts : value) (sinceMs : Z) : outcome bool :=
  p ← toPrimitive ts;
  Ok (match toNumber p with
      | Some n => n <? sinceMs
      | None => false
      end).

(** The first half of the [try] block, after [JSON.parse] has returned
    [entry]: the usage block of the entry when the entry reaches the two
    [+=] statements, [None] when a [continue] or a thrown exception ends
    the turn before them.

    - [usage = entry.message?.usage], [if (!usage) continue];
    - [ts = entry.message?.timestamp ?? 0], [if (ts < sinceMs) continue]. *)
Definition selectUsage (sinceMs : Z) (entry : value) : option value :=
  match getField entry "message" with
  | Throw => None
  | Ok message =>
      match getFieldOpt message "usage" with
      | None => None
      | Some usage =>
          if negb (truthy (Some usage)) then None else
          let ts := nullishOr (getFieldOpt message "timestamp") (JNum 0) in
          match lessThan ts sinceMs with
          | Throw => None
          | Ok true => None
          | Ok false => Some usage
          end
      end
  end.

(** The [try] block with its empty [catch], after [JSON.parse]. *)
Definition scanEntry (sinceMs : Z) (acc : Tokens) (entry : value) : Tokens :=
  match selectUsage sinceMs entry with
  | None => acc
  | Some usage => accumulate acc usage
  end.

(** One turn of [for (const line of lines)]. *)
Definition scanLine (sinceMs : Z) (acc : Tokens) (line : Line) : Tokens :=
  match line with
  | Blank => acc
  | Malformed => acc
  | Decoded entry => scanEntry sinceMs acc entry
  end.

(** One turn of [for (const file of files)], on a file that passed the
    name filter. *)
Definition scanFile (sinceMs : Z) (acc : Tokens) (file : SessionFile) : Tokens :=
  if mtimeMs file <? sinceMs then acc
  else fold_left (scanLine sinceMs) (lines file) acc.

(** One turn of [for (const sessionsDir of agentDirs)]. *)
Definition scanSessionsDir (sinceMs : Z) (acc : Tokens)
    (sessionsDir : option (list SessionFile)) : Tokens :=
  match sessionsDir with
  | None => acc
  | Some entries =>
      let files := filter (fun f => endsWith (fileName f) ".jsonl" = true) entries in
      fold_left (scanFile sinceMs) files acc
  end.

(** The files the three filters before [statSync] let through: entries of
    [AGENTS_DIR] that are directories, whose [sessions] directory exists,
    and in it the names ending in [.jsonl]. *)
Definition jsonlFiles (sessionsDir : option (list SessionFile)) : list SessionFile :=
  match sessionsDir with
  | None => []
  | Some entries => filter (fun f => endsWith (fileName f) ".jsonl" = true) entries
  end.

Definition agentDirs (entries : list AgentEntry) : list (option (list SessionFile)) :=
  map sessions (filter (fun d => isDirectory d = true) entries).

Definition scanSessionLogs (sinceMs : Z) (agentsDir : option (list AgentEntry))
  : Tokens :=
  let acc := mkTokens (JNum 0) (JNum 0) in
  match agentsDir with
  | None => acc
  | Some entries => fold_left (scanSessionsDir sinceMs) (agentDirs entries) acc
  end.

(** ** The main body: scan, then checkpoint *)

(** The state of [state.json]; [loadState] answers [initialState] when the
    file is missing or unreadable. *)
Record State := mkState {
  lastReportedAt : Z;
  lifetimeInput : value;
  lifetimeOutput : value
}.

Definition initialState : State := mkState 0 (JNum 0) (JNum 0).

(** [state.lastReportedAt || 0]. *)
Definition sinceMsOf (state : State) : Z :=
  if lastReportedAt state =? 0 then 0 else lastReportedAt state.

(** [state.lifetimeInput += tokens.inputTokens;
     state.lifetimeOutput += tokens.outputTokens;
     state.lastReportedAt = Date.now()], with [now] the clock reading. *)
Definition checkpoint (state : State) (tokens : Tokens) (now : Z) : outcome State :=
  lifetimeInput' ← add (lifetimeInput state) (inputTokens tokens);
  lifetimeOutput' ← add (lifetimeOutput state) (outputTokens tokens);
  Ok (mkState now lifetimeInput' lifetimeOutput').

(** The scan and the checkpoint update of one run of the script, on the
    record store [agentsDir] at time [now]: the period totals and the
    state as the three assignments leave it.  The script hands this state
    to [saveState] once [computeCosts] has returned
    (see [TrackerScript.script]). *)
Definition run (state : State) (agentsDir : option (list AgentEntry)) (now : Z)
  : outcome (Tokens * State) :=
  let sinceMs := sinceMsOf state in
  let tokens := scanSessionLogs sinceMs agentsDir in
  state' ← checkpoint state tokens now;
  Ok (tokens, state').

(** Successive runs that reach [saveState], each on the store and at the
    clock reading of its time and each from the state the one before it
    saved: the states, oldest first. *)
Fixpoint runs (state : State) (schedule : list (option (list AgentEntry) * Z))
  : outcome (list State) :=
  match schedule with
  | [] => Ok []
  | (agentsDir, now) :: rest =>
      r ← run state agentsDir now;
      states ← runs (snd r) rest;
      Ok (snd r :: states)
  end.

End Scan.

(** ** The usage records of the data model *)

(** A usage record: its timestamp and token counts. *)
Record UsageRecord := mkRecord {
  timestampMillis : Z;
  recInputTokens : Z;
  recOutputTokens : Z
}.

(** How a line reads as a usage record: it carries none and is passed
    over whatever the cutoff; or it is a record with numbers (or nothing)
    where numbers are expected; or one of the fields the scan reads holds
    something else. *)
Inductive Reading :=
| Skipped
| Usage (r : UsageRecord)
| IllTyped.

Definition asNumber (v : value) : option Z :=
  match v with
  | JNum n => Some n
  | _ => None
  end.

Definition readEntry (entry : value) : Reading :=
  match getField entry "message" with
  | Throw => Skipped
  | Ok message =>
      match getFieldOpt message "usage" with
      | None => Skipped
      | Some usage =>
          if negb (truthy (Some usage)) then Skipped else
          match asNumber (nullishOr (getFieldOpt message "timestamp") (JNum 0)),
                asNumber (tokenField usage "input" "input_tokens"),
                asNumber (tokenField usage "output" "output_tokens") with
          | Some t, Some i, Some o => Usage (mkRecord t i o)
          | _, _, _ => IllTyped
          end
      end
  end.

Definition readLine (line : Line) : Reading :=
  match line with
  | Decoded entry => readEntry entry
  | Blank | Malformed => Skipped
  end.

Definition wellTyped (line : Line) : bool :=
  match readLine line with
  | IllTyped => false
  | _ => true
  end.

Definition recordOf (line : Line) : option UsageRecord :=
  match readLine line with
  | Usage r => Some r
  | _ => None
  end.

(** A record is within the window of a scan when its timestamp is not
    before the cutoff. *)
Definition inWindow (cutoff : Z) (r : UsageRecord) : bool :=
  negb (timestampMillis r <? cutoff).

Definition sumZ (l : list Z) : Z := foldr Z.add 0 l.

(** The token counts of the records of [ls] within the window. *)
Definition windowInput (cutoff : Z) (ls : list Line) : Z :=
  sumZ (map recInputTokens (filter (fun r => inWindow cutoff r = true) (omap recordOf ls))).
Definition windowOutput (cutoff : Z) (ls : list Line) : Z :=
  sumZ (map recOutputTokens (filter (fun r => inWindow cutoff r = true) (omap recordOf ls))).

(** Every file the scan may read, and every line of them. *)
Definition scannedFiles (agentsDir : option (list AgentEntry)) : list SessionFile :=
  match agentsDir with
  | None => []
  | Some entries => concat (map jsonlFiles (agentDirs entries))
  end.

Definition scannedLines (agentsDir : option (list AgentEntry)) : list Line :=
  concat (map lines (scannedFiles agentsDir)).

(** The modification time of a file is not before the timestamps of the
    records it holds. *)
Definition mtimeSound (file : SessionFile) : Prop :=
  forall line r, line ∈ lines file -> recordOf line = Some r ->
                 timestampMillis r <= mtimeMs file.

(** The lines of the files whose modification time lets them be read. *)
Definition linesRead (c : Z) (files : list SessionFile) : list Line :=
  concat (map (fun file => if mtimeMs file <? c then [] else lines file) files).

(** The records within the window, as a multiset of the records held by
    the lines. *)
Definition recordsWithin (c : Z) (ls : list Line) : list UsageRecord :=
  filter (fun r => inWindow c r = true) (omap recordOf ls).

(** From one saved state to the next: the lifetime counters are numbers
    that did not decrease, and the checkpoint moved forward. *)
Definition advances (s s' : State) : Prop :=
  exists a b a' b',
    lifetimeInput s = JNum a /\ lifetimeOutput s = JNum b /\
    lifetimeInput s' = JNum a' /\ lifetimeOutput s' = JNum b' /\
    a <= a' /\ b <= b' /\ lastReportedAt s < lastReportedAt s'.

(** The records of a store are those of the data model: every line is
    well typed and no count is negative. *)
Definition usageStore (agentsDir : option (list AgentEntry)) : Prop :=
  forall line, line ∈ scannedLines agentsDir ->
    wellTyped line = true /\
    forall r, recordOf line = Some r -> 0 <= recInputTokens r /\ 0 <= recOutputTokens r.

(** The additions of a scan stay within the integers that a Number holds
    exactly: the magnitudes of the counts within the window add up to
    2^53 at most, for each direction, so that every partial sum is exact
    whatever the order of the additions. *)
Definition withinExact (c : Z) (ls : list Line) : Prop :=
  sumZ (map (fun r => Z.abs (recInputTokens r)) (recordsWithin c ls)) <= 2 ^ 53
  /\ sumZ (map (fun r => Z.abs (recOutputTokens r)) (recordsWithin c ls)) <= 2 ^ 53.

(** ** The scan as a fold over the files it may read *)

Section ScanLemmas.
Variable StringToNumber : string -> option Z.
Implicit Types (acc : Tokens) (line : Line) (file : SessionFile) (c a b : Z).

Abbreviation scanLine := (scanLine StringToNumber).
Abbreviation scanFile := (scanFile StringToNumber).
Abbreviation scanSessionsDir := (scanSessionsDir StringToNumber).
Abbreviation scanSessionLogs := (scanSessionLogs StringToNumber).

Lemma scanSessionsDir_files c acc dir :
  scanSessionsDir c acc dir = fold_left (scanFile c) (jsonlFiles dir) acc.
Proof. by destruct dir. Qed.

Lemma scanSessionLogs_files c agentsDir :
  scanSessionLogs c agentsDir =
  fold_left (scanFile c) (scannedFiles agentsDir) (mkTokens (JNum 0) (JNum 0)).
Proof.
  destruct agentsDir as [entries|]; [|done].
  unfold SavingsTracker.scanSessionLogs, scannedFiles.
  generalize (mkTokens (JNum 0) (JNum 0)) as acc.
  induction (agentDirs entries) as [|dir dirs IH]; intros acc; simpl; [done|].
  by rewrite fold_left_app, IH, scanSessionsDir_files.
Qed.

(** ** Lines that read as usage records *)

Lemma asNumber_Some v n : asNumber v = Some n -> v = JNum n.
Proof. destruct v; simpl; congruence. Qed.

Lemma add_numbers a b : add (JNum a) (JNum b) = Ok (JNum (a + b)).
Proof. reflexivity. Qed.

Lemma lessThan_number t c : lessThan StringToNumber (JNum t) c = Ok (t <? c).
Proof. reflexivity. Qed.

Lemma scanLine_skipped c acc line :
  readLine line = Skipped -> scanLine c acc line = acc.
Proof.
  destruct line as [| |entry]; simpl; try done.
  unfold readEntry, scanEntry, selectUsage.
  destruct (getField entry "message") as [message|]; [|done].
  destruct (getFieldOpt message "usage") as [usage|]; [|done].
  destruct (negb (truthy (Some usage))); [done|].
  by repeat case_match.
Qed.

Lemma scanLine_record c a b line r :
  readLine line = Usage r ->
  scanLine c (mkTokens (JNum a) (JNum b)) line =
  if inWindow c r
  then mkTokens (JNum (a + recInputTokens r)) (JNum (b + recOutputTokens r))
  else mkTokens (JNum a) (JNum b).
Proof.
  destruct line as [| |entry]; simpl; try done.
  unfold readEntry, scanEntry, selectUsage, inWindow.
  destruct (getField entry "message") as [message|]; [|done].
  destruct (getFieldOpt message "usage") as [usage|]; [|done].
  destruct (negb (truthy (Some usage))); [done|].
  destruct (asNumber (nullishOr _ _)) as [t|] eqn:Ht; [|done].
  destruct (asNumber (tokenField usage "input" _)) as [i|] eqn:Hi; [|done].
  destruct (asNumber (tokenField usage "output" _)) as [o|] eqn:Ho; [|done].
  intros [= <-]. simpl.
  apply asNumber_Some in Ht, Hi, Ho. rewrite Ht, lessThan_number.
  destruct (t <? c); simpl; [done|].
  unfold accumulate. simpl. by rewrite Hi, Ho.
Qed.

Lemma windowInput_nil c : windowInput c [] = 0.
Proof. reflexivity. Qed.

Lemma windowOutput_nil c : windowOutput c [] = 0.
Proof. reflexivity. Qed.

Lemma sumZ_app l1 l2 : sumZ (l1 ++ l2) = sumZ l1 + sumZ l2.
Proof. induction l1 as [|x l1 IH]; simpl; [done|]. rewrite IH. lia. Qed.

Lemma windowInput_app c l1 l2 :
  windowInput c (l1 ++ l2) = windowInput c l1 + windowInput c l2.
Proof. unfold windowInput. by rewrite omap_app, filter_app, map_app, sumZ_app. Qed.

Lemma windowOutput_app c l1 l2 :
  windowOutput c (l1 ++ l2) = windowOutput c l1 + windowOutput c l2.
Proof. unfold windowOutput. by rewrite omap_app, filter_app, map_app, sumZ_app. Qed.

Lemma windowInput_cons c line ls :
  windowInput c (line :: ls) = windowInput c [line] + windowInput c ls.
Proof. apply (windowInput_app c [line] ls). Qed.

Lemma windowOutput_cons c line ls :
  windowOutput c (line :: ls) = windowOutput c [line] + windowOutput c ls.
Proof. apply (windowOutput_app c [line] ls). Qed.

Lemma window_single c line :
  (windowInput c [line], windowOutput c [line]) =
  match recordOf line with
  | Some r => if inWindow c r then (recInputTokens r, recOutputTokens r) else (0, 0)
  | None => (0, 0)
  end.
Proof.
  unfold windowInput, windowOutput. simpl.
  destruct (recordOf line) as [r|]; simpl; [|done].
  rewrite filter_cons, filter_nil.
  destruct (decide (inWindow c r = true)) as [->|Hn]; simpl.
  - f_equal; lia.
  - by apply not_true_is_false in Hn as ->.
Qed.

(** A well-typed line adds the counts of its record, if it holds one
    within the window, to totals that are numbers. *)
Lemma scanLine_wellTyped c a b line :
  wellTyped line = true ->
  scanLine c (mkTokens (JNum a) (JNum b)) line =
  mkTokens (JNum (a + windowInput c [line])) (JNum (b + windowOutput c [line])).
Proof.
  intros Hwt. pose proof (window_single c line) as Hw.
  unfold wellTyped, recordOf in *.
  destruct (readLine line) as [|r|] eqn:Hr; [| |done].
  - rewrite scanLine_skipped by done. injection Hw as -> ->.
    by rewrite !Z.add_0_r.
  - rewrite (scanLine_record _ _ _ _ r) by done.
    destruct (inWindow c r); injection Hw as -> ->; [done|].
    by rewrite !Z.add_0_r.
Qed.

Lemma scanLines_wellTyped c ls a b :
  Forall (fun line => wellTyped line = true) ls ->
  fold_left (scanLine c) ls (mkTokens (JNum a) (JNum b)) =
  mkTokens (JNum (a + windowInput c ls)) (JNum (b + windowOutput c ls)).
Proof.
  intros Hwt. revert a b.
  induction Hwt as [|line ls Hline _ IH]; intros a b; simpl.
  - by rewrite windowInput_nil, windowOutput_nil, !Z.add_0_r.
  - rewrite scanLine_wellTyped, IH by done.
    rewrite (windowInput_cons c line ls), (windowOutput_cons c line ls).
    by rewrite !Z.add_assoc.
Qed.

Lemma scanFiles_wellTyped c files a b :
  Forall (fun line => wellTyped line = true) (linesRead c files) ->
  fold_left (scanFile c) files (mkTokens (JNum a) (JNum b)) =
  mkTokens (JNum (a + windowInput c (linesRead c files)))
           (JNum (b + windowOutput c (linesRead c files))).
Proof.
  revert a b. induction files as [|file files IH]; intros a b Hwt; simpl.
  - by rewrite windowInput_nil, windowOutput_nil, !Z.add_0_r.
  - unfold linesRead in Hwt. simpl in Hwt. apply Forall_app in Hwt as [Hf Hfs].
    unfold linesRead. simpl. fold (linesRead c files).
    rewrite windowInput_app, windowOutput_app.
    unfold SavingsTracker.scanFile at 2.
    destruct (mtimeMs file <? c).
    + rewrite IH by done. rewrite windowInput_nil, windowOutput_nil. f_equal; f_equal; lia.
    + rewrite scanLines_wellTyped, IH by done. by rewrite !Z.add_assoc.
Qed.

(** Below the cutoff no record of a file with a sound modification time is
    within the window: skipping the file loses nothing. *)
Lemma window_mtimeSound c file :
  mtimeSound file -> mtimeMs file < c ->
  windowInput c (lines file) = 0 /\ windowOutput c (lines file) = 0.
Proof.
  intros Hs Hlt. unfold mtimeSound in Hs.
  induction (lines file) as [|line ls IH]; [done|].
  rewrite windowInput_cons, windowOutput_cons.
  destruct IH as [-> ->].
  { intros l r Hl. apply Hs. by right. }
  pose proof (window_single c line) as Hw.
  destruct (recordOf line) as [r|] eqn:Hr.
  - assert (timestampMillis r <= mtimeMs file) by (eapply Hs; [left|done]).
    unfold inWindow in Hw.
    destruct (Z.ltb_spec (timestampMillis r) c); [|lia].
    by injection Hw as -> ->.
  - by injection Hw as -> ->.
Qed.

Lemma linesRead_mtimeSound c files :
  Forall mtimeSound files ->
  windowInput c (linesRead c files) = windowInput c (concat (map lines files)) /\
  windowOutput c (linesRead c files) = windowOutput c (concat (map lines files)).
Proof.
  induction 1 as [|file files Hs _ [IHi IHo]]; [done|].
  unfold linesRead. simpl. fold (linesRead c files).
  rewrite !windowInput_app, !windowOutput_app, IHi, IHo.
  destruct (Z.ltb_spec (mtimeMs file) c); [|done].
  destruct (window_mtimeSound c file) as [-> ->]; done.
Qed.

Lemma window_nonneg c ls :
  (forall line r, line ∈ ls -> recordOf line = Some r ->
                  0 <= recInputTokens r /\ 0 <= recOutputTokens r) ->
  0 <= windowInput c ls /\ 0 <= windowOutput c ls.
Proof.
  induction ls as [|line ls IH]; intros H; [done|].
  rewrite windowInput_cons, windowOutput_cons.
  pose proof (window_single c line) as Hw.
  destruct IH as [IHi IHo].
  { intros l r Hl. apply H. by right. }
  destruct (recordOf line) as [r|] eqn:Hr.
  - destruct (H line r) as [Hi Ho]; [left|done|].
    destruct (inWindow c r); injection Hw as -> ->; lia.
  - injection Hw as -> ->. lia.
Qed.

(** ** Windows over a growing store *)

Lemma sumZ_Permutation l1 l2 : l1 ≡ₚ l2 -> sumZ l1 = sumZ l2.
Proof. induction 1; simpl; lia. Qed.

Lemma windowInput_records c ls :
  windowInput c ls = sumZ (map recInputTokens (recordsWithin c ls)).
Proof. reflexivity. Qed.

Lemma windowOutput_records c ls :
  windowOutput c ls = sumZ (map recOutputTokens (recordsWithin c ls)).
Proof. reflexivity. Qed.

Lemma recordsWithin_app c l1 l2 :
  recordsWithin c (l1 ++ l2) = recordsWithin c l1 ++ recordsWithin c l2.
Proof. unfold recordsWithin. by rewrite omap_app, filter_app. Qed.

Lemma recordsWithin_Permutation c l1 l2 :
  l1 ≡ₚ l2 -> recordsWithin c l1 ≡ₚ recordsWithin c l2.
Proof. intros H. unfold recordsWithin. by rewrite H. Qed.

Lemma recordsWithin_before t ls :
  (forall line r, line ∈ ls -> recordOf line = Some r -> timestampMillis r < t) ->
  recordsWithin t ls = [].
Proof.
  intros H.
  induction ls as [|line ls IH]; [done|].
  change (line :: ls) with ([line] ++ ls).
  rewrite (recordsWithin_app t [line] ls), IH, app_nil_r
    by (intros l r Hl; apply H; by right).
  unfold recordsWithin. simpl.
  destruct (recordOf line) as [r|] eqn:Hr; [|done].
  rewrite filter_cons, filter_nil.
  assert (timestampMillis r < t) by (eapply H; [left|done]).
  unfold inWindow. destruct (Z.ltb_spec (timestampMillis r) t); [done|lia].
Qed.

Lemma recordsWithin_after t ls c :
  (forall line r, line ∈ ls -> recordOf line = Some r -> t <= timestampMillis r) ->
  c <= t ->
  recordsWithin c ls = recordsWithin t ls.
Proof.
  intros H Hc.
  induction ls as [|line ls IH]; [done|].
  change (line :: ls) with ([line] ++ ls).
  rewrite (recordsWithin_app c [line] ls), (recordsWithin_app t [line] ls), IH
    by (intros l r Hl; apply H; by right).
  f_equal. unfold recordsWithin. simpl.
  destruct (recordOf line) as [r|] eqn:Hr; [|done].
  rewrite !filter_cons, !filter_nil.
  assert (t <= timestampMillis r) by (eapply H; [left|done]).
  unfold inWindow.
  destruct (Z.ltb_spec (timestampMillis r) t), (Z.ltb_spec (timestampMillis r) c);
    try lia; done.
Qed.

Lemma linesRead_subset c files line :
  line ∈ linesRead c files -> line ∈ concat (map lines files).
Proof.
  unfold linesRead. induction files as [|file files IH]; simpl; [done|].
  rewrite !elem_of_app. intros [H|H]; [|right; by apply IH].
  left. destruct (mtimeMs file <? c); [by apply elem_of_nil in H|done].
Qed.

(** The scan of a well-typed store whose modification times are sound
    returns the counts of all records within the window. *)
Lemma scan_wellTyped_sound c agentsDir :
  Forall (fun line => wellTyped line = true) (scannedLines agentsDir) ->
  Forall mtimeSound (scannedFiles agentsDir) ->
  scanSessionLogs c agentsDir =
  mkTokens (JNum (windowInput c (scannedLines agentsDir)))
           (JNum (windowOutput c (scannedLines agentsDir))).
Proof.
  intros Hwt Hs. rewrite scanSessionLogs_files, scanFiles_wellTyped.
  - destruct (linesRead_mtimeSound c _ Hs) as [-> ->]. done.
  - rewrite Forall_forall in Hwt |- *. intros line Hl.
    apply Hwt. by eapply linesRead_subset.
Qed.

(** The totals of a scan whose lines are well typed. *)
Lemma scan_totals c agentsDir :
  Forall (fun line => wellTyped line = true) (linesRead c (scannedFiles agentsDir)) ->
  scanSessionLogs c agentsDir =
  mkTokens (JNum (windowInput c (linesRead c (scannedFiles agentsDir))))
           (JNum (windowOutput c (linesRead c (scannedFiles agentsDir)))).
Proof. intros Hwt. rewrite scanSessionLogs_files. by rewrite scanFiles_wellTyped. Qed.

(** ** The files of a store *)

Lemma scannedFiles_app entries1 entries2 :
  scannedFiles (Some (entries1 ++ entries2)) =
  scannedFiles (Some entries1) ++ scannedFiles (Some entries2).
Proof.
  unfold scannedFiles, agentDirs. by rewrite filter_app, !map_app, concat_app.
Qed.

Lemma scannedFiles_cons entry entries :
  scannedFiles (Some (entry :: entries)) =
  (if isDirectory entry then jsonlFiles (sessions entry) else [])
  ++ scannedFiles (Some entries).
Proof.
  unfold scannedFiles, agentDirs. rewrite filter_cons.
  destruct (isDirectory entry); simpl; done.
Qed.

Lemma jsonlFiles_app files1 files2 :
  jsonlFiles (Some (files1 ++ files2)) =
  jsonlFiles (Some files1) ++ jsonlFiles (Some files2).
Proof. unfold jsonlFiles. apply filter_app. Qed.

Lemma jsonlFiles_cons file files :
  jsonlFiles (Some (file :: files)) =
  (if endsWith (fileName file) ".jsonl" then [file] else [])
  ++ jsonlFiles (Some files).
Proof.
  unfold jsonlFiles. rewrite filter_cons.
  destruct (endsWith (fileName file) ".jsonl"); simpl; done.
Qed.

(** The scan of a store in which one file sits between [fpre] and [fpost]
    in the [sessions] directory of one entry of [AGENTS_DIR]. *)
Lemma scan_around_file c pre post name isDir fpre fpost file :
  scanSessionLogs c
    (Some (pre ++ mkAgent name isDir (Some (fpre ++ file :: fpost)) :: post)) =
  fold_left (scanFile c)
    ((if isDir then jsonlFiles (Some fpost) else []) ++ scannedFiles (Some post))
    (fold_left (scanFile c)
       (if isDir && endsWith (fileName file) ".jsonl" then [file] else [])
       (fold_left (scanFile c)
          (scannedFiles (Some pre) ++ (if isDir then jsonlFiles (Some fpre) else []))
          (mkTokens (JNum 0) (JNum 0)))).
Proof.
  rewrite scanSessionLogs_files, scannedFiles_app, scannedFiles_cons.
  cbn [isDirectory sessions]. rewrite jsonlFiles_app, jsonlFiles_cons.
  rewrite <- !fold_left_app. f_equal.
  destruct isDir, (endsWith (fileName file) ".jsonl"); simpl;
    by rewrite <- ?app_assoc, ?app_nil_r.
Qed.

Lemma scanLines_malformed c l1 l2 acc :
  fold_left (scanLine c) (l1 ++ Malformed :: l2) acc =
  fold_left (scanLine c) (l1 ++ l2) acc.
Proof. by rewrite !fold_left_app. Qed.

Lemma scanLines_passed_over c l1 l2 line acc :
  (forall acc', scanLine c acc' line = acc') ->
  fold_left (scanLine c) (l1 ++ line :: l2) acc =
  fold_left (scanLine c) (l1 ++ l2) acc.
Proof. intros H. rewrite !fold_left_app. simpl. by rewrite H. Qed.

Lemma linesRead_app c files1 files2 :
  linesRead c (files1 ++ files2) = linesRead c files1 ++ linesRead c files2.
Proof. unfold linesRead. by rewrite map_app, concat_app. Qed.

(** The lines read from a store in which a [.jsonl] file that is not
    older than the cutoff sits in the [sessions] directory of a directory
    entry: the lines of the file, between the lines read before and after
    it. *)
Lemma linesRead_around c pre post name fpre fpost fname mtime ls :
  endsWith fname ".jsonl" = true ->
  c <= mtime ->
  linesRead c
    (scannedFiles
       (Some (pre ++ mkAgent name true (Some (fpre ++ mkFile fname mtime ls :: fpost))
              :: post)))
  = linesRead c (scannedFiles (Some pre) ++ jsonlFiles (Some fpre))
    ++ ls
    ++ linesRead c (jsonlFiles (Some fpost) ++ scannedFiles (Some post)).
Proof.
  intros Hname Hmtime.
  rewrite scannedFiles_app, scannedFiles_cons. cbn [isDirectory sessions].
  rewrite jsonlFiles_app, jsonlFiles_cons. cbn [fileName]. rewrite Hname.
  rewrite !linesRead_app. rewrite <- !app_assoc. do 2 f_equal.
  unfold linesRead at 1. cbn [map concat mtimeMs lines].
  rewrite (proj2 (Z.ltb_ge _ _) Hmtime). by rewrite app_nil_r.
Qed.

End ScanLemmas.


(** ** Properties of the scan *)

Section ScanProperties.
Variable StringToNumber : string -> option Z.
Implicit Types (acc : Tokens) (line : Line) (file : SessionFile) (c a b : Z).

Abbreviation selectUsage := (selectUsage StringToNumber).
Abbreviation scanEntry := (scanEntry StringToNumber).
Abbreviation scanFile := (scanFile StringToNumber).
Abbreviation scanSessionLogs := (scanSessionLogs StringToNumber).

(** C7. One line [JSON.parse] rejects, anywhere among the lines of a file
    of the store, changes no total: for every store, every file in it and
    every cutoff the scan returns what it returns on the same store with
    that line taken out of the file.  The lines after it, and the files and
    directories after that file, are processed as before. *)
Theorem malformed_line_tolerated c pre post name isDir fpre fpost fname mtime l1 l2 :
  scanSessionLogs c
    (Some (pre ++ mkAgent name isDir
             (Some (fpre ++ mkFile fname mtime (l1 ++ Malformed :: l2) :: fpost))
           :: post)) =
  scanSessionLogs c
    (Some (pre ++ mkAgent name isDir
             (Some (fpre ++ mkFile fname mtime (l1 ++ l2) :: fpost))
           :: post)).
Proof.
  rewrite !scan_around_file. cbn [fileName]. f_equal.
  destruct (isDir && endsWith fname ".jsonl"); [|done].
  cbn [fold_left]. unfold SavingsTracker.scanFile. cbn [mtimeMs lines].
  destruct (mtime <? c); [done|]. apply scanLines_malformed.
Qed.

(** C10. Only names ending in [.jsonl] in the [sessions] directory of a
    directory entry of [AGENTS_DIR] are read: a file of another name in a
    [sessions] directory contributes nothing, whatever its lines and its
    modification time, and neither does anything under an entry of
    [AGENTS_DIR] that is not a directory. *)
Theorem only_jsonl_files_read c pre post :
  (forall name isDir fpre fpost file,
      endsWith (fileName file) ".jsonl" = false ->
      scanSessionLogs c
        (Some (pre ++ mkAgent name isDir (Some (fpre ++ file :: fpost)) :: post)) =
      scanSessionLogs c
        (Some (pre ++ mkAgent name isDir (Some (fpre ++ fpost)) :: post)))
  /\ (forall entry,
      isDirectory entry = false ->
      scanSessionLogs c (Some (pre ++ entry :: post)) =
      scanSessionLogs c (Some (pre ++ post))).
Proof.
  split.
  - intros name isDir fpre fpost file Hname.
    rewrite !scanSessionLogs_files. f_equal.
    rewrite !scannedFiles_app, !scannedFiles_cons. cbn [isDirectory sessions].
    by rewrite !jsonlFiles_app, jsonlFiles_cons, Hname.
  - intros entry Hdir.
    rewrite !scanSessionLogs_files. f_equal.
    by rewrite !scannedFiles_app, scannedFiles_cons, Hdir.
Qed.

(** What the cutoff test decides for an entry with a usage block whose
    timestamp reads as the number [ts] (the number at [message.timestamp],
    or 0 when there is none). *)
Lemma selectUsage_timestamp c entry message usage ts :
  getField entry "message" = Ok (Some message) ->
  getFieldOpt (Some message) "usage" = Some usage ->
  truthy (Some usage) = true ->
  nullishOr (getFieldOpt (Some message) "timestamp") (JNum 0) = JNum ts ->
  selectUsage c entry = if ts <? c then None else Some usage.
Proof.
  intros Hm Hu Ht Hts. unfold SavingsTracker.selectUsage.
  rewrite Hm, Hu, Ht, Hts, lessThan_number. cbn [negb].
  by destruct (ts <? c).
Qed.

Lemma readEntry_usage entry message usage ts i o :
  getField entry "message" = Ok (Some message) ->
  getFieldOpt (Some message) "usage" = Some usage ->
  truthy (Some usage) = true ->
  nullishOr (getFieldOpt (Some message) "timestamp") (JNum 0) = JNum ts ->
  tokenField usage "input" "input_tokens" = JNum i ->
  tokenField usage "output" "output_tokens" = JNum o ->
  readLine (Decoded entry) = Usage (mkRecord ts i o).
Proof.
  intros Hm Hu Ht Hts Hi Ho. cbn [readLine]. unfold readEntry.
  by rewrite Hm, Hu, Ht, Hts, Hi, Ho.
Qed.

(** C5, as the code has it, on the totals of a scan.  Take any store and
    in it a line that decodes to an entry with a usage block, and let [ts]
    be the timestamp the code compares: the number at [message.timestamp],
    or 0 when the timestamp is missing or [null] (the [?? 0] of the code).

    - When [ts] is strictly before the cutoff the entry is kept out: the
      scan returns what it returns on the store without the line.  So an
      entry with no timestamp is kept out exactly by a positive cutoff.
    - When [ts] is at the cutoff or after it the entry is counted, in a
      file the scan reads: with integer counts [i] and [o] in the entry
      and well-typed lines around it, the totals are those of the store
      without the line plus [i] and [o].  An entry with no timestamp is
      counted by a scan with cutoff 0, the cutoff of a first run.
    - Hence, for an entry with a count that is not 0, the line leaves the
      totals as they are if and only if [ts] is strictly before the
      cutoff.

    The sums are those of Numbers as long as they are exact
    ([withinExact]). *)
Theorem cutoff_by_timestamp c pre post name fpre fpost fname mtime l1 l2
    entry message usage ts :
  getField entry "message" = Ok (Some message) ->
  getFieldOpt (Some message) "usage" = Some usage ->
  truthy (Some usage) = true ->
  nullishOr (getFieldOpt (Some message) "timestamp") (JNum 0) = JNum ts ->
  let store ls :=
    Some (pre ++ mkAgent name true (Some (fpre ++ mkFile fname mtime ls :: fpost))
          :: post) in
  let included i o :=
    exists a b,
      scanSessionLogs c (store (l1 ++ l2)) = mkTokens (JNum a) (JNum b)
      /\ scanSessionLogs c (store (l1 ++ Decoded entry :: l2))
         = mkTokens (JNum (a + i)) (JNum (b + o)) in
  (ts < c ->
   scanSessionLogs c (store (l1 ++ Decoded entry :: l2))
   = scanSessionLogs c (store (l1 ++ l2)))
  /\ (forall i o,
      endsWith fname ".jsonl" = true ->
      c <= mtime ->
      tokenField usage "input" "input_tokens" = JNum i ->
      tokenField usage "output" "output_tokens" = JNum o ->
      Forall (fun line => wellTyped line = true)
        (linesRead c (scannedFiles (store (l1 ++ l2)))) ->
      withinExact c (linesRead c (scannedFiles (store (l1 ++ Decoded entry :: l2)))) ->
      (c <= ts -> included i o)
      /\ (i <> 0 \/ o <> 0 ->
          (scanSessionLogs c (store (l1 ++ Decoded entry :: l2))
           = scanSessionLogs c (store (l1 ++ l2))
           <-> ts < c))).
Proof.
  intros Hm Hu Ht Hts store included.
  pose proof (selectUsage_timestamp c entry message usage ts Hm Hu Ht Hts) as Hsel.
  assert (ts < c ->
          scanSessionLogs c (store (l1 ++ Decoded entry :: l2))
          = scanSessionLogs c (store (l1 ++ l2))) as Hout.
  { intros Hlt. unfold store. rewrite !scan_around_file. cbn [fileName]. f_equal.
    destruct (true && endsWith fname ".jsonl"); [|done].
    cbn [fold_left]. unfold SavingsTracker.scanFile. cbn [mtimeMs lines].
    destruct (mtime <? c); [done|]. apply scanLines_passed_over.
    intros acc'. cbn [SavingsTracker.scanLine]. unfold SavingsTracker.scanEntry.
    fold (selectUsage c entry). rewrite Hsel.
    by rewrite (proj2 (Z.ltb_lt _ _) Hlt). }
  split; [done|].
  intros i o Hname Hmtime Hi Ho Hwt _.
  pose proof (readEntry_usage entry message usage ts i o Hm Hu Ht Hts Hi Ho) as Hread.
  assert (c <= ts -> included i o) as Hin.
  { intros Hge. unfold included, store.
    rewrite (scan_totals _ c (store (l1 ++ l2))) by done.
    rewrite (scan_totals _ c (store (l1 ++ Decoded entry :: l2))).
    - eexists _, _. split; [done|]. unfold store.
      rewrite !linesRead_around by done.
      rewrite !windowInput_app, !windowOutput_app.
      rewrite (windowInput_cons c (Decoded entry)), (windowOutput_cons c (Decoded entry)).
      pose proof (window_single c (Decoded entry)) as Hw.
      unfold recordOf in Hw. rewrite Hread in Hw. unfold inWindow in Hw.
      cbn [timestampMillis recInputTokens recOutputTokens] in Hw.
      rewrite (proj2 (Z.ltb_ge _ _) Hge) in Hw. injection Hw as -> ->.
      f_equal; f_equal; lia.
    - unfold store in Hwt |- *. rewrite linesRead_around in Hwt |- * by done.
      rewrite !Forall_app in Hwt |- *. destruct Hwt as (? & [? ?] & ?).
      repeat split; try done. constructor; [|done].
      unfold wellTyped. by rewrite Hread. }
  split; [done|].
  intros Hcount. split; [|done].
  intros Heq. destruct (Z.lt_ge_cases ts c) as [|Hge]; [done|].
  destruct (Hin Hge) as (a & b & Hwithout & Hwith).
  rewrite Heq, Hwithout in Hwith. injection Hwith as Ha Hb. lia.
Qed.

(** A timestamp that is a string is converted by [StringToNumber]: a
    string that is no number never compares below the cutoff, and the entry
    is counted whatever the cutoff. *)
Lemma string_timestamp c entry message usage s :
  getField entry "message" = Ok (Some message) ->
  getFieldOpt (Some message) "usage" = Some usage ->
  truthy (Some usage) = true ->
  getFieldOpt (Some message) "timestamp" = Some (JStr s) ->
  selectUsage c entry =
  match StringToNumber s with
  | Some n => if n <? c then None else Some usage
  | None => Some usage
  end.
Proof.
  intros Hm Hu Ht Hts. unfold SavingsTracker.selectUsage.
  rewrite Hm, Hu, Ht, Hts. cbn.
  destruct (StringToNumber s) as [n|]; [|done]. by destruct (n <? c).
Qed.


Lemma checkpoint_numbers last li lo i o now :
  checkpoint (mkState last (JNum li) (JNum lo)) (mkTokens (JNum i) (JNum o)) now
  = Ok (mkState now (JNum (li + i)) (JNum (lo + o))).
Proof. reflexivity. Qed.

Lemma sinceMsOf_lastReportedAt state : sinceMsOf state = lastReportedAt state.
Proof. unfold sinceMsOf. by destruct (Z.eqb_spec (lastReportedAt state) 0) as [->|]. Qed.


End ScanProperties.

(** ** Concrete stores *)

(** A line of a session log: an assistant message with its usage block,
    with or without a timestamp. *)
Definition usageEntry (timestamp : jsval Z) (input output : value) : value :=
  JObj [("type", JStr "message");
        ("message",
         JObj ([("role", JStr "assistant");
                ("usage", JObj [("input", input); ("output", output)])]
               ++ match timestamp with
                  | Some t => [("timestamp", t)]
                  | None => []
                  end))].

(** A store with one agent, [main], and one session file. *)
Definition singleFileStore (file : SessionFile) : option (list AgentEntry) :=
  Some [mkAgent "main" true (Some [file])].

(** A reading of [StringToNumber] for the examples below, none of which
    compares a string with the cutoff. *)
Definition noNumericString : string -> option Z := fun _ => None.

Ltac each_line :=
  let line := fresh "line" in
  let r := fresh "r" in
  let Hin := fresh "Hin" in
  let Hrec := fresh "Hrec" in
  intros line r Hin Hrec; vm_compute in Hin;
  repeat (apply elem_of_cons in Hin as [->|Hin]);
  [ vm_compute in Hrec; try discriminate Hrec;
    try (injection Hrec as <-; vm_compute; try discriminate; auto) ..
  | by apply elem_of_nil in Hin ].

(** C5 as the specification words it fails: a record without a timestamp
    is not kept out by the cutoff 0.  The scan of a first run counts its 7
    input and 3 output tokens, however strings convert to numbers. *)
Lemma missing_timestamp_counted_at_zero :
  selectUsage noNumericString 0 (usageEntry None (JNum 7) (JNum 3))
  = Some (JObj [("input", JNum 7); ("output", JNum 3)])
  /\ scanSessionLogs noNumericString 0
       (singleFileStore
          (mkFile "s1.jsonl" 1000 [Decoded (usageEntry None (JNum 7) (JNum 3))]))
     = mkTokens (JNum 7) (JNum 3)
  /\ ~ (exists StringToNumber,
          selectUsage StringToNumber 0 (usageEntry None (JNum 7) (JNum 3)) = None).
Proof.
  split; [reflexivity|]. split; [reflexivity|].
  intros [s2n H]. vm_compute in H. discriminate H.
Qed.

Lemma cutoff_by_timestamp_witness :
  let entry := usageEntry (Some (JNum 1500)) (JNum 7) (JNum 3) in
  let store ls :=
    Some ([] ++ mkAgent "main" true (Some ([] ++ mkFile "s1.jsonl" 2000 ls :: [])) :: []) in
  scanSessionLogs noNumericString 1501 (store ([] ++ Decoded entry :: []))
  = scanSessionLogs noNumericString 1501 (store ([] ++ []))
  /\ exists a b,
      scanSessionLogs noNumericString 1500 (store ([] ++ [])) = mkTokens (JNum a) (JNum b)
      /\ scanSessionLogs noNumericString 1500 (store ([] ++ Decoded entry :: []))
         = mkTokens (JNum (a + 7)) (JNum (b + 3)).
Proof.
  pose (message := JObj [("role", JStr "assistant");
                         ("usage", JObj [("input", JNum 7); ("output", JNum 3)]);
                         ("timestamp", JNum 1500)] : value).
  pose (usage := JObj [("input", JNum 7); ("output", JNum 3)] : value).
  cbv zeta. split.
  - apply (proj1 (cutoff_by_timestamp noNumericString 1501 [] [] "main" [] []
                    "s1.jsonl" 2000 [] []
                    (usageEntry (Some (JNum 1500)) (JNum 7) (JNum 3))
                    message usage 1500 eq_refl eq_refl eq_refl eq_refl)).
    lia.
  - refine (proj1 (proj2 (cutoff_by_timestamp noNumericString 1500 [] [] "main" [] []
                            "s1.jsonl" 2000 [] []
                            (usageEntry (Some (JNum 1500)) (JNum 7) (JNum 3))
                            message usage 1500 eq_refl eq_refl eq_refl eq_refl)
                     7 3 eq_refl _ eq_refl eq_refl _ _) _).
    + lia.
    + constructor.
    + vm_compute. split; discriminate.
    + lia.
Defined.





Lemma only_jsonl_files_read_witness :
  scanSessionLogs noNumericString 0
    (Some ([] ++ mkAgent "main" true
             (Some ([] ++ mkFile "notes.txt" 1000
                             [Decoded (usageEntry (Some (JNum 5)) (JNum 7) (JNum 3))]
                          :: []))
           :: []))
  = scanSessionLogs noNumericString 0
      (Some ([] ++ mkAgent "main" true (Some ([] ++ [])) :: [])).
Proof.
  apply (proj1 (only_jsonl_files_read noNumericString 0 [] [])). reflexivity.
Defined.

End SavingsTracker.

(* ===================================================================== *)
(** * [computeCosts] of the savings tracker                               *)
(* ===================================================================== *)

Module CostMath.

Local Open Scope Q_scope.

(** The arithmetic of a Number, as far as [computeCosts] uses it. *)
Record Arithmetic (N : Type) := mkArithmetic {
  million : N;
  plus : N -> N -> N;
  minus : N -> N -> N;
  times : N -> N -> N;
  divide : N -> N -> N
}.
Arguments million {N}.
Arguments plus {N}.
Arguments minus {N}.
Arguments times {N}.
Arguments divide {N}.

(** Exact arithmetic on rationals, and the binary64 arithmetic of a
    JavaScript engine. *)
Definition exact : Arithmetic Q := mkArithmetic Q 1000000 Qplus Qminus Qmult Qdiv.
Definition binary64 : Arithmetic float :=
  mkArithmetic float 1000000%float PrimFloat.add PrimFloat.sub PrimFloat.mul PrimFloat.div.

Section Costs.
Context {N : Type} (A : Arithmetic N).

Record TokenPricing := mkPricing {
  inputCostPerMillion : N;
  outputCostPerMillion : N
}.

(** [sansa.json]: the two pricing tables. *)
Record SansaConfig := mkConfig {
  baseline : TokenPricing;
  sansa : TokenPricing
}.

Record Tokens := mkTokens { inputTokens : N; outputTokens : N }.

Record CostReport := mkReport {
  baselineTotal : N;
  sansaTotal : N;
  saved : N;
  reportInputTokens : N;
  reportOutputTokens : N
}.

Definition computeCosts (tokens : Tokens) (config : SansaConfig) : CostReport :=
  let baseline := baseline config in
  let sansa := sansa config in
  let baseInput :=
    times A (divide A (inputTokens tokens) (million A)) (inputCostPerMillion baseline) in
  let baseOutput :=
    times A (divide A (outputTokens tokens) (million A)) (outputCostPerMillion baseline) in
  let sansaInput :=
    times A (divide A (inputTokens tokens) (million A)) (inputCostPerMillion sansa) in
  let sansaOutput :=
    times A (divide A (outputTokens tokens) (million A)) (outputCostPerMillion sansa) in
  {| baselineTotal := plus A baseInput baseOutput;
     sansaTotal := plus A sansaInput sansaOutput;
     saved := minus A (plus A baseInput baseOutput) (plus A sansaInput sansaOutput);
     reportInputTokens := inputTokens tokens;
     reportOutputTokens := outputTokens tokens |}.

(** The cost of a token mix under one pricing table. *)
Definition costUnder (tokens : Tokens) (pricing : TokenPricing) : N :=
  plus A
    (times A (divide A (inputTokens tokens) (million A)) (inputCostPerMillion pricing))
    (times A (divide A (outputTokens tokens) (million A)) (outputCostPerMillion pricing)).

End Costs.

Arguments mkPricing {N}.
Arguments mkConfig {N}.
Arguments mkTokens {N}.
Arguments inputCostPerMillion {N}.
Arguments outputCostPerMillion {N}.
Arguments baseline {N}.
Arguments sansa {N}.
Arguments inputTokens {N}.
Arguments outputTokens {N}.
Arguments baselineTotal {N}.
Arguments sansaTotal {N}.
Arguments saved {N}.
Arguments reportInputTokens {N}.
Arguments reportOutputTokens {N}.

(** The defaults of [loadSansaConfig]. *)
Definition defaultConfig : SansaConfig (N := Q) :=
  mkConfig (mkPricing 10 5) (mkPricing 1.5 6).
Definition defaultConfig64 : SansaConfig (N := float) :=
  mkConfig (mkPricing 10%float 5%float) (mkPricing 1.5%float 6%float).

(** C8. Under either pricing table the cost is
    [(inputTokens / 1,000,000) * inputCostPerMillion
     + (outputTokens / 1,000,000) * outputCostPerMillion],
    and [saved] is the baseline cost minus the Sansa cost, in whatever
    arithmetic the operations are read.  Nothing clamps [saved]: in exact
    arithmetic it is negative exactly when the Sansa cost exceeds the
    baseline cost.  One million input and one million output tokens under
    the default tables cost 15 and 7.5 and save 7.5, in exact arithmetic
    and in binary64. *)
Theorem computeCosts_formula :
  (forall N (A : Arithmetic N) tokens config,
      let r := computeCosts A tokens config in
      baselineTotal r = costUnder A tokens (baseline config) /\
      sansaTotal r = costUnder A tokens (sansa config) /\
      saved r = minus A (baselineTotal r) (sansaTotal r) /\
      reportInputTokens r = inputTokens tokens /\
      reportOutputTokens r = outputTokens tokens)
  /\ (forall tokens config,
      let r := computeCosts exact tokens config in
      (baselineTotal r < sansaTotal r <-> saved r < 0) /\
      (sansaTotal r <= baselineTotal r <-> 0 <= saved r))
  /\ (let r := computeCosts exact (mkTokens 1000000 1000000) defaultConfig in
      baselineTotal r == 15 /\ sansaTotal r == 7.5 /\ saved r == 7.5)
  /\ (let r := computeCosts binary64 (mkTokens 1000000%float 1000000%float)
                 defaultConfig64 in
      baselineTotal r = 15%float /\ sansaTotal r = 7.5%float /\ saved r = 7.5%float).
Proof.
  split; [|split; [|split]].
  - intros N A tokens config. by repeat split.
  - intros tokens config. cbn.
    set (b := Qplus _ _). set (s := Qplus _ _).
    unfold Qminus. split; split; intros H.
    + apply (Qplus_lt_l _ _ s). ring_simplify. done.
    + apply (Qplus_lt_l _ _ s) in H. ring_simplify in H. done.
    + apply (Qplus_le_l _ _ s). ring_simplify. done.
    + apply (Qplus_le_l _ _ s) in H. ring_simplify in H. done.
  - cbv zeta. repeat split; reflexivity.
  - cbv zeta. repeat split; vm_compute; reflexivity.
Qed.

(** Savings are negative where the Sansa table is the dearer one for the
    mix: output-only usage under the default tables. *)
Lemma computeCosts_formula_witness :
  saved (computeCosts exact (mkTokens 0 1000000) defaultConfig) < 0.
Proof.
  apply (proj1 (proj1 (proj2 computeCosts_formula) (mkTokens 0 1000000) defaultConfig)).
  reflexivity.
Defined.

End CostMath.

(* ===================================================================== *)
(** * More on [deepMerge]: what a merge keeps, adds and replaces          *)
(* ===================================================================== *)

Module MergeAlgebra.
Import ConfigMerger.

Section Algebra.
Context {Num : Type}.
Implicit Types (target source out patch : props Num) (val v : json Num)
  (key k : string) (path : list string).

(** The value found by following [path] through nested objects, as a
    chain [doc?.[k1]?.[k2]...] reads it from a document of objects. *)
Fixpoint getPath (path : list string) (v : json Num) : jsval Num :=
  match path with
  | [] => Some v
  | k :: rest =>
      match v with
      | JObj ps => getOwn ps k ≫= getPath rest
      | _ => None
      end
  end.

(** The keys of every object of a patch are pairwise distinct, as deep as
    objects nest in objects (arrays are never merged into). *)
Inductive distinctKeys : json Num -> Prop :=
| distinct_object ps :
    NoDup (keys ps) ->
    Forall (fun kv => distinctKeys kv.2) ps ->
    distinctKeys (JObj ps)
| distinct_other j :
    isPlainObject (Some j) = false ->
    distinctKeys j.

(** [path] leaves the patch: following it through the objects of the
    patch, one comes to a key the patch does not hold. *)
Fixpoint untouched (path : list string) (patch : props Num) : bool :=
  match path with
  | [] => false
  | k :: rest =>
      match getOwn patch k with
      | None => true
      | Some (JObj inner) => untouched rest inner
      | Some _ => false
      end
  end.

(** ** The value at a key of the patch *)

Lemma deepMerge_lookup target source key val :
  NoDup (keys source) ->
  getOwn source key = Some val ->
  getOwn (deepMerge target source) key = Some (mergedValue (getOwn target key) val).
Proof.
  revert target. induction source as [|[k v] source IH]; intros target Hnd Hget;
    [done|].
  simpl in Hget, Hnd. apply NoDup_cons in Hnd as [Hk Hnd].
  rewrite deepMerge_cons.
  destruct (String.eqb_spec k key) as [->|Hne].
  - injection Hget as ->. rewrite deepMerge_other by done.
    by rewrite mergeEntry_setOwn, getOwn_setOwn_eq.
  - rewrite IH by done. by rewrite mergeEntry_setOwn, getOwn_setOwn_ne by done.
Qed.

(** What the merge holds at a key depends on the target through the
    value the target holds at that key only. *)
Lemma deepMerge_lookup_local source : forall target target' key,
  getOwn target key = getOwn target' key ->
  getOwn (deepMerge target source) key = getOwn (deepMerge target' source) key.
Proof.
  induction source as [|[k v] source IH]; intros target target' key Heq; [done|].
  rewrite !deepMerge_cons. apply IH. rewrite !mergeEntry_setOwn.
  destruct (String.eqb_spec k key) as [->|Hne].
  - by rewrite !getOwn_setOwn_eq, Heq.
  - by rewrite !getOwn_setOwn_ne.
Qed.

(** A source all of whose entries are already absorbed leaves [out] as it
    is. *)
Lemma deepMerge_absorbed out source :
  (forall k x, (k, x) ∈ source ->
      exists m, getOwn out k = Some m /\ mergedValue (Some m) x = m) ->
  deepMerge out source = out.
Proof.
  induction source as [|[k x] source IH]; intros H; [done|].
  rewrite deepMerge_cons, mergeEntry_setOwn.
  destruct (H k x) as (m & Hm & Hmm); [left|].
  rewrite Hm, Hmm, setOwn_same by done.
  apply IH. intros k' x' Hin. apply H. by right.
Qed.

(** ** Merging the same patch again *)

Lemma distinctKeys_object ps :
  distinctKeys (JObj ps) ->
  NoDup (keys ps) /\ Forall (fun kv => distinctKeys kv.2) ps.
Proof. inversion 1; [done|]. simpl in *. discriminate. Qed.

Lemma deepMerge_again_both (v : json Num) :
  distinctKeys v ->
  forall source, v = JObj source ->
    (forall target, deepMerge (deepMerge target source) source = deepMerge target source)
    /\ deepMerge source source = source.
Proof.
  induction v as [| | | | |ps IH] using json_nested_ind;
    intros Hd source [= <-].
  apply distinctKeys_object in Hd as [Hnd Hall].
  assert (forall k x, (k, x) ∈ ps -> forall e,
            mergedValue (Some (mergedValue e x)) x = mergedValue e x) as Hm.
  { intros k x Hin e.
    rewrite Forall_forall in IH, Hall.
    specialize (IH _ Hin). specialize (Hall _ Hin). simpl in IH, Hall.
    destruct x as [| | | | |inner]; try done.
    destruct (IH Hall inner eq_refl) as [Htwice Hself].
    destruct e as [[| | | | |eo]|]; simpl; by rewrite ?Htwice, ?Hself. }
  split.
  - intros target. apply deepMerge_absorbed. intros k x Hin.
    exists (mergedValue (getOwn target k) x). split; [|by eapply Hm].
    apply deepMerge_lookup; [done|]. by apply getOwn_elem_of.
  - apply deepMerge_absorbed. intros k x Hin.
    exists x. split; [by apply getOwn_elem_of|].
    rewrite Forall_forall in IH, Hall.
    specialize (IH _ Hin). specialize (Hall _ Hin). simpl in IH, Hall.
    destruct x as [| | | | |inner]; try done.
    destruct (IH Hall inner eq_refl) as [_ Hself]. simpl. by rewrite Hself.
Qed.

(** X3.  Merging a patch a second time changes nothing: with the keys of
    the patch distinct in each of its objects, the result of a merge
    absorbs the patch, and so does the patch itself. *)
Theorem deepMerge_idempotent target source :
  distinctKeys (JObj source) ->
  deepMerge (deepMerge target source) source = deepMerge target source
  /\ deepMerge source source = source.
Proof.
  intros Hd. destruct (deepMerge_again_both (JObj source) Hd source eq_refl).
  by split.
Qed.

(** ** Two patches *)

(** X4.  Two patches with no top-level key in common can be merged in
    either order: the two results hold the same value at every key. *)
Theorem deepMerge_disjoint_commute target source1 source2 :
  (forall k, k ∈ keys source1 -> k ∉ keys source2) ->
  forall key,
    getOwn (deepMerge (deepMerge target source1) source2) key
    = getOwn (deepMerge (deepMerge target source2) source1) key.
Proof.
  intros Hdisj key.
  destruct (decide (key ∈ keys source1)) as [H1|H1].
  - rewrite deepMerge_other by auto.
    apply deepMerge_lookup_local. symmetry. apply deepMerge_other. auto.
  - rewrite (deepMerge_other (deepMerge target source2) source1) by done.
    apply deepMerge_lookup_local. by apply deepMerge_other.
Qed.

(** ** Paths *)

Lemma getPath_scalar path v :
  isPlainObject (Some v) = false -> path <> [] -> getPath path v = None.
Proof. destruct path; [done|]. by destruct v. Qed.

Lemma untouched_getPath path : forall patch,
  untouched path patch = true -> getPath path (JObj patch) = None.
Proof.
  induction path as [|k rest IH]; intros patch; [done|]. simpl.
  destruct (getOwn patch k) as [[| | | | |inner]|]; try done.
  simpl. apply IH.
Qed.

Lemma untouched_nonempty path patch : untouched path patch = true -> path <> [].
Proof. by destruct path. Qed.

Lemma getPath_patch_leaf path : forall target patch v,
  distinctKeys (JObj patch) ->
  getPath path (JObj patch) = Some v ->
  isPlainObject (Some v) = false ->
  getPath path (JObj (deepMerge target patch)) = Some v.
Proof.
  induction path as [|k rest IH]; intros target patch v Hd Hp Hv.
  - injection Hp as <-. discriminate.
  - apply distinctKeys_object in Hd as [Hnd Hall]. simpl in Hp |- *.
    destruct (getOwn patch k) as [v1|] eqn:Hk; [|done]. simpl in Hp.
    rewrite (deepMerge_lookup _ _ _ _ Hnd Hk). simpl.
    destruct v1 as [| | | | |inner]; try done.
    destruct (getOwn target k) as [[| | | | |e]|]; try done.
    simpl. apply IH; [|done|done].
    rewrite Forall_forall in Hall.
    assert ((k, JObj inner) ∈ patch) as Hin.
    { clear -Hk. induction patch as [|[k' x] patch IHp]; [done|]. simpl in Hk.
      destruct (String.eqb_spec k' k) as [->|]; [injection Hk as ->; left|].
      right. by apply IHp. }
    apply (Hall _ Hin).
Qed.

Lemma getPath_off_patch path : forall target patch,
  distinctKeys (JObj patch) ->
  untouched path patch = true ->
  getPath path (JObj (deepMerge target patch)) = getPath path (JObj target).
Proof.
  induction path as [|k rest IH]; intros target patch Hd Hu; [done|].
  apply distinctKeys_object in Hd as [Hnd Hall]. simpl in Hu |- *.
  destruct (getOwn patch k) as [v1|] eqn:Hk.
  - destruct v1 as [| | | | |inner]; try done.
    rewrite (deepMerge_lookup _ _ _ _ Hnd Hk). simpl.
    assert (distinctKeys (JObj inner)) as Hdi.
    { rewrite Forall_forall in Hall.
      assert ((k, JObj inner) ∈ patch) as Hin.
      { clear -Hk. induction patch as [|[k' x] patch IHp]; [done|]. simpl in Hk.
        destruct (String.eqb_spec k' k) as [->|]; [injection Hk as ->; left|].
        right. by apply IHp. }
      apply (Hall _ Hin). }
    pose proof (untouched_nonempty _ _ Hu) as Hne.
    destruct (getOwn target k) as [x|] eqn:Ht; simpl.
    + destruct x as [| | | | |e];
        try (rewrite untouched_getPath by done; symmetry;
             by apply getPath_scalar).
      by apply IH.
    + by apply untouched_getPath.
  - apply getOwn_not_key in Hk. by rewrite deepMerge_other.
Qed.

End Algebra.

(** A patch and a target with nested objects, arrays and scalars. *)
Definition samplePatch : props Z :=
  [("models", JObj [("mode", JStr "merge"); ("list", JArr [JNum 1])]);
   ("theme", JStr "dark")].

Definition sampleTarget : props Z :=
  [("models", JObj [("mode", JStr "replace"); ("cache", JBool true)]);
   ("channels", JArr [JStr "a"])].

Ltac distinct_keys :=
  repeat first
    [ apply distinct_other; reflexivity
    | apply distinct_object; [ by apply (bool_decide_unpack _) | ]
    | apply Forall_nil_2
    | apply Forall_cons_2; simpl ].


(** Witnesses on the sample documents. *)

Lemma deepMerge_idempotent_witness :
  deepMerge (deepMerge sampleTarget samplePatch) samplePatch
  = deepMerge sampleTarget samplePatch.
Proof. apply (deepMerge_idempotent sampleTarget samplePatch). distinct_keys. Defined.

Lemma deepMerge_disjoint_commute_witness :
  getOwn (deepMerge (deepMerge sampleTarget samplePatch) [("channels", JNull)]) "channels"
  = getOwn (deepMerge (deepMerge sampleTarget [("channels", JNull)]) samplePatch) "channels".
Proof.
  apply (deepMerge_disjoint_commute sampleTarget samplePatch [("channels", JNull)]).
  apply (proj1 (Forall_forall _ _)). by apply (bool_decide_unpack _).
Defined.

End MergeAlgebra.

(* ===================================================================== *)
(** * [deepMerge] on objects: prototypes and property order              *)
(* ===================================================================== *)

Module MergeObjects.

(** ** Property order *)

(** The value of a decimal digit. *)
Definition digit (c : ascii) : option N :=
  let n := N_of_ascii c in
  if (48 <=? n)%N && (n <=? 57)%N then Some (n - 48)%N else None.

(** The value of a decimal numeral, read after the digits of [acc]. *)
Fixpoint numeral (s : string) (acc : N) : option N :=
  match s with
  | EmptyString => Some acc
  | String c rest =>
      match digit c with
      | Some d => numeral rest (10 * acc + d)%N
      | None => None
      end
  end.

(** An array index of ECMAScript: a key that is the canonical numeral (no
    sign, no leading zero) of an integer below 2^32 - 1. *)
Definition arrayIndex (key : string) : option N :=
  match key with
  | EmptyString => None
  | String c rest =>
      if Ascii.eqb c "0" && negb (String.eqb rest "") then None
      else match numeral key 0 with
           | Some n => if (n <? 4294967295)%N then Some n else None
           | None => None
           end
  end.

(** Whether a key is an array index, and the integer it denotes. *)
Definition isArrayIndex (key : string) : bool :=
  match arrayIndex key with
  | Some _ => true
  | None => false
  end.

Definition indexOf (key : string) : N := default 0%N (arrayIndex key).

Section PropertyOrder.
Context {V : Type}.
Implicit Types (es : list (string * V)) (x : string * V).

(** Entries sorted by the index of their key: an entry goes before the
    first one whose index is not smaller. *)
Fixpoint insertEntry (x : string * V) (es : list (string * V)) : list (string * V) :=
  match es with
  | [] => [x]
  | y :: rest =>
      if (indexOf x.1 <=? indexOf y.1)%N then x :: es else y :: insertEntry x rest
  end.

Definition ascending (es : list (string * V)) : list (string * V) :=
  foldr insertEntry [] es.

(** The order in which the own properties of an object are listed
    ([Object.entries], the spread of an object), for the properties [es]
    in the order of their creation: the array indices in ascending order,
    then the other keys in the order of creation. *)
Definition ownEntries (es : list (string * V)) : list (string * V) :=
  ascending (filter (fun kv => isArrayIndex kv.1 = true) es)
  ++ filter (fun kv => isArrayIndex kv.1 = false) es.

End PropertyOrder.

(** ** Objects *)

Section Objects.
Context {Num : Type}.

(** The values [deepMerge] meets: a value of a document, as [JSON.parse]
    or an object literal of documents built it (an object of a document
    has [Object.prototype] as its prototype and its entries as own data
    properties); an object that [deepMerge] built, with its prototype
    and its own properties in the order of their creation; and
    [Object.prototype]. *)
Inductive jsv :=
| VDoc (d : json Num)
| VObj (proto : jsv) (own : list (string * jsv))
| VObjectPrototype.

(** [v !== null && typeof v === "object" && !Array.isArray(v)]. *)
Definition isPlain (v : jsv) : bool :=
  match v with
  | VDoc (JObj _) | VObj _ _ | VObjectPrototype => true
  | VDoc _ => false
  end.

(** An entry of an object of a document, as a property. *)
Definition doc (kv : string * json Num) : string * jsv := (kv.1, VDoc kv.2).

(** [Object.entries(v)] for an object [v] that is no array, which are the
    properties that [{ ...v }] copies: the own enumerable properties with
    string keys.  [Object.prototype] has none.  The recursive calls of
    [deepMerge] spread and list no other value; a target that is an array
    or a string, which [patchOpenClawConfig] may read from the
    configuration file, is the matter of [ConfigPatch.spread], and the
    statements below take a target that is a plain object. *)
Definition ownProps (v : jsv) : list (string * jsv) :=
  match v with
  | VDoc (JObj ps) => ownEntries (map doc ps)
  | VObj _ own => ownEntries own
  | _ => []
  end.

(** [Object.keys(v)]. *)
Definition objectKeys (v : jsv) : list string := keys (ownProps v).

(** What [[Get]] and [[Set]] find for a key along a prototype chain. *)
Inductive Found :=
| Data (v : jsv)
| ProtoAccessor
| NotFound.

(** The look-up of [key] from the object [p] on, [p] a prototype.
    - A data property of a document or of a merged object is [Data].
    - An array answers for its elements; behind it come
      [Array.prototype] and [Object.prototype].
    - [Object.prototype] holds the accessor [__proto__].
    - [NotFound] stands for no property and for a built-in one (a method,
      the [length] of an array): its value is no plain object, and it is
      writable, so that an assignment creates an own property in both
      cases.
    - [null] ends the chain. *)
Fixpoint inChain (p : jsv) (key : string) : Found :=
  let builtin := if String.eqb key "__proto__" then ProtoAccessor else NotFound in
  match p with
  | VObjectPrototype => builtin
  | VObj proto own =>
      match getOwn own key with
      | Some v => Data v
      | None => inChain proto key
      end
  | VDoc (JObj ps) =>
      match getOwn ps key with
      | Some v => Data (VDoc v)
      | None => builtin
      end
  | VDoc (JArr xs) =>
      match arrayIndex key with
      | Some i =>
          match xs !! N.to_nat i with
          | Some x => Data (VDoc x)
          | None => NotFound
          end
      | None => builtin
      end
  | VDoc _ => NotFound
  end.

(** [out[key]] for the object [out] with prototype [proto] and own
    properties [own]; [None] is [undefined] or a built-in value.  The
    getter of [__proto__] answers with the prototype of [out]. *)
Definition get (proto : jsv) (own : list (string * jsv)) (key : string) : option jsv :=
  match getOwn own key with
  | Some v => Some v
  | None =>
      match inChain proto key with
      | Data v => Some v
      | ProtoAccessor => Some proto
      | NotFound => None
      end
  end.

(** A value the setter of [__proto__] takes as a prototype: an object or
    [null]. *)
Definition objectOrNull (v : jsv) : bool :=
  match v with
  | VDoc (JBool _) | VDoc (JNum _) | VDoc (JStr _) => false
  | _ => true
  end.

(** [out[key] = v]: an own property is updated; the setter of [__proto__],
    when the chain leads to it, changes the prototype of [out] and stores
    nothing; in every other case [out] receives a new own property. *)
Definition set (proto : jsv) (own : list (string * jsv)) (key : string) (v : jsv)
  : jsv * list (string * jsv) :=
  match getOwn own key with
  | Some _ => (proto, setOwn own key v)
  | None =>
      match inChain proto key with
      | ProtoAccessor => (if objectOrNull v then v else proto, own)
      | _ => (proto, setOwn own key v)
      end
  end.

(** One turn of the loop, on [out] as a prototype and own properties.
    [rec] is [deepMerge(_, val)]. *)
Definition turn (out : jsv * list (string * jsv))
    (entry : string * (json Num * (jsv -> jsv))) : jsv * list (string * jsv) :=
  let key := entry.1 in
  let val := entry.2.1 in
  let rec := entry.2.2 in
  match val, get out.1 out.2 key with
  | JObj _, Some existing =>
      if isPlain existing then set out.1 out.2 key (rec existing)
      else set out.1 out.2 key (VDoc val)
  | _, _ => set out.1 out.2 key (VDoc val)
  end.

(** [deepMerge(target, source)], the source first: the recursive call is
    made on a value held by the source.
    - [out = { ...target }] has the prototype [Object.prototype] and the
      own properties of [target];
    - the loop runs over [Object.entries(source)], array indices first;
    - [existing = out[key]] is read through the prototype chain;
    - [out[key] = ...] is an assignment: at the key [__proto__] it reaches
      the setter unless [out] has an own property of that name.
    The source is an object, as in every call of the code; for another
    source the loop is left out. *)
Fixpoint deepMergeInto (source : json Num) : jsv -> jsv :=
  match source with
  | JObj entries =>
      let calls :=
        (fix each (es : props Num) : list (string * (json Num * (jsv -> jsv))) :=
           match es with
           | [] => []
           | (key, val) :: rest => (key, (val, deepMergeInto val)) :: each rest
           end) entries in
      fun target =>
        let out := fold_left turn (ownEntries calls) (VObjectPrototype, ownProps target) in
        VObj out.1 out.2
  | _ => fun target => VObj VObjectPrototype (ownProps target)
  end.

Definition deepMerge (target : jsv) (source : json Num) : jsv :=
  deepMergeInto source target.

(** The value a turn of the loop stores at a key that is no [__proto__],
    from the own property found there and the value of the patch. *)
Definition mergedValue (existing : option jsv) (val : json Num) : jsv :=
  match val, existing with
  | JObj _, Some e => if isPlain e then deepMerge e val else VDoc val
  | _, _ => VDoc val
  end.

(** [v[k1][k2]...], through own properties. *)
Fixpoint getPath (path : list string) (v : jsv) : option jsv :=
  match path with
  | [] => Some v
  | key :: rest =>
      match getOwn (ownProps v) key with
      | Some x => getPath rest x
      | None => None
      end
  end.

(** No object of the patch that the merge may enter has a key
    [__proto__]. *)
Inductive protoFree : json Num -> Prop :=
| protoFree_object ps :
    "__proto__" ∉ keys ps ->
    Forall (fun kv => protoFree kv.2) ps ->
    protoFree (JObj ps)
| protoFree_other v : isPlainObject (Some v) = false -> protoFree v.

End Objects.

Arguments jsv Num : clear implicits.


(** ** Lemmas on the order of properties *)

Lemma filter_agree {A} (P Q : A -> Prop)
    `{!forall x, Decision (P x)} `{!forall x, Decision (Q x)} (l : list A) :
  (forall x, x ∈ l -> P x <-> Q x) -> filter P l = filter Q l.
Proof.
  induction l as [|x l IH]; intros Hagree; [done|].
  rewrite !filter_cons, IH by (intros; apply Hagree; by right).
  destruct (decide (P x)) as [HP|HP], (decide (Q x)) as [HQ|HQ]; try done; exfalso.
  - apply HQ, Hagree; [left|done].
  - apply HP, Hagree; [left|done].
Qed.

Section PropertyOrderLemmas.
Context {V : Type}.
Implicit Types (es : list (string * V)) (x : string * V) (k : string).

Lemma insertEntry_Permutation x es : insertEntry x es ≡ₚ x :: es.
Proof.
  induction es as [|y es IH]; simpl; [done|].
  destruct (indexOf x.1 <=? indexOf y.1)%N; [done|].
  by rewrite IH, Permutation_swap.
Qed.

Lemma ascending_Permutation es : ascending es ≡ₚ es.
Proof.
  induction es as [|x es IH]; simpl; [done|].
  by rewrite insertEntry_Permutation, IH.
Qed.

Lemma filter_index_split es :
  filter (fun kv => isArrayIndex kv.1 = true) es
  ++ filter (fun kv => isArrayIndex kv.1 = false) es ≡ₚ es.
Proof.
  induction es as [|x es IH]; [done|].
  rewrite !filter_cons. destruct (isArrayIndex x.1) eqn:E.
  - rewrite decide_True, decide_False by done. simpl. by rewrite IH.
  - rewrite decide_False, decide_True by done.
    by rewrite <- Permutation_middle, IH.
Qed.

Lemma ownEntries_Permutation es : ownEntries es ≡ₚ es.
Proof. unfold ownEntries. by rewrite ascending_Permutation, filter_index_split. Qed.

Lemma keys_ownEntries_Permutation es : keys (ownEntries es) ≡ₚ keys es.
Proof. unfold keys. by rewrite ownEntries_Permutation. Qed.

Lemma getOwn_Some_elem_of es k v : getOwn es k = Some v -> (k, v) ∈ es.
Proof.
  induction es as [|[k' x] es IH]; simpl; [done|].
  destruct (String.eqb_spec k' k) as [->|]; [intros [= ->]; left|].
  intros. right. by apply IH.
Qed.

Lemma getOwn_Permutation es es' k :
  NoDup (keys es) -> es ≡ₚ es' -> getOwn es k = getOwn es' k.
Proof.
  intros Hnd Hp.
  assert (NoDup (keys es')) as Hnd' by (unfold keys in *; by rewrite <- Hp).
  destruct (getOwn es' k) as [v|] eqn:E.
  - apply ConfigMerger.getOwn_elem_of; [done|]. rewrite Hp. by eapply getOwn_Some_elem_of.
  - apply ConfigMerger.getOwn_not_key. apply ConfigMerger.getOwn_not_key in E. unfold keys in *. by rewrite Hp.
Qed.

Lemma getOwn_ownEntries es k :
  NoDup (keys es) -> getOwn (ownEntries es) k = getOwn es k.
Proof. intros. symmetry. apply getOwn_Permutation; [done|]. by rewrite ownEntries_Permutation. Qed.

Lemma elem_of_ownEntries es x : x ∈ ownEntries es <-> x ∈ es.
Proof. by rewrite ownEntries_Permutation. Qed.

Lemma elem_of_keys_ownEntries es k : k ∈ keys (ownEntries es) <-> k ∈ keys es.
Proof. by rewrite keys_ownEntries_Permutation. Qed.

Lemma NoDup_keys_ownEntries es : NoDup (keys (ownEntries es)) <-> NoDup (keys es).
Proof. by rewrite keys_ownEntries_Permutation. Qed.

(** *** The order is kept by a second listing *)

Lemma insertEntry_head x es :
  HdRel (fun a b => (indexOf a.1 <= indexOf b.1)%N) x es -> insertEntry x es = x :: es.
Proof.
  destruct 1 as [|y es H]; simpl; [done|].
  by apply N.leb_le in H as ->.
Qed.

Lemma insertEntry_Sorted x es :
  Sorted (fun a b => (indexOf a.1 <= indexOf b.1)%N) es ->
  Sorted (fun a b => (indexOf a.1 <= indexOf b.1)%N) (insertEntry x es).
Proof.
  induction 1 as [|y es Hs IH Hhd]; simpl; [by repeat constructor|].
  destruct (N.leb_spec (indexOf x.1) (indexOf y.1)) as [Hle|Hlt].
  - constructor; [by constructor|by constructor].
  - constructor; [done|].
    destruct Hhd as [|z es Hyz]; simpl.
    + constructor. lia.
    + destruct (N.leb_spec (indexOf x.1) (indexOf z.1)); constructor; [lia|done].
Qed.

Lemma ascending_Sorted es :
  Sorted (fun a b => (indexOf a.1 <= indexOf b.1)%N) (ascending es).
Proof.
  induction es as [|x es IH]; simpl; [constructor|]. by apply insertEntry_Sorted.
Qed.

Lemma ascending_of_Sorted es :
  Sorted (fun a b => (indexOf a.1 <= indexOf b.1)%N) es -> ascending es = es.
Proof.
  induction 1 as [|x es Hs IH Hhd]; simpl; [done|].
  rewrite IH. by apply insertEntry_head.
Qed.

Lemma ascending_app es1 es2 :
  ascending (es1 ++ ascending es2) = ascending (es1 ++ es2).
Proof.
  unfold ascending at 1 3. rewrite !foldr_app.
  fold (ascending es2). fold (ascending (ascending es2)).
  by rewrite (ascending_of_Sorted (ascending es2)) by apply ascending_Sorted.
Qed.

Lemma filter_index_ascending (b : bool) es :
  filter (fun kv => isArrayIndex kv.1 = b) (ascending es)
  ≡ₚ filter (fun kv => isArrayIndex kv.1 = b) es.
Proof. by rewrite ascending_Permutation. Qed.

Lemma Forall_filter_all (P : string * V -> Prop) `{!forall x, Decision (P x)} es :
  Forall P es -> filter P es = es.
Proof.
  induction 1 as [|x es Hx Hes IH]; [done|].
  by rewrite filter_cons, decide_True, IH.
Qed.

Lemma Forall_filter_none (P : string * V -> Prop) `{!forall x, Decision (P x)} es :
  Forall (fun x => ~ P x) es -> filter P es = [].
Proof.
  induction 1 as [|x es Hx Hes IH]; [done|].
  by rewrite filter_cons, decide_False, IH.
Qed.

Lemma ascending_indices es :
  Forall (fun kv => isArrayIndex kv.1 = true) es ->
  Forall (fun kv => isArrayIndex kv.1 = true) (ascending es).
Proof. intros H. by rewrite ascending_Permutation. Qed.

Lemma ownEntries_app es1 es2 :
  ownEntries (es1 ++ ownEntries es2) = ownEntries (es1 ++ es2).
Proof.
  unfold ownEntries at 1 3.
  assert (Forall (fun kv => isArrayIndex kv.1 = true)
            (ascending (filter (fun kv => isArrayIndex kv.1 = true) es2))) as Hidx.
  { apply ascending_indices, Forall_forall. by intros x [? _]%list_elem_of_filter. }
  assert (Forall (fun kv => isArrayIndex kv.1 = false)
            (filter (fun kv => isArrayIndex kv.1 = false) es2)) as Hno.
  { apply Forall_forall. by intros x [? _]%list_elem_of_filter. }
  unfold ownEntries. rewrite !filter_app.
  rewrite (Forall_filter_all _ _ Hidx), (Forall_filter_all _ _ Hno).
  rewrite (Forall_filter_none (fun kv => isArrayIndex kv.1 = true)
             (filter (fun kv => isArrayIndex kv.1 = false) es2)).
  2: { eapply Forall_impl; [exact Hno|]. simpl. intros x ->. discriminate. }
  rewrite (Forall_filter_none (fun kv => isArrayIndex kv.1 = false)
             (ascending (filter (fun kv => isArrayIndex kv.1 = true) es2))).
  2: { eapply Forall_impl; [exact Hidx|]. simpl. intros x ->. discriminate. }
  by rewrite !app_nil_r, ascending_app.
Qed.

Lemma ownEntries_idemp es : ownEntries (ownEntries es) = ownEntries es.
Proof. apply (ownEntries_app [] es). Qed.

(** *** The keys, as they are listed *)

Lemma keys_filter es (P : string -> Prop) `{!forall k, Decision (P k)} :
  keys (filter (fun kv => P kv.1) es) = filter P (keys es).
Proof.
  induction es as [|x es IH]; [done|].
  change (keys (x :: es)) with (x.1 :: keys es). rewrite !filter_cons.
  destruct (decide (P x.1)); [|done].
  change (keys (x :: filter (fun kv => P kv.1) es))
    with (x.1 :: keys (filter (fun kv => P kv.1) es)).
  by rewrite IH.
Qed.

Lemma ownEntries_index_keys es :
  Forall (fun k => isArrayIndex k = true)
    (keys (ascending (filter (fun kv => isArrayIndex kv.1 = true) es)))
  /\ Sorted (fun a b => (indexOf a <= indexOf b)%N)
       (keys (ascending (filter (fun kv => isArrayIndex kv.1 = true) es))).
Proof.
  split.
  - apply Forall_fmap. apply ascending_indices.
    apply Forall_forall. by intros x [? _]%list_elem_of_filter.
  - generalize (ascending_Sorted (filter (fun kv => isArrayIndex kv.1 = true) es)).
    generalize (ascending (filter (fun kv => isArrayIndex kv.1 = true) es)).
    induction 1 as [|x l Hs IH Hhd]; simpl; constructor; [done|].
    destruct Hhd; simpl; by constructor.
Qed.

Lemma keys_ownEntries es :
  keys (ownEntries es)
  = keys (ascending (filter (fun kv => isArrayIndex kv.1 = true) es))
    ++ filter (fun k => isArrayIndex k = false) (keys es).
Proof.
  rewrite <- (keys_filter es (fun k => isArrayIndex k = false)).
  unfold ownEntries, keys. by rewrite map_app.
Qed.

Lemma keys_ownEntries_others es :
  filter (fun k => isArrayIndex k = false) (keys (ownEntries es))
  = filter (fun k => isArrayIndex k = false) (keys es).
Proof.
  rewrite keys_ownEntries, filter_app, list_filter_filter.
  destruct (ownEntries_index_keys es) as [Hidx _].
  rewrite (filter_agree (fun k => isArrayIndex k = false) (fun _ => False)
             (keys (ascending _))).
  2: { intros k Hk. rewrite Forall_forall in Hidx. specialize (Hidx k Hk).
       split; [congruence|done]. }
  rewrite (filter_agree (fun k => isArrayIndex k = false /\ isArrayIndex k = false)
             (fun k => isArrayIndex k = false) (keys es)) by (intros; tauto).
  clear Hidx.
  generalize (keys (ascending (filter (fun kv => isArrayIndex kv.1 = true) es))).
  intros l. by induction l.
Qed.

End PropertyOrderLemmas.

Lemma insertEntry_fmap {V W} (f : V -> W) (x : string * V) es :
  insertEntry (x.1, f x.2) (map (fun kv => (kv.1, f kv.2)) es)
  = map (fun kv => (kv.1, f kv.2)) (insertEntry x es).
Proof.
  induction es as [|y es IH]; simpl; [done|].
  destruct (indexOf x.1 <=? indexOf y.1)%N; [done|]. simpl. by rewrite IH.
Qed.

Lemma ownEntries_fmap {V W} (f : V -> W) (es : list (string * V)) :
  ownEntries (map (fun kv => (kv.1, f kv.2)) es)
  = map (fun kv => (kv.1, f kv.2)) (ownEntries es).
Proof.
  unfold ownEntries. rewrite map_app. f_equal.
  - induction es as [|x es IH]; [done|]. simpl map at 1.
    rewrite !filter_cons. simpl. destruct (decide (isArrayIndex x.1 = true)); [|done].
    simpl. by rewrite IH, (insertEntry_fmap f x).
  - induction es as [|x es IH]; [done|]. simpl map at 1.
    rewrite !filter_cons. simpl. destruct (decide (isArrayIndex x.1 = false)); [|done].
    simpl. by rewrite IH.
Qed.


(** ** The loop of [deepMerge] on an object with the prototype of its birth *)

Section MergeLemmas.
Context {Num : Type}.
Implicit Types (target existing : jsv Num) (own : list (string * jsv Num))
  (source patch : props Num) (val : json Num) (key k : string).

(** An entry of the source with the recursive call of its turn. *)
Definition call (kv : string * json Num) : string * (json Num * (jsv Num -> jsv Num)) :=
  (kv.1, (kv.2, deepMergeInto kv.2)).

(** The own properties after the turns of [source], as long as every turn
    stores an own property. *)
Definition mergeOwn own source : list (string * jsv Num) :=
  fold_left (fun o kv => setOwn o kv.1 (mergedValue (getOwn o kv.1) kv.2)) source own.

Lemma deepMerge_object target source :
  deepMerge target (JObj source)
  = let out := fold_left turn (map call (ownEntries source))
                 (VObjectPrototype, ownProps target) in
    VObj out.1 out.2.
Proof.
  unfold deepMerge. simpl.
  assert ((fix each (es : props Num) :=
             match es with
             | [] => []
             | (key, val) :: rest => (key, (val, deepMergeInto val)) :: each rest
             end) source
          = map (fun kv => (kv.1, (fun v => (v, deepMergeInto v)) kv.2)) source) as ->.
  { induction source as [|[k v] source IH]; [done|]. simpl. by rewrite IH. }
  by rewrite (ownEntries_fmap (fun v => (v, deepMergeInto v))).
Qed.

Lemma turn_own own key val :
  key <> "__proto__" \/ key ∈ keys own ->
  turn (VObjectPrototype, own) (call (key, val))
  = (VObjectPrototype, setOwn own key (mergedValue (getOwn own key) val)).
Proof.
  intros Hkey. unfold turn, call, get, set, mergedValue, deepMerge. simpl.
  destruct (getOwn own key) as [e|] eqn:He.
  - destruct val; try done. by destruct (isPlain e).
  - assert (key <> "__proto__") as Hne.
    { destruct Hkey as [|Hin]; [done|]. by apply ConfigMerger.getOwn_not_key in He. }
    apply String.eqb_neq in Hne. rewrite Hne. by destruct val.
Qed.

Lemma loop_own source : forall own,
  "__proto__" ∉ keys source \/ "__proto__" ∈ keys own ->
  fold_left turn (map call source) (VObjectPrototype, own)
  = (VObjectPrototype, mergeOwn own source).
Proof.
  induction source as [|[k v] source IH]; intros own Hproto; [done|].
  simpl. rewrite turn_own.
  - unfold mergeOwn. simpl. apply IH.
    destruct Hproto as [Hn|Hin].
    + left. intros ?. apply Hn. by right.
    + right. rewrite ConfigMerger.keys_setOwn.
      destruct (getOwn own k); [done|]. apply elem_of_app. by left.
  - destruct (decide (k = "__proto__")) as [->|]; [|by left].
    destruct Hproto as [Hn|Hin]; [|by right].
    exfalso. apply Hn. left.
Qed.

Lemma mergeOwn_cons own k v source :
  mergeOwn own ((k, v) :: source)
  = mergeOwn (setOwn own k (mergedValue (getOwn own k) v)) source.
Proof. reflexivity. Qed.

Lemma mergeOwn_other source : forall own key,
  key ∉ keys source -> getOwn (mergeOwn own source) key = getOwn own key.
Proof.
  induction source as [|[k v] source IH]; intros own key Hn; [done|].
  rewrite mergeOwn_cons, IH by (intros ?; apply Hn; by right).
  apply ConfigMerger.getOwn_setOwn_ne. intros ->. apply Hn. left.
Qed.

Lemma mergeOwn_lookup source : forall own key val,
  NoDup (keys source) ->
  (key, val) ∈ source ->
  getOwn (mergeOwn own source) key = Some (mergedValue (getOwn own key) val).
Proof.
  induction source as [|[k v] source IH]; intros own key val Hnd Hin;
    [by apply elem_of_nil in Hin|].
  simpl in Hnd. apply NoDup_cons in Hnd as [Hk Hnd]. rewrite mergeOwn_cons.
  apply elem_of_cons in Hin as [[= -> ->]|Hin].
  - rewrite mergeOwn_other by done. apply ConfigMerger.getOwn_setOwn_eq.
  - assert (k <> key) as Hne.
    { intros ->. apply Hk. apply list_elem_of_fmap. by exists (key, val). }
    rewrite (IH _ _ val) by done. by rewrite ConfigMerger.getOwn_setOwn_ne.
Qed.

Lemma keys_mergeOwn source : forall own,
  NoDup (keys source) ->
  keys (mergeOwn own source)
  = keys own ++ filter (fun k => k ∉ keys own) (keys source).
Proof.
  induction source as [|[k v] source IH]; intros own Hnd.
  - by rewrite app_nil_r.
  - simpl in Hnd. apply NoDup_cons in Hnd as [Hk Hnd].
    rewrite mergeOwn_cons, IH, ConfigMerger.keys_setOwn by done.
    change (keys ((k, v) :: source)) with (k :: keys source). rewrite filter_cons.
    destruct (getOwn own k) as [e|] eqn:He.
    + rewrite decide_False; [done|].
      intros Hn. apply ConfigMerger.getOwn_not_key in Hn. congruence.
    + apply ConfigMerger.getOwn_not_key in He. rewrite decide_True by done.
      rewrite <- app_assoc. simpl. do 2 f_equal.
      apply filter_agree. intros k' Hk'.
      rewrite elem_of_app, list_elem_of_singleton.
      split; [tauto|]. intros Hn [?| ->]; [done|]. by apply Hk.
Qed.

Lemma mergeOwn_new source : forall own,
  NoDup (keys source) ->
  (forall k, k ∈ keys source -> k ∉ keys own) ->
  mergeOwn own source = own ++ map doc source.
Proof.
  induction source as [|[k v] source IH]; intros own Hnd Hnew.
  - by rewrite app_nil_r.
  - simpl in Hnd. apply NoDup_cons in Hnd as [Hk Hnd]. rewrite mergeOwn_cons.
    assert (getOwn own k = None) as ->.
    { apply ConfigMerger.getOwn_not_key, Hnew. left. }
    assert (mergedValue None v = VDoc v) as -> by (by destruct v).
    rewrite ConfigMerger.setOwn_new by (apply ConfigMerger.getOwn_not_key, Hnew; left).
    rewrite IH; [by rewrite <- app_assoc|done|].
    intros k' Hk'. unfold keys. rewrite map_app, elem_of_app. simpl.
    rewrite list_elem_of_singleton. intros [?| ->]; [|done].
    eapply Hnew; [|done]. by right.
Qed.

(** The result of a merge whose every turn stores an own property: a
    patch without the key [__proto__], or a target with an own property of
    that name (as [JSON.parse] creates one). *)
Lemma deepMerge_own target source :
  "__proto__" ∉ keys source \/ "__proto__" ∈ objectKeys target ->
  deepMerge target (JObj source)
  = VObj VObjectPrototype (mergeOwn (ownProps target) (ownEntries source)).
Proof.
  intros Hproto. rewrite deepMerge_object. cbv zeta.
  rewrite loop_own; [done|].
  destruct Hproto; [left|by right]. by rewrite elem_of_keys_ownEntries.
Qed.

(** ** The keys of the result *)

Lemma NoDup_keys_mergeOwn own source :
  NoDup (keys own) -> NoDup (keys source) -> NoDup (keys (mergeOwn own source)).
Proof.
  intros Hown Hsource. rewrite keys_mergeOwn by done.
  apply NoDup_app. split; [done|]. split; [|by apply NoDup_filter].
  intros k Hk [Hn _]%list_elem_of_filter. by apply Hn.
Qed.

(** X1.  The merge loses no key and invents none.  For a patch without
    the key [__proto__] (or a target with an own property of that name),
    [Object.keys] of the result lists the keys of the target and the keys
    of the patch, each once; the keys that are array indices come first,
    in ascending order; the other keys follow, those of the target in
    their order, then those only the patch holds, in the order of the
    patch. *)
Theorem deepMerge_keys target source :
  isPlain target = true ->
  NoDup (keys source) ->
  "__proto__" ∉ keys source \/ "__proto__" ∈ objectKeys target ->
  let result := deepMerge target (JObj source) in
  (forall k, k ∈ objectKeys result <-> k ∈ objectKeys target \/ k ∈ keys source)
  /\ (NoDup (objectKeys target) -> NoDup (objectKeys result))
  /\ (exists indices,
        objectKeys result
        = indices ++ filter (fun k => isArrayIndex k = false) (objectKeys result)
        /\ Forall (fun k => isArrayIndex k = true) indices
        /\ Sorted (fun a b => (indexOf a <= indexOf b)%N) indices)
  /\ filter (fun k => isArrayIndex k = false) (objectKeys result)
     = filter (fun k => isArrayIndex k = false) (objectKeys target)
       ++ filter (fun k => k ∉ objectKeys target)
            (filter (fun k => isArrayIndex k = false) (keys source)).
Proof.
  intros _ Hnd Hproto result. subst result. rewrite deepMerge_own by done.
  set (own := mergeOwn (ownProps target) (ownEntries source)).
  change (objectKeys (VObj VObjectPrototype own)) with (keys (ownEntries own)).
  assert (keys own
          = objectKeys target
            ++ filter (fun k => k ∉ objectKeys target) (keys (ownEntries source)))
    as Hkeys.
  { apply keys_mergeOwn. by apply NoDup_keys_ownEntries. }
  split; [|split; [|split]].
  - intros k. rewrite elem_of_keys_ownEntries, Hkeys, elem_of_app, list_elem_of_filter,
      elem_of_keys_ownEntries.
    destruct (decide (k ∈ objectKeys target)); tauto.
  - intros Hnt. apply NoDup_keys_ownEntries. apply NoDup_keys_mergeOwn; [done|].
    by apply NoDup_keys_ownEntries.
  - exists (keys (ascending (filter (fun kv => isArrayIndex kv.1 = true) own))).
    destruct (ownEntries_index_keys own) as [Hidx Hsorted].
    split; [|done].
    by rewrite keys_ownEntries_others, keys_ownEntries.
  - rewrite keys_ownEntries_others, Hkeys, filter_app. f_equal.
    rewrite <- (keys_ownEntries_others source), !list_filter_filter.
    apply filter_agree. intros; tauto.
Qed.

(** X2.  A patch none of whose keys the target holds is taken whole: the
    result has the properties of the target, then the entries of the
    patch as [Object.entries] lists them, with the values of the patch as
    they are, objects included.  [Object.entries] of the result lists the
    entries of target and patch together, array indices first; merged
    into an object without properties, the patch gives an object with the
    entries of the patch. *)
Theorem deepMerge_new_keys target source :
  isPlain target = true ->
  NoDup (keys source) ->
  "__proto__" ∉ keys source ->
  (forall k, k ∈ keys source -> k ∉ objectKeys target) ->
  deepMerge target (JObj source)
  = VObj VObjectPrototype (ownProps target ++ ownProps (VDoc (JObj source)))
  /\ ownProps (deepMerge target (JObj source))
     = ownEntries (ownProps target ++ map doc source)
  /\ (ownProps target = [] ->
      ownProps (deepMerge target (JObj source)) = ownProps (VDoc (JObj source))).
Proof.
  intros _ Hnd Hproto Hnew.
  assert (deepMerge target (JObj source)
          = VObj VObjectPrototype (ownProps target ++ ownProps (VDoc (JObj source))))
    as Heq.
  { rewrite deepMerge_own by (by left). f_equal.
    assert (mergeOwn (ownProps target) (ownEntries source)
            = ownProps target ++ map doc (ownEntries source)) as ->.
    { apply mergeOwn_new; [by apply NoDup_keys_ownEntries|].
      intros k Hk. apply Hnew. by rewrite elem_of_keys_ownEntries in Hk. }
    cbn [ownProps]. f_equal. symmetry. apply (ownEntries_fmap VDoc). }
  rewrite Heq. split; [done|]. cbn [ownProps]. split.
  - apply ownEntries_app.
  - intros ->. apply ownEntries_idemp.
Qed.

(** ** The value at a key *)

(** C2, as the code has it.  For every target object, every patch whose
    keys are distinct and every key of the patch, when the patch has no
    key [__proto__] (or the target has an own property of that name, as
    [JSON.parse] creates one): the result is an object with the
    prototype [Object.prototype] whose own property at the key is
    - the recursive merge of the two, when the target has an own property
      there that is a plain object (non-null, no array) and the patch
      value is a plain object;
    - the patch value itself in every other case: a scalar, an array or
      [null] replaces what the target holds, and a plain object of the
      patch replaces what is no plain object.
    At a key the patch does not hold, the own property is that of the
    target. *)
Theorem deepMerge_at_patch_key target source key val :
  isPlain target = true ->
  NoDup (keys source) ->
  "__proto__" ∉ keys source \/ "__proto__" ∈ objectKeys target ->
  getOwn source key = Some val ->
  exists own,
    deepMerge target (JObj source) = VObj VObjectPrototype own
    /\ getOwn own key
       = Some (match val, getOwn (ownProps target) key with
               | JObj _, Some existing =>
                   if isPlain existing then deepMerge existing val else VDoc val
               | _, _ => VDoc val
               end)
    /\ forall key', key' ∉ keys source -> getOwn own key' = getOwn (ownProps target) key'.
Proof.
  intros _ Hnd Hproto Hget.
  exists (mergeOwn (ownProps target) (ownEntries source)).
  split; [by apply deepMerge_own|]. split.
  - apply mergeOwn_lookup; [by apply NoDup_keys_ownEntries|].
    by apply elem_of_ownEntries, getOwn_Some_elem_of.
  - intros key' Hn. apply mergeOwn_other. by rewrite elem_of_keys_ownEntries.
Qed.

(** ** Paths *)

Lemma getOwn_doc (ps : props Num) key : getOwn (map doc ps) key = (VDoc <$> getOwn ps key).
Proof.
  induction ps as [|[k x] ps IH]; [done|]. simpl.
  by destruct (String.eqb k key).
Qed.

Lemma keys_doc (ps : props Num) : keys (map doc ps) = keys ps.
Proof. unfold keys. rewrite map_map. by apply map_ext. Qed.

Lemma ownProps_lookup (ps : props Num) key :
  NoDup (keys ps) -> getOwn (ownProps (VDoc (JObj ps))) key = (VDoc <$> getOwn ps key).
Proof.
  intros Hnd. cbn [ownProps]. rewrite getOwn_ownEntries by (by rewrite keys_doc).
  apply getOwn_doc.
Qed.

Lemma NoDup_objectKeys_doc (ps : props Num) :
  NoDup (keys ps) -> NoDup (keys (ownProps (VDoc (JObj ps)))).
Proof. intros. cbn [ownProps]. apply NoDup_keys_ownEntries. by rewrite keys_doc. Qed.

Lemma distinctKeys_at (ps : props Num) key x :
  MergeAlgebra.distinctKeys (JObj ps) -> getOwn ps key = Some x ->
  MergeAlgebra.distinctKeys x.
Proof.
  intros [_ Hall]%MergeAlgebra.distinctKeys_object Hx.
  rewrite Forall_forall in Hall. by apply (Hall _ (getOwn_Some_elem_of _ _ _ Hx)).
Qed.

Lemma protoFree_object_inv (ps : props Num) :
  protoFree (JObj ps) -> ("__proto__" ∉ keys ps) /\ Forall (fun kv => protoFree kv.2) ps.
Proof. inversion 1; [done|]. simpl in *. discriminate. Qed.

Lemma protoFree_at (ps : props Num) key x :
  protoFree (JObj ps) -> getOwn ps key = Some x -> protoFree x.
Proof.
  intros [_ Hall]%protoFree_object_inv Hx.
  rewrite Forall_forall in Hall. by apply (Hall _ (getOwn_Some_elem_of _ _ _ Hx)).
Qed.

(** Through a document, a path reads what it reads in the document. *)
Lemma getPath_doc path : forall d : json Num,
  MergeAlgebra.distinctKeys d ->
  getPath path (VDoc d) = (VDoc <$> MergeAlgebra.getPath path d).
Proof.
  induction path as [|k rest IH]; intros d Hd; [done|].
  destruct d as [| | | | |ps]; try done.
  cbn [getPath MergeAlgebra.getPath].
  rewrite ownProps_lookup by (by apply MergeAlgebra.distinctKeys_object in Hd as [? _]).
  destruct (getOwn ps k) as [x|] eqn:Hx; [|done]. simpl.
  apply IH. by eapply distinctKeys_at.
Qed.

(** The own property of the result of a merge into a document, at a key
    of the patch. *)
Lemma deepMerge_doc_lookup (target patch : props Num) key val :
  NoDup (keys target) -> NoDup (keys patch) -> "__proto__" ∉ keys patch ->
  getOwn patch key = Some val ->
  getOwn (ownProps (deepMerge (VDoc (JObj target)) (JObj patch))) key
  = Some (mergedValue (VDoc <$> getOwn target key) val).
Proof.
  intros Ht Hp Hproto Hget. rewrite deepMerge_own by (by left). cbn [ownProps].
  rewrite getOwn_ownEntries.
  - rewrite <- ownProps_lookup by done.
    apply mergeOwn_lookup; [by apply NoDup_keys_ownEntries|].
    by apply elem_of_ownEntries, getOwn_Some_elem_of.
  - apply NoDup_keys_mergeOwn; [by apply NoDup_objectKeys_doc|].
    by apply NoDup_keys_ownEntries.
Qed.

Lemma deepMerge_doc_other (target patch : props Num) key :
  NoDup (keys target) -> NoDup (keys patch) -> "__proto__" ∉ keys patch ->
  getOwn patch key = None ->
  getOwn (ownProps (deepMerge (VDoc (JObj target)) (JObj patch))) key
  = (VDoc <$> getOwn target key).
Proof.
  intros Ht Hp Hproto Hget. rewrite deepMerge_own by (by left). cbn [ownProps].
  rewrite getOwn_ownEntries.
  - rewrite <- ownProps_lookup by done.
    apply mergeOwn_other. rewrite elem_of_keys_ownEntries.
    by apply ConfigMerger.getOwn_not_key.
  - apply NoDup_keys_mergeOwn; [by apply NoDup_objectKeys_doc|].
    by apply NoDup_keys_ownEntries.
Qed.

(** X5.  The patch wins at its leaves.  For a target document and a
    patch whose objects have distinct keys, none of them [__proto__]: a
    path that leads, in the patch, to a value that is no plain object (a
    scalar, null or an array) leads to that very value in the result,
    whatever the target holds. *)
Theorem deepMerge_patch_leaf path : forall (target patch : props Num) v,
  MergeAlgebra.distinctKeys (JObj target) ->
  MergeAlgebra.distinctKeys (JObj patch) ->
  protoFree (JObj patch) ->
  MergeAlgebra.getPath path (JObj patch) = Some v ->
  isPlainObject (Some v) = false ->
  getPath path (deepMerge (VDoc (JObj target)) (JObj patch)) = Some (VDoc v).
Proof.
  induction path as [|k rest IH]; intros target patch v Ht Hd Hf Hp Hv.
  - injection Hp as <-. discriminate.
  - pose proof Ht as [Hnt _]%MergeAlgebra.distinctKeys_object.
    pose proof Hd as [Hnd _]%MergeAlgebra.distinctKeys_object.
    pose proof Hf as [Hproto _]%protoFree_object_inv.
    cbn [getPath MergeAlgebra.getPath] in Hp |- *.
    destruct (getOwn patch k) as [v1|] eqn:Hk; [|done]. simpl in Hp.
    rewrite (deepMerge_doc_lookup _ _ _ v1) by done.
    pose proof (distinctKeys_at _ _ _ Hd Hk) as Hd1.
    pose proof (protoFree_at _ _ _ Hf Hk) as Hf1.
    assert (getPath rest (VDoc v1) = Some (VDoc v)) as Hwhole.
    { by rewrite getPath_doc, Hp. }
    destruct v1 as [| | | | |inner]; try done.
    destruct (getOwn target k) as [e|] eqn:He; [|done]. simpl.
    destruct e as [| | | | |t']; try done. simpl.
    apply IH; try done. exact (distinctKeys_at _ _ _ Ht He).
Qed.

(** X6.  The target is kept off the patch.  For a target document and a
    patch whose objects have distinct keys, none of them [__proto__]: a
    path that leaves the patch (at some depth its key is one the patch
    does not hold, the patch holding objects down to there) leads in the
    result to what it leads to in the target. *)
Theorem deepMerge_target_path path : forall (target patch : props Num),
  MergeAlgebra.distinctKeys (JObj target) ->
  MergeAlgebra.distinctKeys (JObj patch) ->
  protoFree (JObj patch) ->
  MergeAlgebra.untouched path patch = true ->
  getPath path (deepMerge (VDoc (JObj target)) (JObj patch))
  = getPath path (VDoc (JObj target)).
Proof.
  induction path as [|k rest IH]; intros target patch Ht Hd Hf Hu; [done|].
  pose proof Ht as [Hnt _]%MergeAlgebra.distinctKeys_object.
  pose proof Hd as [Hnd _]%MergeAlgebra.distinctKeys_object.
  pose proof Hf as [Hproto _]%protoFree_object_inv.
  cbn [getPath]. simpl in Hu. rewrite (ownProps_lookup target) by done.
  destruct (getOwn patch k) as [v1|] eqn:Hk.
  - destruct v1 as [| | | | |inner]; try done.
    rewrite (deepMerge_doc_lookup _ _ _ (JObj inner)) by done.
    pose proof (distinctKeys_at _ _ _ Hd Hk) as Hd1.
    pose proof (protoFree_at _ _ _ Hf Hk) as Hf1.
    pose proof (MergeAlgebra.untouched_nonempty _ _ Hu) as Hne.
    assert (getPath rest (VDoc (JObj inner)) = None) as Hwhole.
    { by rewrite getPath_doc, MergeAlgebra.untouched_getPath. }
    destruct (getOwn target k) as [e|] eqn:He; simpl; [|done].
    destruct e as [| | | | |t']; simpl;
      try (rewrite Hwhole; by destruct rest).
    apply IH; try done. exact (distinctKeys_at _ _ _ Ht He).
  - by rewrite deepMerge_doc_other.
Qed.

(** ** The merge of documents and the merge of objects *)

(** On documents whose objects have distinct keys, for a patch none of
    whose objects has a key [__proto__], the merge of objects and the
    merge of documents ([ConfigMerger.deepMerge]) hold the same values
    that are no plain objects at the same paths. *)
Lemma deepMerge_documents path : forall (target patch : props Num) (v : json Num),
  MergeAlgebra.distinctKeys (JObj target) ->
  MergeAlgebra.distinctKeys (JObj patch) ->
  protoFree (JObj patch) ->
  isPlainObject (Some v) = false ->
  MergeAlgebra.getPath path (JObj (ConfigMerger.deepMerge target patch)) = Some v
  <-> getPath path (deepMerge (VDoc (JObj target)) (JObj patch)) = Some (VDoc v).
Proof.
  induction path as [|k rest IH]; intros target patch v Ht Hd Hf Hv.
  - simpl. split; [intros [= <-]; discriminate|intros [= ?]].
  - pose proof Ht as [Hnt _]%MergeAlgebra.distinctKeys_object.
    pose proof Hd as [Hnd _]%MergeAlgebra.distinctKeys_object.
    pose proof Hf as [Hproto _]%protoFree_object_inv.
    cbn [getPath MergeAlgebra.getPath].
    destruct (getOwn patch k) as [v1|] eqn:Hk.
    + rewrite (MergeAlgebra.deepMerge_lookup _ _ _ _ Hnd Hk).
      rewrite (deepMerge_doc_lookup _ _ _ v1) by done.
      pose proof (distinctKeys_at _ _ _ Hd Hk) as Hd1.
      pose proof (protoFree_at _ _ _ Hf Hk) as Hf1.
      assert (MergeAlgebra.getPath rest v1 = Some v
              <-> getPath rest (VDoc v1) = Some (VDoc v)) as Hwhole.
      { rewrite getPath_doc by done.
        destruct (MergeAlgebra.getPath rest v1); simpl; [|done].
        split; [by intros [= ->]|by intros [= ->]]. }
      destruct v1 as [| | | | |inner]; try done.
      destruct (getOwn target k) as [e|] eqn:He; [|done]. simpl.
      destruct e as [| | | | |t']; try done. simpl.
      apply IH; try done. exact (distinctKeys_at _ _ _ Ht He).
    + rewrite deepMerge_doc_other by done.
      apply ConfigMerger.getOwn_not_key in Hk.
      rewrite ConfigMerger.deepMerge_other by done.
      destruct (getOwn target k) as [x|] eqn:Hx; simpl; [|done].
      rewrite getPath_doc by exact (distinctKeys_at _ _ _ Ht Hx).
      destruct (MergeAlgebra.getPath rest x); simpl; [|done].
      split; [by intros [= ->]|by intros [= ->]].
Qed.
End MergeLemmas.

(** ** Merges of concrete objects *)

Example arrayIndex_canonical :
  map arrayIndex ["0"; "7"; "10"; "4294967294"; "4294967295"; "01"; "-1"; "1.5"; ""; "b"]
  = [Some 0; Some 7; Some 10; Some 4294967294; None; None; None; None; None; None]%N.
Proof. reflexivity. Qed.

Example ownEntries_order :
  keys (ownEntries [("b", 1); ("10", 2); ("a", 3); ("9", 4); ("01", 5)])
  = ["9"; "10"; "b"; "a"; "01"].
Proof. reflexivity. Qed.

(** An array index of the patch is listed before the keys of the
    target. *)
Example merge_index_key_first :
  objectKeys (deepMerge (VDoc (JObj [("b", JNum 1%Z)])) (JObj [("1", JNum 2%Z)]))
  = ["1"; "b"].
Proof. reflexivity. Qed.

(** An inherited method is no plain object: the patch value is stored as
    an own property. *)
Example merge_inherited_method :
  deepMerge (VDoc (JObj [])) (JObj [("toString", JObj [("a", JNum 1%Z)])])
  = VObj VObjectPrototype [("toString", VDoc (JObj [("a", JNum 1%Z)]))].
Proof. reflexivity. Qed.

(** An own property [__proto__] of the target, as [JSON.parse] creates
    one, is merged like any other. *)
Example merge_own_proto_property :
  deepMerge (VDoc (JObj [("__proto__", JObj [("a", JNum 1%Z)])]))
            (JObj [("__proto__", JObj [("b", JNum 2%Z)])])
  = VObj VObjectPrototype
      [("__proto__", VObj VObjectPrototype [("a", VDoc (JNum 1%Z)); ("b", VDoc (JNum 2%Z))])].
Proof. reflexivity. Qed.

(** A patch value [null] at the key [__proto__] leaves an object without
    prototype. *)
Example merge_null_prototype :
  deepMerge (VDoc (JObj [("a", JNum 1%Z)])) (JObj [("__proto__", JNull)])
  = VObj (VDoc JNull) [("a", VDoc (JNum 1%Z))].
Proof. reflexivity. Qed.

(** C2 as the specification words it fails, at the key [__proto__] of a
    patch merged into the empty object.
    - The patch value 5 is not stored: the assignment reaches the setter
      of [Object.prototype], which ignores a number, and the result has
      no property of that name.
    - A patch value that is an object becomes the prototype of the
      result, and a later key reads through it: at the key [a], where the
      target holds nothing, the result holds the merge of the patch's
      [{x: 1}] and [{y: 2}], not the patch value [{y: 2}]. *)
Lemma proto_key_not_stored :
  let target : jsv Z := VDoc (JObj []) in
  let scalar : props Z := [("__proto__", JNum 5); ("y", JNum 2)] in
  let object : props Z :=
    [("__proto__", JObj [("a", JObj [("x", JNum 1)])]); ("a", JObj [("y", JNum 2)])] in
  (deepMerge target (JObj scalar) = VObj VObjectPrototype [("y", VDoc (JNum 2))]
   /\ getOwn scalar "__proto__" = Some (JNum 5)
   /\ getOwn (ownProps (deepMerge target (JObj scalar))) "__proto__" = None
   /\ get VObjectPrototype [("y", VDoc (JNum 2))] "__proto__" = Some VObjectPrototype)
  /\ (deepMerge target (JObj object)
      = VObj (VObj VObjectPrototype [("a", VDoc (JObj [("x", JNum 1)]))])
          [("a", VObj VObjectPrototype [("x", VDoc (JNum 1)); ("y", VDoc (JNum 2))])]
      /\ getOwn object "a" = Some (JObj [("y", JNum 2)])
      /\ getOwn (ownProps target) "a" = None
      /\ getOwn (ownProps (deepMerge target (JObj object))) "a"
         <> Some (VDoc (JObj [("y", JNum 2)]))).
Proof.
  cbv zeta. repeat split; try reflexivity. vm_compute. discriminate.
Qed.

Ltac proto_free :=
  repeat first
    [ apply protoFree_other; reflexivity
    | apply protoFree_object; [ by apply (bool_decide_unpack _) | ]
    | apply Forall_nil_2
    | apply Forall_cons_2; simpl ].

Lemma deepMerge_at_patch_key_witness :
  exists own,
    deepMerge (VDoc (JObj MergeAlgebra.sampleTarget)) (JObj MergeAlgebra.samplePatch)
    = VObj VObjectPrototype own
    /\ getOwn own "models"
       = Some (deepMerge (VDoc (JObj [("mode", JStr "replace"); ("cache", JBool true)]))
                 (JObj [("mode", JStr "merge"); ("list", JArr [JNum 1])]))
    /\ forall key',
         key' ∉ keys MergeAlgebra.samplePatch ->
         getOwn own key' = getOwn (ownProps (VDoc (JObj MergeAlgebra.sampleTarget))) key'.
Proof.
  apply (deepMerge_at_patch_key (VDoc (JObj MergeAlgebra.sampleTarget))
           MergeAlgebra.samplePatch "models"
           (JObj [("mode", JStr "merge"); ("list", JArr [JNum 1])])).
  - reflexivity.
  - by apply (bool_decide_unpack _).
  - left. by apply (bool_decide_unpack _).
  - reflexivity.
Defined.

Lemma deepMerge_keys_witness :
  filter (fun k => isArrayIndex k = false)
    (objectKeys (deepMerge (VDoc (JObj [("b", JNum 1%Z); ("7", JNull)]))
                   (JObj [("c", JNum 3%Z); ("1", JNum 2%Z); ("b", JNull)])))
  = filter (fun k => isArrayIndex k = false)
      (objectKeys (VDoc (JObj [("b", JNum 1%Z); ("7", JNull)])))
    ++ filter (fun k => k ∉ objectKeys (VDoc (JObj [("b", JNum 1%Z); ("7", JNull)])))
         (filter (fun k => isArrayIndex k = false)
            (keys [("c", JNum 3%Z); ("1", JNum 2%Z); ("b", JNull)])).
Proof.
  refine (proj2 (proj2 (proj2
    (deepMerge_keys (VDoc (JObj [("b", JNum 1%Z); ("7", JNull)]))
       [("c", JNum 3%Z); ("1", JNum 2%Z); ("b", JNull)] _ _ _)))).
  - reflexivity.
  - by apply (bool_decide_unpack _).
  - left. by apply (bool_decide_unpack _).
Defined.

Lemma deepMerge_new_keys_witness :
  deepMerge (VDoc (JObj [("theme", JStr "light")]))
            (JObj [("models", JNum 1%Z); ("0", JNum 2%Z)])
  = VObj VObjectPrototype
      (ownProps (VDoc (JObj [("theme", JStr "light")]))
       ++ ownProps (VDoc (JObj [("models", JNum 1%Z); ("0", JNum 2%Z)]))).
Proof.
  refine (proj1 (deepMerge_new_keys (VDoc (JObj [("theme", JStr "light")]))
                   [("models", JNum 1%Z); ("0", JNum 2%Z)] _ _ _ _)).
  - reflexivity.
  - by apply (bool_decide_unpack _).
  - by apply (bool_decide_unpack _).
  - apply (proj1 (Forall_forall _ _)). by apply (bool_decide_unpack _).
Defined.

Lemma deepMerge_patch_leaf_witness :
  getPath ["models"; "list"]
    (deepMerge (VDoc (JObj MergeAlgebra.sampleTarget)) (JObj MergeAlgebra.samplePatch))
  = Some (VDoc (JArr [JNum 1])).
Proof.
  apply (deepMerge_patch_leaf ["models"; "list"] MergeAlgebra.sampleTarget
           MergeAlgebra.samplePatch).
  - MergeAlgebra.distinct_keys.
  - MergeAlgebra.distinct_keys.
  - proto_free.
  - reflexivity.
  - reflexivity.
Defined.

Lemma deepMerge_target_path_witness :
  getPath ["models"; "cache"]
    (deepMerge (VDoc (JObj MergeAlgebra.sampleTarget)) (JObj MergeAlgebra.samplePatch))
  = getPath ["models"; "cache"] (VDoc (JObj MergeAlgebra.sampleTarget)).
Proof.
  apply (deepMerge_target_path ["models"; "cache"] MergeAlgebra.sampleTarget
           MergeAlgebra.samplePatch).
  - MergeAlgebra.distinct_keys.
  - MergeAlgebra.distinct_keys.
  - proto_free.
  - reflexivity.
Defined.

End MergeObjects.

(* ===================================================================== *)
(** * The steps of the installer ([src/install.ts])                       *)
(* ===================================================================== *)

Module Installer.
Import ConfigMerger ConfigPatch MergeAlgebra.

(** ** Text *)

(** [s.includes(needle)]. *)
Fixpoint includes (needle s : string) : bool :=
  String.prefix needle s ||
  match s with
  | EmptyString => false
  | String _ rest => includes needle rest
  end.

(** White space and line terminators of one byte: TAB, LF, VT, FF, CR and
    the space. *)
Definition isWhiteSpace (c : ascii) : bool :=
  existsb (Ascii.eqb c)
    (ascii_of_nat <$> [9; 10; 11; 12; 13; 32]%nat).

(** [s.trimStart()], for a text whose leading white space is of one
    byte. *)
Fixpoint trimStart (s : string) : string :=
  match s with
  | EmptyString => EmptyString
  | String c rest => if isWhiteSpace c then trimStart rest else s
  end.

Fixpoint dropString (n : nat) (s : string) : string :=
  match n, s with
  | O, _ => s
  | S n, String _ rest => dropString n rest
  | S _, EmptyString => EmptyString
  end.

(** [s.replace(pattern, "")] for a pattern that is a string: the first
    occurrence is removed. *)
Fixpoint removeFirst (pattern s : string) : string :=
  if String.prefix pattern s then dropString (String.length pattern) s
  else match s with
       | EmptyString => EmptyString
       | String c rest => String c (removeFirst pattern rest)
       end.

(** ** Documents *)

(** [ToBoolean] of a document. *)
Definition truthy (d : document) : bool :=
  match d with
  | JNull => false
  | JBool b => b
  | JNum n => negb (Qeq_bool n 0)
  | JStr s => negb (String.eqb s "")
  | JArr _ | JObj _ => true
  end.

(** [v?.[key]], and [v[key]] for a [v] that is not nullish, at a key that
    is no index and no inherited property. *)
Definition optField (v : jsval Q) (key : string) : jsval Q :=
  match v with
  | Some (JObj o) => getOwn o key
  | _ => None
  end.

(** [BASELINE_PRICING] and [SANSA_PRICING] of types.ts. *)
Definition BASELINE_PRICING : document :=
  JObj [("inputCostPerMillion", JNum 10%Q); ("outputCostPerMillion", JNum 5%Q)].

Definition SANSA_PRICING : document :=
  JObj [("inputCostPerMillion", JNum 1.5%Q); ("outputCostPerMillion", JNum 6%Q)].

(** The [config] that [createSansaConfig] writes. *)
Definition defaultSansaConfig : document :=
  JObj [("savings_notifications", JBool true);
        ("interval_hours", JNum 24%Q);
        ("baseline", BASELINE_PRICING);
        ("sansa", SANSA_PRICING)].

(** The text that [updateHeartbeat] adds, and the text it looks for. *)
Definition blurb : string :=
  String.concat newline
    [""; "## Sansa"; "";
     "Run `node ~/.openclaw/sansa/savings-tracker.mjs` and share a brief savings summary with the user.";
     ""].

Definition marker : string := "savings-tracker.mjs".

(** ** File system *)

(** [appendFileSync]: the file is created when it is missing.  The trace
    of [calls] keeps the copies, the [mkdir]s and the writes; an append
    shows in the files. *)
Definition appendFileSync (path data : string) : IO unit := fun w =>
  (Ok (), mkWorld (<[path := default "" (files w !! path) +:+ data]> (files w))
                  (calls w)).

Section Install.

(** The paths of types.ts (they depend on the home directory), the three
    templates of templates.ts, [JSON.parse], [JSON.stringify(data, null, 2)]
    and [path.dirname]. *)
Variables CONFIG_PATH SANSA_CONFIG_PATH SANSA_HOOK_DIR SANSA_SCRIPTS_DIR : string.
Variables HOOK_MD HOOK_HANDLER_JS SAVINGS_TRACKER_MJS : string.
Variable JSON_parse : string -> option document.
Variable JSON_stringify : document -> string.
Variable dirname : string -> string.

Abbreviation readJson := (readJson JSON_parse).
Abbreviation writeJson := (writeJson JSON_stringify dirname).
Abbreviation patchOpenClawConfig :=
  (patchOpenClawConfig CONFIG_PATH JSON_parse JSON_stringify dirname).
Abbreviation existingConfig := (existingConfig CONFIG_PATH JSON_parse).
Abbreviation mergedText := (mergedText CONFIG_PATH JSON_parse JSON_stringify).
Abbreviation backupPath := (backupPath CONFIG_PATH).

(** Step 2. *)
Definition installStartupHook : IO unit :=
  mkdirSync SANSA_HOOK_DIR;;
  writeFileSync (SANSA_HOOK_DIR +:+ "/HOOK.md") HOOK_MD;;
  writeFileSync (SANSA_HOOK_DIR +:+ "/handler.js") HOOK_HANDLER_JS.

(** Step 3. *)
Definition createSansaConfig : IO unit :=
  found ← readJson SANSA_CONFIG_PATH;
  if truthy found then mret ()
  else writeJson SANSA_CONFIG_PATH defaultSansaConfig.

(** Step 4. *)
Definition installSavingsTracker : IO unit :=
  mkdirSync SANSA_SCRIPTS_DIR;;
  writeFileSync (SANSA_SCRIPTS_DIR +:+ "/savings-tracker.mjs") SAVINGS_TRACKER_MJS.

(** Step 5. *)
Definition defaultWorkspace : string :=
  removeFirst "/openclaw.json" CONFIG_PATH +:+ "/workspace".

Definition workspaceIn (cfg : document) : string :=
  let agents := optField (Some cfg) "agents" in
  let defaults := optField agents "defaults" in
  let workspace := optField defaults "workspace" in
  match workspace with
  | Some (JStr s) => if String.eqb s "" then defaultWorkspace else s
  | _ => defaultWorkspace
  end.

Definition getWorkspacePath : IO string :=
  data ← readJson CONFIG_PATH;
  let cfg := match data with JNull => JObj [] | _ => data end in
  mret (workspaceIn cfg).

Definition updateHeartbeat : IO unit :=
  workspacePath ← getWorkspacePath;
  let heartbeatPath := workspacePath +:+ "/HEARTBEAT.md" in
  there ← existsSync heartbeatPath;
  if there : bool then
    existing ← readFileSync heartbeatPath;
    if includes marker existing then mret ()
    else appendFileSync heartbeatPath blurb
  else
    mkdirSync workspacePath;;
    writeFileSync heartbeatPath (trimStart blurb).

(** The steps that [main] runs once it has the key and the answer of the
    menu (what it prints is left out). *)
Definition runSteps (apiKey : string) (addHeartbeat : bool) (now : Z) : IO unit :=
  patchOpenClawConfig apiKey now;;
  installStartupHook;;
  createSansaConfig;;
  installSavingsTracker;;
  if addHeartbeat then updateHeartbeat else mret ().

(** The path of the heartbeat file for the files of [w]. *)
Definition heartbeatPath (w : World) : string :=
  workspaceIn (existingConfig w) +:+ "/HEARTBEAT.md".

(** ** Reading and writing a document *)

Lemma readJson_run path w :
  readJson path w
  = (Ok (match files w !! path ≫= JSON_parse with
         | Some data => data
         | None => JNull
         end), w).
Proof.
  unfold ConfigPatch.readJson, tryCatch, readFileSync, throw, mbind, mret,
    IO_bind, IO_ret.
  destruct (files w !! path) as [content|]; simpl; [|done].
  by destruct (JSON_parse content).
Qed.

Lemma writeJson_run path data w :
  writeJson path data w
  = (Ok (), mkWorld (<[path := JSON_stringify data +:+ newline]> (files w))
                    (calls w ++ [MkDir (dirname path);
                                 WriteFile path (JSON_stringify data +:+ newline)])).
Proof.
  unfold ConfigPatch.writeJson, mkdirSync, writeFileSync, mbind, IO_bind. simpl.
  by rewrite <- app_assoc.
Qed.

(** X7.  [readJson] never throws and changes nothing: it answers with a
    document and leaves the files and the trace as they were, and the
    document is [null] exactly when the file is missing, is no JSON text,
    or is the text of [null]. *)
Theorem readJson_never_throws path w :
  exists data,
    readJson path w = (Ok data, w)
    /\ (data = JNull <->
        files w !! path = None
        \/ (exists content, files w !! path = Some content
                            /\ (JSON_parse content = None
                                \/ JSON_parse content = Some JNull))).
Proof.
  rewrite readJson_run. eexists. split; [done|].
  destruct (files w !! path) as [content|]; simpl.
  - destruct (JSON_parse content) as [data|] eqn:Hp.
    + split.
      * intros ->. right. exists content. auto.
      * intros [|[c [[= <-] [|]]]]; congruence.
    + split; [|done]. intros _. right. exists content. auto.
  - split; [auto|done].
Qed.

(** X8.  What [writeJson] writes, [readJson] reads back, when
    [JSON.parse] inverts [JSON.stringify] on the document: the file holds
    the text of the document and a newline, and no other file changes. *)
Theorem writeJson_readJson path data w :
  JSON_parse (JSON_stringify data +:+ newline) = Some data ->
  exists w',
    writeJson path data w = (Ok (), w')
    /\ readJson path w' = (Ok data, w')
    /\ files w' !! path = Some (JSON_stringify data +:+ newline)
    /\ forall other, other <> path -> files w' !! other = files w !! other.
Proof.
  intros Hround. rewrite writeJson_run. eexists. split; [done|].
  rewrite readJson_run. simpl. rewrite lookup_insert_eq. simpl. rewrite Hround.
  split; [done|]. split; [done|].
  intros other Hne. by rewrite lookup_insert_ne.
Qed.

(** ** The patch of the configuration file *)

(** The files after the backup that [patchOpenClawConfig] makes. *)
Definition backedUp (now : Z) (w : World) : gmap string string :=
  match files w !! CONFIG_PATH with
  | Some original => <[backupPath now := original]> (files w)
  | None => files w
  end.

Lemma patchOpenClawConfig_run apiKey now w :
  exists trace,
    patchOpenClawConfig apiKey now w
    = (Ok (), mkWorld (<[CONFIG_PATH := mergedText apiKey w]> (backedUp now w)) trace).
Proof.
  unfold ConfigPatch.patchOpenClawConfig, ConfigPatch.mergedText,
    ConfigPatch.existingConfig, backedUp.
  unfold mbind at 1, IO_bind. rewrite readJson_run.
  unfold existsSync, copyFileSync, mbind, mret, IO_bind, IO_ret.
  destruct (files w !! CONFIG_PATH) as [original|] eqn:Hfile; simpl.
  - rewrite Hfile.
    destruct (JSON_parse original) as [[]|]; rewrite writeJson_run; simpl;
      by eexists.
  - rewrite writeJson_run. simpl. by eexists.
Qed.

Lemma sansaPatch_distinct apiKey : distinctKeys (JObj (sansaPatch apiKey)).
Proof. unfold sansaPatch, SANSA_MODEL_ENTRY. distinct_keys. Qed.

(** X9.  Whatever the configuration file held, the document that
    [patchOpenClawConfig] writes holds every leaf of the Sansa patch: the
    provider's [apiKey], [baseUrl], [api] and model list, the mode, the
    primary model and its alias. *)
Theorem patch_sets_leaves apiKey now w path v :
  getPath path (JObj (sansaPatch apiKey)) = Some v ->
  isPlainObject (Some v) = false ->
  exists w' merged,
    patchOpenClawConfig apiKey now w = (Ok (), w')
    /\ files w' !! CONFIG_PATH = Some (JSON_stringify (JObj merged) +:+ newline)
    /\ getPath path (JObj merged) = Some v.
Proof.
  intros Hpath Hleaf.
  destruct (patchOpenClawConfig_run apiKey now w) as [trace ->].
  eexists _, _. split; [done|]. simpl. rewrite lookup_insert_eq.
  split; [done|].
  by apply getPath_patch_leaf; [apply sansaPatch_distinct| |].
Qed.

Lemma existingConfig_written data w :
  files w !! CONFIG_PATH = Some (JSON_stringify (JObj data) +:+ newline) ->
  JSON_parse (JSON_stringify (JObj data) +:+ newline) = Some (JObj data) ->
  existingConfig w = JObj data.
Proof. intros Hfile Hround. unfold ConfigPatch.existingConfig. by rewrite Hfile, Hround. Qed.

(** X10.  A second run of [patchOpenClawConfig] with the same key writes
    the text the first run wrote, when [JSON.parse] reads that text back:
    the configuration file is the same after both, and the backup of the
    second run holds it too. *)
Theorem patch_twice apiKey now1 now2 w :
  JSON_parse (mergedText apiKey w)
  = Some (JObj (deepMerge (spread (existingConfig w)) (sansaPatch apiKey))) ->
  exists w1 w2,
    patchOpenClawConfig apiKey now1 w = (Ok (), w1)
    /\ patchOpenClawConfig apiKey now2 w1 = (Ok (), w2)
    /\ files w1 !! CONFIG_PATH = Some (mergedText apiKey w)
    /\ files w2 !! CONFIG_PATH = Some (mergedText apiKey w)
    /\ files w2 !! backupPath now2 = Some (mergedText apiKey w)
    /\ forall path, path <> CONFIG_PATH -> path <> backupPath now2 ->
                    files w2 !! path = files w1 !! path.
Proof.
  intros Hround.
  destruct (patchOpenClawConfig_run apiKey now1 w) as [trace1 Hrun1].
  set (w1 := mkWorld (<[CONFIG_PATH := mergedText apiKey w]> (backedUp now1 w)) trace1)
    in Hrun1.
  destruct (patchOpenClawConfig_run apiKey now2 w1) as [trace2 Hrun2].
  assert (files w1 !! CONFIG_PATH = Some (mergedText apiKey w)) as Hfile1.
  { subst w1. simpl. by rewrite lookup_insert_eq. }
  clearbody w1.
  assert (mergedText apiKey w1 = mergedText apiKey w) as Hsame.
  { unfold ConfigPatch.mergedText at 1.
    rewrite (existingConfig_written _ _ Hfile1 Hround). simpl.
    destruct (deepMerge_again_both _ (sansaPatch_distinct apiKey) _ eq_refl)
      as [Htwice _].
    by rewrite Htwice. }
  pose proof (backupPath_fresh CONFIG_PATH now2) as Hfresh.
  exists w1. eexists. split; [done|]. split; [exact Hrun2|]. simpl.
  split; [done|]. rewrite Hsame, lookup_insert_eq. split; [done|].
  unfold backedUp. rewrite Hfile1. split.
  - by rewrite lookup_insert_ne, lookup_insert_eq.
  - intros path ??. by rewrite !lookup_insert_ne.
Qed.

(** X11.  A configuration file that cannot be used is replaced, and kept:
    when the file is missing, is no JSON text or holds [null], the document
    written is the Sansa patch alone, and the text the file held (if there
    was a file) is in the backup. *)
Theorem unusable_config_replaced apiKey now w :
  (forall original, files w !! CONFIG_PATH = Some original ->
                    JSON_parse original = None \/ JSON_parse original = Some JNull) ->
  exists w',
    patchOpenClawConfig apiKey now w = (Ok (), w')
    /\ files w' !! CONFIG_PATH
       = Some (JSON_stringify (JObj (sansaPatch apiKey)) +:+ newline)
    /\ forall original, files w !! CONFIG_PATH = Some original ->
                        files w' !! backupPath now = Some original.
Proof.
  intros Hbad. destruct (patchOpenClawConfig_run apiKey now w) as [trace ->].
  pose proof (backupPath_fresh CONFIG_PATH now) as Hfresh.
  eexists. split; [done|]. simpl. rewrite lookup_insert_eq.
  unfold ConfigPatch.mergedText, ConfigPatch.existingConfig, backedUp.
  destruct (files w !! CONFIG_PATH) as [original|]; [|by split].
  split.
  - by destruct (Hbad original eq_refl) as [-> | ->].
  - intros ? [= <-]. by rewrite lookup_insert_ne, lookup_insert_eq.
Qed.

(** ** Step 3: the Sansa configuration *)

(** What [createSansaConfig] finds at [SANSA_CONFIG_PATH]. *)
Definition foundConfig (w : World) : document :=
  match files w !! SANSA_CONFIG_PATH ≫= JSON_parse with
  | Some data => data
  | None => JNull
  end.

Definition defaultText : string := JSON_stringify defaultSansaConfig +:+ newline.

Lemma createSansaConfig_run w :
  createSansaConfig w
  = if truthy (foundConfig w) then (Ok (), w)
    else (Ok (), mkWorld (<[SANSA_CONFIG_PATH := defaultText]> (files w))
                         (calls w ++ [MkDir (dirname SANSA_CONFIG_PATH);
                                      WriteFile SANSA_CONFIG_PATH defaultText])).
Proof.
  unfold createSansaConfig. unfold mbind at 1, IO_bind. rewrite readJson_run.
  fold (foundConfig w). destruct (truthy (foundConfig w)); [done|].
  by rewrite writeJson_run.
Qed.

(** X12.  [createSansaConfig] never replaces a configuration that is
    there: when the file parses to a truthy document nothing is written
    and no call is made; otherwise (file missing, no JSON text, or the text
    of [null], [false], [0] or the empty string) the defaults are written.
    No other file changes, and a second call does nothing when
    [JSON.parse] reads the defaults back. *)
Theorem createSansaConfig_once w :
  JSON_parse defaultText = Some defaultSansaConfig ->
  exists w1,
    createSansaConfig w = (Ok (), w1)
    /\ (truthy (foundConfig w) = true -> w1 = w)
    /\ (truthy (foundConfig w) = false ->
        files w1 !! SANSA_CONFIG_PATH = Some defaultText)
    /\ (forall path, path <> SANSA_CONFIG_PATH -> files w1 !! path = files w !! path)
    /\ createSansaConfig w1 = (Ok (), w1).
Proof.
  intros Hround. rewrite createSansaConfig_run.
  destruct (truthy (foundConfig w)) eqn:Hfound; eexists; (split; [done|]).
  - split; [done|]. split; [done|]. split; [done|].
    by rewrite createSansaConfig_run, Hfound.
  - split; [done|]. simpl. rewrite lookup_insert_eq. split; [done|].
    split; [intros path ?; by rewrite lookup_insert_ne|].
    rewrite createSansaConfig_run. unfold foundConfig. simpl.
    rewrite lookup_insert_eq. simpl. by rewrite Hround.
Qed.

(** ** Step 5: the workspace *)

Definition workspaceKey : list string := ["agents"; "defaults"; "workspace"].

Lemma optField_getPath cfg :
  optField (optField (optField (Some cfg) "agents") "defaults") "workspace"
  = getPath workspaceKey cfg.
Proof.
  destruct cfg as [| | | | |o]; try done. simpl.
  destruct (getOwn o "agents") as [[| | | | |a]|]; try done. simpl.
  destruct (getOwn a "defaults") as [[| | | | |d]|]; try done. simpl.
  by destruct (getOwn d "workspace").
Qed.

Lemma getWorkspacePath_run w :
  getWorkspacePath w = (Ok (workspaceIn (existingConfig w)), w).
Proof.
  unfold getWorkspacePath. unfold mbind, IO_bind. rewrite readJson_run.
  unfold ConfigPatch.existingConfig, mret, IO_ret.
  destruct (files w !! CONFIG_PATH) as [content|]; simpl; [|done].
  by destruct (JSON_parse content) as [[]|].
Qed.

Lemma append_cons c s t : String c s +:+ t = String c (s +:+ t).
Proof. reflexivity. Qed.

(** The only occurrence of [/openclaw.json] in [dir/openclaw.json] is the
    last one when [dir] holds none: the text has one [/], in front. *)
Lemma prefix_straddle t :
  t <> "" ->
  String.prefix "/openclaw.json" (t +:+ "/openclaw.json") = true ->
  String.prefix "/openclaw.json" t = true.
Proof.
  intros Hne.
  do 14 (destruct t as [|? t];
         [ try done; vm_compute; intros; discriminate
         | rewrite append_cons; cbn -[ascii_dec]; destruct (ascii_dec _ _);
           [subst|intros; discriminate] ]).
  by destruct t.
Qed.

Lemma prefix_self s t : String.prefix s (s +:+ t) = true.
Proof.
  induction s as [|c s IH]; [change ("" +:+ t) with t; by destruct t|].
  rewrite append_cons. cbn -[ascii_dec]. by destruct (ascii_dec c c).
Qed.

Lemma dropString_app s t : dropString (String.length s) (s +:+ t) = t.
Proof. induction s as [|c s IH]; [done|]. rewrite append_cons. apply IH. Qed.

Lemma removeFirst_suffix dir :
  includes "/openclaw.json" dir = false ->
  removeFirst "/openclaw.json" (dir +:+ "/openclaw.json") = dir.
Proof.
  induction dir as [|c dir IH]; [done|].
  intros Hinc. cbn [includes] in Hinc. apply orb_false_iff in Hinc as [Hpre Hinc].
  rewrite append_cons.
  cbn [removeFirst].
  destruct (String.prefix "/openclaw.json" (String c (dir +:+ "/openclaw.json")))
    eqn:Hp.
  - rewrite <- append_cons in Hp.
    apply (prefix_straddle (String c dir)) in Hp; [congruence|done].
  - by rewrite IH.
Qed.

(** X13.  [getWorkspacePath] answers with the workspace the configuration
    names at [agents.defaults.workspace] when that is a string that is not
    empty; in every other case (no file, no JSON text, a key missing on the
    way, a value that is no string, the empty string) it answers with
    [dir/workspace], for a configuration file [dir/openclaw.json] whose
    directory does not itself hold the text [/openclaw.json].  It never
    throws and changes nothing. *)
Theorem getWorkspacePath_cases dir w :
  CONFIG_PATH = dir +:+ "/openclaw.json" ->
  includes "/openclaw.json" dir = false ->
  exists answer,
    getWorkspacePath w = (Ok answer, w)
    /\ (forall s, getPath workspaceKey (existingConfig w) = Some (JStr s) ->
                  s <> "" -> answer = s)
    /\ ((forall s, getPath workspaceKey (existingConfig w) = Some (JStr s) -> s = "") ->
        answer = dir +:+ "/workspace").
Proof.
  intros Hpath Hdir. rewrite getWorkspacePath_run. eexists. split; [done|].
  assert (defaultWorkspace = dir +:+ "/workspace") as Hdefault.
  { unfold defaultWorkspace. by rewrite Hpath, removeFirst_suffix. }
  unfold workspaceIn. rewrite optField_getPath, Hdefault.
  destruct (getPath workspaceKey (existingConfig w)) as [[| | |s| |]|] eqn:Hw;
    try (split; [intros ? [=]|done]).
  destruct (String.eqb_spec s "") as [->|Hs].
  - split; [by intros ? [= <-]|done].
  - split; [by intros ? [= <-]|]. intros Hnone. by destruct (Hnone s).
Qed.

(** X14.  The patch leaves the workspace where it was: for a
    configuration file that is missing, is no JSON text or holds an
    object, when [JSON.parse] reads back the text that
    [patchOpenClawConfig] writes, [getWorkspacePath] gives the same answer
    after the patch as before it. *)
Theorem workspace_stable apiKey now w :
  isPlainObject (Some (existingConfig w)) = true ->
  JSON_parse (mergedText apiKey w)
  = Some (JObj (deepMerge (spread (existingConfig w)) (sansaPatch apiKey))) ->
  exists w1 answer,
    patchOpenClawConfig apiKey now w = (Ok (), w1)
    /\ getWorkspacePath w = (Ok answer, w)
    /\ getWorkspacePath w1 = (Ok answer, w1).
Proof.
  intros Hobj Hround.
  destruct (patchOpenClawConfig_run apiKey now w) as [trace ->].
  eexists _, _. split; [done|]. rewrite !getWorkspacePath_run.
  split; [done|]. do 2 f_equal.
  rewrite (existingConfig_written
             (deepMerge (spread (existingConfig w)) (sansaPatch apiKey))).
  - unfold workspaceIn. rewrite !optField_getPath.
    rewrite getPath_off_patch; [|apply sansaPatch_distinct|done].
    by destruct (existingConfig w).
  - simpl. by rewrite lookup_insert_eq.
  - exact Hround.
Qed.

(** ** Step 5: the heartbeat file *)

Lemma includes_app_r needle a b :
  includes needle b = true -> includes needle (a +:+ b) = true.
Proof.
  intros Hb. induction a as [|c a IH]; [done|].
  rewrite append_cons. cbn [includes]. rewrite IH. apply orb_true_r.
Qed.

Lemma existsSync_run path w :
  existsSync path w = (Ok (if files w !! path is Some _ then true else false), w).
Proof. unfold existsSync. by destruct (files w !! path). Qed.

(** The files after [updateHeartbeat]. *)
Definition heartbeatFiles (w : World) : gmap string string :=
  match files w !! heartbeatPath w with
  | Some old =>
      if includes marker old then files w
      else <[heartbeatPath w := old +:+ blurb]> (files w)
  | None => <[heartbeatPath w := trimStart blurb]> (files w)
  end.

Lemma updateHeartbeat_run w :
  exists trace, updateHeartbeat w = (Ok (), mkWorld (heartbeatFiles w) trace).
Proof.
  unfold updateHeartbeat, heartbeatFiles. unfold mbind at 1, IO_bind.
  rewrite getWorkspacePath_run. fold (heartbeatPath w).
  unfold mbind at 1, IO_bind. rewrite existsSync_run.
  destruct (files w !! heartbeatPath w) as [old|] eqn:Hold.
  - unfold mbind, IO_bind, readFileSync. rewrite Hold.
    destruct (includes marker old).
    + exists (calls w). by destruct w.
    + unfold appendFileSync. rewrite Hold. by eexists.
  - unfold mbind, IO_bind, mkdirSync, writeFileSync. simpl. by eexists.
Qed.

Lemma updateHeartbeat_present w old :
  files w !! heartbeatPath w = Some old ->
  includes marker old = true ->
  updateHeartbeat w = (Ok (), w).
Proof.
  intros Hold Hinc. unfold updateHeartbeat. unfold mbind at 1, IO_bind.
  rewrite getWorkspacePath_run. fold (heartbeatPath w).
  unfold mbind at 1, IO_bind. rewrite existsSync_run, Hold.
  unfold mbind, IO_bind, readFileSync. by rewrite Hold, Hinc.
Qed.

(** X15.  [updateHeartbeat] adds its blurb once and loses nothing: after a
    call the heartbeat file exists and holds [savings-tracker.mjs], the
    text it held before is still there in front, no other file has
    changed, and a second call changes nothing at all.  The heartbeat file
    is taken not to be the configuration file itself. *)
Theorem updateHeartbeat_once w :
  heartbeatPath w <> CONFIG_PATH ->
  exists w1 content,
    updateHeartbeat w = (Ok (), w1)
    /\ files w1 !! heartbeatPath w = Some content
    /\ includes marker content = true
    /\ (forall old, files w !! heartbeatPath w = Some old ->
                    exists added, content = old +:+ added)
    /\ (forall path, path <> heartbeatPath w -> files w1 !! path = files w !! path)
    /\ updateHeartbeat w1 = (Ok (), w1).
Proof.
  intros Hne. destruct (updateHeartbeat_run w) as [trace Hrun].
  set (w1 := mkWorld (heartbeatFiles w) trace) in *.
  assert (forall path, path <> heartbeatPath w -> files w1 !! path = files w !! path)
    as Hframe.
  { intros path Hp. subst w1. simpl. unfold heartbeatFiles.
    destruct (files w !! heartbeatPath w) as [old|]; [destruct (includes marker old)|];
      by rewrite ?lookup_insert_ne. }
  assert (heartbeatPath w1 = heartbeatPath w) as Hsame.
  { unfold heartbeatPath, ConfigPatch.existingConfig. by rewrite Hframe. }
  assert (exists content,
            files w1 !! heartbeatPath w = Some content
            /\ includes marker content = true
            /\ forall old, files w !! heartbeatPath w = Some old ->
                           exists added, content = old +:+ added)
    as (content & Hcontent & Hinc & Hkept).
  { subst w1. simpl. unfold heartbeatFiles.
    destruct (files w !! heartbeatPath w) as [old|] eqn:Hold.
    - destruct (includes marker old) eqn:Hinc.
      + exists old. split; [done|]. split; [done|].
        intros ? [= <-]. exists "". by rewrite string_app_empty_r.
      + exists (old +:+ blurb). rewrite lookup_insert_eq. split; [done|].
        split; [by apply includes_app_r|]. intros ? [= <-]. by exists blurb.
    - exists (trimStart blurb). rewrite lookup_insert_eq. by split. }
  clearbody w1. exists w1, content. split; [done|]. split; [done|].
  split; [done|]. split; [done|]. split; [done|].
  apply (updateHeartbeat_present w1 content); [by rewrite Hsame|done].
Qed.

(** ** The steps together *)

(** The files the steps of the installer write, the heartbeat file
    apart. *)
Definition ownFiles (now : Z) : list string :=
  [CONFIG_PATH; backupPath now;
   SANSA_HOOK_DIR +:+ "/HOOK.md"; SANSA_HOOK_DIR +:+ "/handler.js";
   SANSA_CONFIG_PATH;
   SANSA_SCRIPTS_DIR +:+ "/savings-tracker.mjs"].

(** [m] returns, and changes no file outside [owned]. *)
Definition touchesOnly (owned : string -> Prop) (m : IO unit) : Prop :=
  forall w, exists w',
    m w = (Ok (), w')
    /\ forall path, ~ owned path -> files w' !! path = files w !! path.

Lemma touchesOnly_seq owned (m1 m2 : IO unit) :
  touchesOnly owned m1 -> touchesOnly owned m2 -> touchesOnly owned (m1;; m2).
Proof.
  intros H1 H2 w. destruct (H1 w) as (w1 & Hrun1 & Hframe1).
  destruct (H2 w1) as (w2 & Hrun2 & Hframe2).
  exists w2. unfold mbind, IO_bind. rewrite Hrun1. split; [done|].
  intros path Hp. by rewrite Hframe2, Hframe1.
Qed.

Lemma touchesOnly_mkdir owned path : touchesOnly owned (mkdirSync path).
Proof. intros w. by eexists. Qed.

Lemma touchesOnly_write (owned : string -> Prop) path content :
  owned path -> touchesOnly owned (writeFileSync path content).
Proof.
  intros Hown w. eexists. split; [done|]. simpl. intros other Hother.
  rewrite lookup_insert_ne; [done|]. by intros ->.
Qed.

Lemma touchesOnly_ret owned : touchesOnly owned (mret ()).
Proof. intros w. by eexists. Qed.

(** The files the installer may touch: its own, and a [HEARTBEAT.md] when
    the heartbeat was asked for. *)
Definition installed (addHeartbeat : bool) (now : Z) (path : string) : Prop :=
  path ∈ ownFiles now
  \/ (addHeartbeat = true /\ exists workspace, path = workspace +:+ "/HEARTBEAT.md").

Lemma touchesOnly_patch apiKey addHeartbeat now :
  touchesOnly (installed addHeartbeat now) (patchOpenClawConfig apiKey now).
Proof.
  intros w. destruct (patchOpenClawConfig_run apiKey now w) as [trace ->].
  eexists. split; [done|]. simpl. intros path Hp.
  assert (path <> CONFIG_PATH) by (intros ->; apply Hp; left; set_solver).
  assert (path <> backupPath now) by (intros ->; apply Hp; left; set_solver).
  rewrite lookup_insert_ne by done. unfold backedUp.
  destruct (files w !! CONFIG_PATH); by rewrite ?lookup_insert_ne.
Qed.

Lemma touchesOnly_createSansaConfig addHeartbeat now :
  touchesOnly (installed addHeartbeat now) createSansaConfig.
Proof.
  intros w. rewrite createSansaConfig_run.
  destruct (truthy (foundConfig w)); eexists; (split; [done|]); [done|].
  simpl. intros path Hp. rewrite lookup_insert_ne; [done|].
  intros <-. apply Hp. left. set_solver.
Qed.

Lemma touchesOnly_updateHeartbeat now :
  touchesOnly (installed true now) updateHeartbeat.
Proof.
  intros w. destruct (updateHeartbeat_run w) as [trace ->].
  eexists. split; [done|]. simpl. intros path Hp.
  assert (path <> heartbeatPath w).
  { intros ->. apply Hp. right. split; [done|]. by eexists. }
  unfold heartbeatFiles.
  destruct (files w !! heartbeatPath w) as [old|]; [destruct (includes marker old)|];
    by rewrite ?lookup_insert_ne.
Qed.

(** X16.  The steps of the installer return (no step throws) and change
    no file but the installer's own: the configuration file and its
    backup, the two files of the startup hook, the Sansa configuration,
    the tracker script and, when the heartbeat was asked for, a
    [HEARTBEAT.md]; session logs and every other file are as before. *)
Theorem runSteps_frame apiKey addHeartbeat now w :
  exists w',
    runSteps apiKey addHeartbeat now w = (Ok (), w')
    /\ forall path, ~ installed addHeartbeat now path ->
                    files w' !! path = files w !! path.
Proof.
  revert w. change (touchesOnly (installed addHeartbeat now)
                      (runSteps apiKey addHeartbeat now)).
  unfold runSteps, installStartupHook, installSavingsTracker.
  repeat apply touchesOnly_seq;
    try apply touchesOnly_mkdir;
    try apply touchesOnly_patch;
    try apply touchesOnly_createSansaConfig;
    try (apply touchesOnly_write; left; unfold ownFiles; set_solver).
  destruct addHeartbeat; [apply touchesOnly_updateHeartbeat|apply touchesOnly_ret].
Qed.

(** With the heartbeat chosen, the steps end with a [HEARTBEAT.md] that
    holds the marker. *)
Lemma heartbeatFiles_marker w :
  exists content,
    heartbeatFiles w !! heartbeatPath w = Some content
    /\ includes marker content = true.
Proof.
  unfold heartbeatFiles.
  destruct (files w !! heartbeatPath w) as [old|] eqn:Hold.
  - destruct (includes marker old) eqn:Hinc.
    + by exists old.
    + exists (old +:+ blurb). rewrite lookup_insert_eq. split; [done|].
      by apply includes_app_r.
  - exists (trimStart blurb). rewrite lookup_insert_eq. by split.
Qed.

Lemma runSteps_heartbeat apiKey now w :
  exists w' workspace content,
    runSteps apiKey true now w = (Ok (), w')
    /\ files w' !! (workspace +:+ "/HEARTBEAT.md") = Some content
    /\ includes marker content = true.
Proof.
  unfold runSteps. unfold mbind at 1, IO_bind.
  destruct (patchOpenClawConfig_run apiKey now w) as [trace1 ->].
  unfold mbind at 1, IO_bind.
  match goal with
  | |- context [installStartupHook ?w1] =>
      destruct (installStartupHook w1) as [[[]|] w2] eqn:H2; [|discriminate H2]
  end.
  unfold mbind at 1, IO_bind. rewrite createSansaConfig_run.
  match goal with
  | |- context [if ?b then (Ok (), ?wa) else (Ok (), ?wb)] =>
      set (w3 := if b then wa else wb);
      replace (if b then (Ok (), wa) else (Ok (), wb)) with (Ok (), w3)
        by (subst w3; by destruct b)
  end.
  clearbody w3. unfold mbind at 1, IO_bind.
  destruct (installSavingsTracker w3) as [[[]|] w4] eqn:H4; [|discriminate H4].
  destruct (updateHeartbeat_run w4) as [trace5 ->].
  destruct (heartbeatFiles_marker w4) as (content & Hfile & Hinc).
  by eexists _, (workspaceIn (existingConfig w4)), content.
Qed.

End Install.

(** ** A sample installation *)

Definition sampleConfigPath : string := "/home/u/.openclaw/openclaw.json".

(** A configuration of the user that names a workspace. *)
Definition userConfig : document :=
  JObj [("agents",
         JObj [("defaults", JObj [("workspace", JStr "/home/u/work")])])].

Definition patchedUserConfig : document :=
  JObj (deepMerge (spread userConfig) (sansaPatch "sk-1")).

(** A codec on three texts: the file of the user, the text of the patched
    configuration and the text of the Sansa defaults. *)
Definition sampleStringify (d : document) : string :=
  match d with
  | JObj (("savings_notifications", _) :: _) => "defaults"
  | _ => "patched"
  end.

Definition sampleParse (s : string) : option document :=
  if String.eqb s "user" then Some userConfig
  else if String.eqb s ("patched" +:+ newline) then Some patchedUserConfig
  else if String.eqb s ("defaults" +:+ newline) then Some defaultSansaConfig
  else None.

Definition sampleWorld : World :=
  mkWorld {[ sampleConfigPath := "user";
             "/home/u/work/HEARTBEAT.md" := "# Heartbeat" +:+ newline ]} [].

Lemma writeJson_readJson_witness :
  exists w',
    writeJson sampleStringify (fun p => p) "/tmp/c.json" patchedUserConfig sampleWorld
    = (Ok (), w')
    /\ readJson sampleParse "/tmp/c.json" w' = (Ok patchedUserConfig, w').
Proof.
  destruct (writeJson_readJson sampleParse sampleStringify (fun p => p)
              "/tmp/c.json" patchedUserConfig sampleWorld eq_refl)
    as (w' & Hwrite & Hread & _).
  by exists w'.
Defined.

Lemma patch_sets_leaves_witness :
  exists w' merged,
    patchOpenClawConfig sampleConfigPath sampleParse sampleStringify (fun p => p)
      "sk-1" 1700 sampleWorld = (Ok (), w')
    /\ files w' !! sampleConfigPath = Some (sampleStringify (JObj merged) +:+ newline)
    /\ getPath ["models"; "providers"; "sansa-ai"; "apiKey"] (JObj merged)
       = Some (JStr "sk-1").
Proof.
  apply (patch_sets_leaves sampleConfigPath sampleParse sampleStringify (fun p => p)
           "sk-1" 1700 sampleWorld
           ["models"; "providers"; "sansa-ai"; "apiKey"] (JStr "sk-1"));
    reflexivity.
Defined.

Lemma patch_twice_witness :
  exists w1 w2,
    patchOpenClawConfig sampleConfigPath sampleParse sampleStringify (fun p => p)
      "sk-1" 1700 sampleWorld = (Ok (), w1)
    /\ patchOpenClawConfig sampleConfigPath sampleParse sampleStringify (fun p => p)
         "sk-1" 1800 w1 = (Ok (), w2)
    /\ files w2 !! sampleConfigPath = files w1 !! sampleConfigPath.
Proof.
  destruct (patch_twice sampleConfigPath sampleParse sampleStringify (fun p => p)
              "sk-1" 1700 1800 sampleWorld)
    as (w1 & w2 & H1 & H2 & Hf1 & Hf2 & _).
  - vm_compute. reflexivity.
  - exists w1, w2. split; [done|]. split; [done|]. by rewrite Hf1, Hf2.
Defined.

Lemma unusable_config_replaced_witness :
  exists w',
    patchOpenClawConfig sampleConfigPath sampleParse sampleStringify (fun p => p)
      "sk-1" 1700 (mkWorld {[ sampleConfigPath := "{ not json" ]} []) = (Ok (), w')
    /\ files w' !! backupPath sampleConfigPath 1700 = Some "{ not json".
Proof.
  destruct (unusable_config_replaced sampleConfigPath sampleParse sampleStringify
              (fun p => p) "sk-1" 1700
              (mkWorld {[ sampleConfigPath := "{ not json" ]} []))
    as (w' & Hrun & _ & Hbackup).
  - intros original Hfile. vm_compute in Hfile. injection Hfile as <-. by left.
  - exists w'. split; [done|]. by apply Hbackup.
Defined.

Lemma createSansaConfig_once_witness :
  exists w1,
    createSansaConfig "/home/u/.openclaw/sansa.json" sampleParse sampleStringify
      (fun p => p) sampleWorld = (Ok (), w1)
    /\ createSansaConfig "/home/u/.openclaw/sansa.json" sampleParse sampleStringify
         (fun p => p) w1 = (Ok (), w1).
Proof.
  destruct (createSansaConfig_once "/home/u/.openclaw/sansa.json" sampleParse
              sampleStringify (fun p => p) sampleWorld eq_refl)
    as (w1 & H1 & _ & _ & _ & H2).
  by exists w1.
Defined.

Lemma getWorkspacePath_cases_witness :
  getWorkspacePath sampleConfigPath sampleParse sampleWorld
  = (Ok "/home/u/work", sampleWorld).
Proof.
  destruct (getWorkspacePath_cases sampleConfigPath sampleParse "/home/u/.openclaw"
              sampleWorld eq_refl eq_refl)
    as (answer & Hrun & Hnamed & _).
  rewrite Hrun. by rewrite (Hnamed "/home/u/work").
Defined.

Lemma workspace_stable_witness :
  exists w1 answer,
    patchOpenClawConfig sampleConfigPath sampleParse sampleStringify (fun p => p)
      "sk-1" 1700 sampleWorld = (Ok (), w1)
    /\ getWorkspacePath sampleConfigPath sampleParse sampleWorld
       = (Ok answer, sampleWorld)
    /\ getWorkspacePath sampleConfigPath sampleParse w1 = (Ok answer, w1).
Proof.
  apply (workspace_stable sampleConfigPath sampleParse sampleStringify (fun p => p)
           "sk-1" 1700 sampleWorld).
  - reflexivity.
  - vm_compute. reflexivity.
Defined.

Lemma updateHeartbeat_once_witness :
  exists w1,
    updateHeartbeat sampleConfigPath sampleParse sampleWorld = (Ok (), w1)
    /\ updateHeartbeat sampleConfigPath sampleParse w1 = (Ok (), w1).
Proof.
  destruct (updateHeartbeat_once sampleConfigPath sampleParse sampleWorld)
    as (w1 & content & H1 & _ & _ & _ & _ & H2).
  - vm_compute. discriminate.
  - by exists w1.
Defined.

End Installer.

(* ===================================================================== *)
(** * More on the scan of the savings tracker                             *)
(* ===================================================================== *)

Module ScanRobustness.
Import SavingsTracker.

(** A line that carries no usage block: blank, rejected by [JSON.parse],
    or an entry that is [null], has no [message], or whose
    [message.usage] is missing or falsy. *)
Definition noUsage (line : Line) : bool :=
  match line with
  | Blank | Malformed => true
  | Decoded entry =>
      match getField entry "message" with
      | Throw => true
      | Ok message => negb (truthy (getFieldOpt message "usage"))
      end
  end.

(** A number or a string: what [+=] leaves in a total. *)
Definition primitive (v : value) : bool :=
  match v with
  | JNum _ | JStr _ => true
  | _ => false
  end.

Definition primitiveTotals (t : Tokens) : Prop :=
  primitive (inputTokens t) = true /\ primitive (outputTokens t) = true.

Definition primitiveState (s : State) : Prop :=
  primitive (lifetimeInput s) = true /\ primitive (lifetimeOutput s) = true.

Section Robustness.
Variable StringToNumber : string -> option Z.
Implicit Types (acc : Tokens) (line : Line) (file : SessionFile) (c a b : Z).

Abbreviation scanEntry := (scanEntry StringToNumber).
Abbreviation scanLine := (scanLine StringToNumber).
Abbreviation scanFile := (scanFile StringToNumber).
Abbreviation scanSessionLogs := (scanSessionLogs StringToNumber).
Abbreviation run := (run StringToNumber).
Abbreviation runs := (runs StringToNumber).

(** ** Lines and files that are passed over *)

Lemma scanLine_noUsage c acc line : noUsage line = true -> scanLine c acc line = acc.
Proof.
  destruct line as [| |entry]; try done. simpl.
  unfold SavingsTracker.scanEntry, selectUsage.
  destruct (getField entry "message") as [message|]; [|done].
  destruct (getFieldOpt message "usage") as [usage|]; [|done].
  by intros ->.
Qed.

Lemma scanLines_without c l1 l2 line acc :
  (forall acc', scanLine c acc' line = acc') ->
  fold_left (scanLine c) (l1 ++ line :: l2) acc = fold_left (scanLine c) (l1 ++ l2) acc.
Proof. intros H. rewrite !fold_left_app. simpl. by rewrite H. Qed.

(** X17.  A line that carries no usage block changes no total, whatever
    the totals hold when it is met and whatever the cutoff: blank lines,
    entries that are [null] or have no [message], and entries whose
    [message.usage] is missing, [null], [false], [0] or the empty string
    can be taken out of a file without changing the scan. *)
Theorem line_without_usage_ignored c pre post name isDir fpre fpost fname mtime
    l1 l2 line :
  noUsage line = true ->
  scanSessionLogs c
    (Some (pre ++ mkAgent name isDir
             (Some (fpre ++ mkFile fname mtime (l1 ++ line :: l2) :: fpost))
           :: post)) =
  scanSessionLogs c
    (Some (pre ++ mkAgent name isDir
             (Some (fpre ++ mkFile fname mtime (l1 ++ l2) :: fpost))
           :: post)).
Proof.
  intros Hline. rewrite !scan_around_file. cbn [fileName]. f_equal.
  destruct (isDir && endsWith fname ".jsonl"); [|done].
  cbn [fold_left]. unfold SavingsTracker.scanFile. cbn [mtimeMs lines].
  destruct (mtime <? c); [done|]. apply scanLines_without.
  intros acc'. by apply scanLine_noUsage.
Qed.

(** X18.  A file last modified before the cutoff is never read: whatever
    its lines hold, the scan returns what it returns on the store without
    the file. *)
Theorem old_file_not_read c pre post name isDir fpre fpost file :
  mtimeMs file < c ->
  scanSessionLogs c
    (Some (pre ++ mkAgent name isDir (Some (fpre ++ file :: fpost)) :: post)) =
  scanSessionLogs c
    (Some (pre ++ mkAgent name isDir (Some (fpre ++ fpost)) :: post)).
Proof.
  intros Hold. rewrite !scanSessionLogs_files.
  rewrite !scannedFiles_app, !scannedFiles_cons. cbn [isDirectory sessions].
  destruct isDir; [|done].
  rewrite !jsonlFiles_app, jsonlFiles_cons.
  destruct (endsWith (fileName file) ".jsonl"); [|done].
  rewrite <- !app_assoc, !fold_left_app. cbn [fold_left].
  unfold SavingsTracker.scanFile at 3.
  by rewrite (proj2 (Z.ltb_lt _ _) Hold).
Qed.

(** ** What the totals hold *)

Lemma add_primitive (x y r : value) : add x y = Ok r -> primitive r = true.
Proof.
  unfold add. destruct (toPrimitive x) as [px|]; [|done].
  destruct (toPrimitive y) as [py|]; [|done]. simpl. intros H.
  destruct px, py; cbn -[toString] in H;
    repeat match type of H with
           | context [toString ?v] => destruct (toString v); cbn -[toString] in H
           end; try discriminate; by injection H as <-.
Qed.

Lemma add_primitives (x y : value) :
  primitive x = true -> primitive y = true ->
  exists r, add x y = Ok r /\ primitive r = true.
Proof. destruct x, y; try done; intros _ _; by eexists. Qed.

Lemma accumulate_primitive acc usage :
  primitiveTotals acc -> primitiveTotals (accumulate acc usage).
Proof.
  intros [Hi Ho]. unfold accumulate.
  destruct (add (inputTokens acc) _) as [i|] eqn:Hadd; [|done].
  apply add_primitive in Hadd.
  destruct (add (outputTokens acc) _) as [o|] eqn:Hadd'; [|done].
  apply add_primitive in Hadd'. done.
Qed.

Lemma scanLine_primitive c acc line :
  primitiveTotals acc -> primitiveTotals (scanLine c acc line).
Proof.
  destruct line as [| |entry]; try done. simpl. unfold SavingsTracker.scanEntry.
  destruct (selectUsage _ c entry); [apply accumulate_primitive|done].
Qed.

Lemma scanFile_primitive c acc file :
  primitiveTotals acc -> primitiveTotals (scanFile c acc file).
Proof.
  unfold SavingsTracker.scanFile. destruct (mtimeMs file <? c); [done|].
  revert acc. induction (lines file) as [|line ls IH]; intros acc H; [done|].
  simpl. by apply IH, scanLine_primitive.
Qed.

Lemma scanSessionLogs_primitive c agentsDir :
  primitiveTotals (scanSessionLogs c agentsDir).
Proof.
  rewrite scanSessionLogs_files.
  assert (primitiveTotals (mkTokens (JNum 0) (JNum 0))) as H by done.
  revert H. generalize (mkTokens (JNum 0) (JNum 0)).
  induction (scannedFiles agentsDir) as [|file files IH]; intros acc H; [done|].
  simpl. by apply IH, scanFile_primitive.
Qed.

Lemma run_primitive state agentsDir now :
  primitiveState state ->
  exists tokens state',
    run state agentsDir now = Ok (tokens, state')
    /\ tokens = scanSessionLogs (sinceMsOf state) agentsDir
    /\ lastReportedAt state' = now
    /\ primitiveState state'.
Proof.
  intros [Hi Ho]. unfold SavingsTracker.run, checkpoint.
  destruct (scanSessionLogs_primitive (sinceMsOf state) agentsDir) as [Hti Hto].
  destruct (add_primitives _ _ Hi Hti) as (i & -> & Hi').
  destruct (add_primitives _ _ Ho Hto) as (o & -> & Ho').
  simpl. by eexists _, _.
Qed.

(** X19.  Whatever the session logs hold and whatever the cutoff, each of
    the two totals of a scan is a number or a string: never [null], an
    object or an array. *)
Theorem scan_totals_primitive c agentsDir :
  primitiveTotals (scanSessionLogs c agentsDir).
Proof. apply scanSessionLogs_primitive. Qed.


(** ** The cutoff and the order of the files *)

Lemma window_line_mono c c' line :
  c <= c' ->
  (forall r, recordOf line = Some r -> 0 <= recInputTokens r /\ 0 <= recOutputTokens r) ->
  windowInput c' [line] <= windowInput c [line]
  /\ windowOutput c' [line] <= windowOutput c [line].
Proof.
  intros Hc Hpos.
  pose proof (window_single c line) as H. pose proof (window_single c' line) as H'.
  destruct (recordOf line) as [r|].
  - destruct (Hpos r eq_refl) as [Hi Ho]. unfold inWindow in H, H'.
    destruct (Z.ltb_spec (timestampMillis r) c), (Z.ltb_spec (timestampMillis r) c');
      simpl in H, H'; injection H as -> ->; injection H' as -> ->; lia.
  - injection H as -> ->. injection H' as -> ->. lia.
Qed.

Lemma window_lines_mono c c' ls :
  c <= c' ->
  (forall line r, line ∈ ls -> recordOf line = Some r ->
                  0 <= recInputTokens r /\ 0 <= recOutputTokens r) ->
  windowInput c' ls <= windowInput c ls /\ windowOutput c' ls <= windowOutput c ls.
Proof.
  intros Hc. induction ls as [|line ls IH]; intros Hpos; [done|].
  rewrite (windowInput_cons c), (windowInput_cons c'),
    (windowOutput_cons c), (windowOutput_cons c').
  destruct (window_line_mono c c' line Hc) as [Hi Ho].
  { intros r. apply Hpos. left. }
  destruct IH as [Hi' Ho']; [|lia].
  intros l r Hl. apply Hpos. by right.
Qed.

Lemma window_files_mono c c' files :
  c <= c' ->
  (forall line r, line ∈ concat (map lines files) -> recordOf line = Some r ->
                  0 <= recInputTokens r /\ 0 <= recOutputTokens r) ->
  windowInput c' (linesRead c' files) <= windowInput c (linesRead c files)
  /\ windowOutput c' (linesRead c' files) <= windowOutput c (linesRead c files).
Proof.
  intros Hc. induction files as [|file files IH]; intros Hpos; [done|].
  unfold linesRead. simpl. fold (linesRead c files) (linesRead c' files).
  rewrite !windowInput_app, !windowOutput_app.
  destruct IH as [Hi Ho].
  { intros l r Hl. apply Hpos. simpl. apply elem_of_app. by right. }
  assert (forall line r, line ∈ lines file -> recordOf line = Some r ->
                         0 <= recInputTokens r /\ 0 <= recOutputTokens r) as Hfile.
  { intros l r Hl. apply Hpos. simpl. apply elem_of_app. by left. }
  destruct (Z.ltb_spec (mtimeMs file) c), (Z.ltb_spec (mtimeMs file) c'); try lia.
  - rewrite !windowInput_nil, !windowOutput_nil. lia.
  - destruct (window_nonneg c (lines file) Hfile).
    rewrite !windowInput_nil, !windowOutput_nil. lia.
  - destruct (window_lines_mono c c' (lines file) Hc Hfile). lia.
Qed.

Lemma usageStore_read c agentsDir :
  usageStore agentsDir ->
  Forall (fun line => wellTyped line = true) (linesRead c (scannedFiles agentsDir)).
Proof.
  intros Hstore. apply Forall_forall. intros line Hl.
  by apply Hstore, (linesRead_subset c).
Qed.

(** X22.  A later cutoff never counts more.  On a store of usage records
    (numeric fields, no negative count) the totals of a scan are
    non-negative numbers, and each is at most the total of a scan of the
    same store with an earlier cutoff. *)
Theorem later_cutoff_counts_less c c' agentsDir :
  c <= c' ->
  usageStore agentsDir ->
  exists i o i' o',
    scanSessionLogs c agentsDir = mkTokens (JNum i) (JNum o)
    /\ scanSessionLogs c' agentsDir = mkTokens (JNum i') (JNum o')
    /\ 0 <= i' <= i /\ 0 <= o' <= o.
Proof.
  intros Hc Hstore.
  rewrite (scan_totals _ c), (scan_totals _ c') by by apply usageStore_read.
  eexists _, _, _, _. split; [done|]. split; [done|].
  assert (forall line r, line ∈ concat (map lines (scannedFiles agentsDir)) ->
                         recordOf line = Some r ->
                         0 <= recInputTokens r /\ 0 <= recOutputTokens r) as Hpos.
  { intros line r Hl. by apply Hstore. }
  destruct (window_files_mono c c' (scannedFiles agentsDir) Hc Hpos).
  destruct (window_nonneg c' (linesRead c' (scannedFiles agentsDir))).
  { intros line r Hl. apply Hpos. by eapply linesRead_subset. }
  lia.
Qed.

Lemma linesRead_Permutation c files files' :
  files ≡ₚ files' -> linesRead c files ≡ₚ linesRead c files'.
Proof.
  unfold linesRead. induction 1 as [|file ?? _ IH|file1 file2 ?|??? _ IH1 _ IH2]; simpl.
  - done.
  - by rewrite IH.
  - rewrite !app_assoc. f_equiv. apply Permutation_app_comm.
  - by rewrite IH1.
Qed.

Lemma window_Permutation c ls ls' :
  ls ≡ₚ ls' -> windowInput c ls = windowInput c ls' /\ windowOutput c ls = windowOutput c ls'.
Proof.
  intros Hp. rewrite !windowInput_records, !windowOutput_records.
  pose proof (recordsWithin_Permutation c _ _ Hp) as Hr.
  split; apply sumZ_Permutation; by rewrite Hr.
Qed.


End Robustness.

(** ** Sample stores *)

Definition firstRecord : Line := Decoded (usageEntry (Some (JNum 1200)) (JNum 10) (JNum 4)).
Definition secondRecord : Line := Decoded (usageEntry (Some (JNum 1700)) (JNum 7) (JNum 3)).

(** Two agents with one session file each. *)
Definition twoAgents : option (list AgentEntry) :=
  Some [mkAgent "main" true (Some [mkFile "a.jsonl" 1200 [firstRecord]]);
        mkAgent "helper" true (Some [mkFile "b.jsonl" 1700 [secondRecord]])].

Definition twoAgentsSwapped : option (list AgentEntry) :=
  Some [mkAgent "helper" true (Some [mkFile "b.jsonl" 1700 [secondRecord]]);
        mkAgent "main" true (Some [mkFile "a.jsonl" 1200 [firstRecord]])].

Lemma line_without_usage_ignored_witness :
  scanSessionLogs noNumericString 0
    (Some ([] ++ mkAgent "main" true
             (Some ([] ++ mkFile "a.jsonl" 1200
                             ([firstRecord]
                              ++ Decoded (JObj [("type", JStr "session")]) :: [])
                          :: []))
           :: []))
  = scanSessionLogs noNumericString 0
      (Some ([] ++ mkAgent "main" true
               (Some ([] ++ mkFile "a.jsonl" 1200 ([firstRecord] ++ []) :: []))
             :: [])).
Proof.
  apply (line_without_usage_ignored noNumericString 0 [] [] "main" true [] []
           "a.jsonl" 1200 [firstRecord] []
           (Decoded (JObj [("type", JStr "session")]))).
  reflexivity.
Defined.

Lemma old_file_not_read_witness :
  scanSessionLogs noNumericString 1500
    (Some ([] ++ mkAgent "main" true
             (Some ([] ++ mkFile "a.jsonl" 1200 [secondRecord] :: []))
           :: []))
  = scanSessionLogs noNumericString 1500
      (Some ([] ++ mkAgent "main" true (Some ([] ++ [])) :: [])).
Proof.
  apply (old_file_not_read noNumericString 1500 [] [] "main" true [] []
           (mkFile "a.jsonl" 1200 [secondRecord])).
  simpl. lia.
Defined.


Lemma later_cutoff_counts_less_witness :
  exists i o i' o',
    scanSessionLogs noNumericString 0 twoAgents = mkTokens (JNum i) (JNum o)
    /\ scanSessionLogs noNumericString 1500 twoAgents = mkTokens (JNum i') (JNum o')
    /\ 0 <= i' <= i /\ 0 <= o' <= o.
Proof.
  apply (later_cutoff_counts_less noNumericString 0 1500 twoAgents).
  - lia.
  - intros line Hl; vm_compute in Hl;
      repeat (apply elem_of_cons in Hl as [->|Hl]);
      try (by apply elem_of_nil in Hl);
      (split; [reflexivity|]);
      intros r Hr; vm_compute in Hr; injection Hr as <-; vm_compute; split; discriminate.
Defined.


End ScanRobustness.

(* ===================================================================== *)
(** * The savings tracker from its state file to its state file          *)
(* ===================================================================== *)

Module TrackerScript.
Import SavingsTracker ScanRobustness.

(** ** The agents directory as the file system has it *)

(** An entry of a [sessions] directory: a regular file; a directory,
    which [statSync] describes and [readFileSync] refuses; a link to
    nothing, which [statSync] refuses. *)
Inductive SessionsEntry :=
| RegularFile (file : SessionFile)
| Folder (name : string) (mtime : Z)
| DanglingLink (name : string).

Definition nameOf (e : SessionsEntry) : string :=
  match e with
  | RegularFile file => fileName file
  | Folder name _ => name
  | DanglingLink name => name
  end.

(** [<AGENTS_DIR>/<name>/sessions]: missing; there but no directory, which
    [readdirSync] refuses; or a directory with its entries. *)
Inductive SessionsPath :=
| NoSessions
| SessionsNoDirectory
| SessionsDirectory (entries : list SessionsEntry).

(** An entry of [AGENTS_DIR], with what [Dirent.isDirectory] answers. *)
Record AgentPath := mkAgentPath {
  agentName : string;
  agentIsDirectory : bool;
  agentSessions : SessionsPath
}.

(** [AGENTS_DIR]: missing; there but no directory; or a directory. *)
Inductive AgentsPath :=
| NoAgents
| AgentsNoDirectory
| AgentsDirectory (entries : list AgentPath).

(** A store of regular files, as the file system has it. *)
Definition onDisk (agentsDir : option (list AgentEntry)) : AgentsPath :=
  match agentsDir with
  | None => NoAgents
  | Some entries =>
      AgentsDirectory
        (map (fun a =>
                mkAgentPath (entryName a) (isDirectory a)
                  match sessions a with
                  | None => NoSessions
                  | Some files => SessionsDirectory (map RegularFile files)
                  end)
             entries)
  end.

(** A loop whose body may throw. *)
Fixpoint foldThrowing {A B} (body : A -> B -> outcome A) (l : list B) (a : A)
  : outcome A :=
  match l with
  | [] => Ok a
  | x :: rest => a' ← body a x; foldThrowing body rest a'
  end.

Section Conversion.
Context {Num : Type}.

(** [ToPrimitive] returns on a value of a parsed document: it throws on
    an object whose own [toString] property hides the inherited method,
    and on an array whose join meets such an object
    (see [SavingsTracker.toString]). *)
Fixpoint convertible (v : json Num) : bool :=
  match v with
  | JObj o =>
      match getOwn o "toString" with
      | Some _ => false
      | None => true
      end
  | JArr xs =>
      (fix each (xs : list (json Num)) : bool :=
         match xs with
         | [] => true
         | x :: rest =>
             match x with JNull => true | _ => convertible x end && each rest
         end) xs
  | _ => true
  end.

(** [v.name] on a value that is not nullish, for the names [computeCosts]
    reads: an object answers with its own property, and no other value has
    a property of these names. *)
Definition member (v : json Num) (name : string) : jsval Num :=
  match v with
  | JObj o => getOwn o name
  | _ => None
  end.

(** A factor of a product: [undefined] is [NaN], every other value goes
    through [ToPrimitive]. *)
Definition factor (v : jsval Num) : bool :=
  match v with
  | None => true
  | Some v => convertible v
  end.

(** Whether the two products with the rates of a pricing table return:
    reading a rate of a table that is [undefined] or [null] throws. *)
Definition ratesReturn (table : jsval Num) : bool :=
  match table with
  | None | Some JNull => false
  | Some t =>
      factor (member t "inputCostPerMillion")
      && factor (member t "outputCostPerMillion")
  end.

End Conversion.

Section Costs.
Context {Num : Type}.

(** Whether [computeCosts(tokens, config)] returns.
    [const { baseline, sansa } = config] throws on [null]; each of the
    four products reads a rate of its table and converts its two
    factors. *)
Definition computeCostsReturns (tokens : Tokens) (config : json Num) : bool :=
  match config with
  | JNull => false
  | _ =>
      factor (Some (inputTokens tokens))
      && factor (Some (outputTokens tokens))
      && ratesReturn (member config "baseline")
      && ratesReturn (member config "sansa")
  end.

(** The same for totals that convert, as the totals of a scan and the
    counters of a state do. *)
Definition configReturns (config : json Num) : bool :=
  computeCostsReturns (mkTokens (JNum 0) (JNum 0)) config.

Section Script.
Variable StringToNumber : string -> option Z.

(** The main body of the script from [loadState] to [saveState], for the
    configuration [loadSansaConfig] returned: the scan, the checkpoint
    update, then the costs of the period and of the lifetime counters.
    The reports are printed from numbers and strings, which does not
    throw; the state is handed to [saveState] when both calls of
    [computeCosts] have returned. *)
Definition script (config : json Num) (state : State)
    (agentsDir : option (list AgentEntry)) (now : Z) : outcome (Tokens * State) :=
  r ← run StringToNumber state agentsDir now;
  let lifetime := mkTokens (lifetimeInput r.2) (lifetimeOutput r.2) in
  if computeCostsReturns r.1 config && computeCostsReturns lifetime config
  then Ok r
  else Throw.

(** [scanSessionLogs] with the file system calls that no [try] guards:
    [readdirSync] of [AGENTS_DIR] and of each [sessions] path,
    [statSync] and [readFileSync] of each name ending in [.jsonl]. *)
Definition scanEntryOnDisk (sinceMs : Z) (acc : Tokens) (e : SessionsEntry)
  : outcome Tokens :=
  match e with
  | RegularFile file => Ok (scanFile StringToNumber sinceMs acc file)
  | Folder _ mtime => if mtime <? sinceMs then Ok acc else Throw
  | DanglingLink _ => Throw
  end.

Definition scanSessionsOnDisk (sinceMs : Z) (acc : Tokens) (p : SessionsPath)
  : outcome Tokens :=
  match p with
  | NoSessions => Ok acc
  | SessionsNoDirectory => Throw
  | SessionsDirectory entries =>
      let files := filter (fun e => endsWith (nameOf e) ".jsonl" = true) entries in
      foldThrowing (scanEntryOnDisk sinceMs) files acc
  end.

Definition scanSessionLogsOnDisk (sinceMs : Z) (p : AgentsPath) : outcome Tokens :=
  let acc := mkTokens (JNum 0) (JNum 0) in
  match p with
  | NoAgents => Ok acc
  | AgentsNoDirectory => Throw
  | AgentsDirectory entries =>
      let agentDirs :=
        map agentSessions (filter (fun d => agentIsDirectory d = true) entries) in
      foldThrowing (scanSessionsOnDisk sinceMs) agentDirs acc
  end.

(** The entries at which a file system call of the scan throws. *)
Definition entryRefused (sinceMs : Z) (e : SessionsEntry) : bool :=
  endsWith (nameOf e) ".jsonl"
  && match e with
     | RegularFile _ => false
     | Folder _ mtime => negb (mtime <? sinceMs)
     | DanglingLink _ => true
     end.

Definition sessionsRefused (sinceMs : Z) (p : SessionsPath) : bool :=
  match p with
  | NoSessions => false
  | SessionsNoDirectory => true
  | SessionsDirectory entries => existsb (entryRefused sinceMs) entries
  end.

Definition scanRefused (sinceMs : Z) (p : AgentsPath) : bool :=
  match p with
  | NoAgents => false
  | AgentsNoDirectory => true
  | AgentsDirectory entries =>
      existsb (fun d => agentIsDirectory d && sessionsRefused sinceMs (agentSessions d))
        entries
  end.

(** The main body of the script from [loadState] to [saveState], on the
    file system: the scan, the checkpoint update and the two calls of
    [computeCosts]. *)
Definition scriptOnDisk (config : json Num) (state : State) (p : AgentsPath) (now : Z)
  : outcome (Tokens * State) :=
  tokens ← scanSessionLogsOnDisk (sinceMsOf state) p;
  state' ← checkpoint state tokens now;
  let lifetime := mkTokens (lifetimeInput state') (lifetimeOutput state') in
  if computeCostsReturns tokens config && computeCostsReturns lifetime config
  then Ok (tokens, state')
  else Throw.

(** The state in the state file after a run: the state of the run when
    the script reached [saveState], the state before it otherwise. *)
Definition saved (config : json Num) (state : State)
    (agentsDir : option (list AgentEntry)) (now : Z) : State :=
  match script config state agentsDir now with
  | Ok r => r.2
  | Throw => state
  end.

(** The state file after each run of a schedule, oldest first. *)
Fixpoint cycles (config : json Num) (state : State)
    (schedule : list (option (list AgentEntry) * Z)) : list State :=
  match schedule with
  | [] => []
  | (agentsDir, now) :: rest =>
      let state' := saved config state agentsDir now in
      state' :: cycles config state' rest
  end.

(** [state'] is [state] with the totals of the scan of [agentsDir] from
    the checkpoint of [state] added to its counters, and [now] as its
    checkpoint. *)
Definition accounted (state : State) (agentsDir : option (list AgentEntry))
    (now : Z) (state' : State) : Prop :=
  exists a b i o,
    lifetimeInput state = JNum a /\ lifetimeOutput state = JNum b
    /\ scanSessionLogs StringToNumber (sinceMsOf state) agentsDir
       = mkTokens (JNum i) (JNum o)
    /\ 0 <= i /\ 0 <= o
    /\ state' = mkState now (JNum (a + i)) (JNum (b + o)).

(** Every state of [states] is accounted for from the one before it. *)
Fixpoint chained (state : State) (schedule : list (option (list AgentEntry) * Z))
    (states : list State) : Prop :=
  match schedule, states with
  | [], [] => True
  | (agentsDir, now) :: rest, state' :: states' =>
      accounted state agentsDir now state' /\ chained state' rest states'
  | _, _ => False
  end.

(** The counts of a store add up exactly: their magnitudes add up to 2^53
    at most, for each direction, so that every partial sum of a scan is an
    integer that a Number holds, whatever the cutoff. *)
Definition exactStore (agentsDir : option (list AgentEntry)) : Prop :=
  sumZ (map (fun r => Z.abs (recInputTokens r)) (omap recordOf (scannedLines agentsDir)))
  <= 2 ^ 53
  /\ sumZ (map (fun r => Z.abs (recOutputTokens r)) (omap recordOf (scannedLines agentsDir)))
     <= 2 ^ 53.

(** The counters of a state are integers that a Number holds exactly. *)
Definition exactCounters (state : State) : Prop :=
  exists a b,
    lifetimeInput state = JNum a /\ lifetimeOutput state = JNum b
    /\ Z.abs a <= 2 ^ 53 /\ Z.abs b <= 2 ^ 53.

(** ** The script from a state with counters that are numbers or strings *)

Lemma computeCostsReturns_primitive tokens config :
  primitiveTotals tokens -> computeCostsReturns tokens config = configReturns config.
Proof.
  intros [Hi Ho]. unfold configReturns, computeCostsReturns.
  destruct tokens as [i o]. simpl in *.
  destruct config; try done; by destruct i, o.
Qed.

Lemma script_primitive config state agentsDir now :
  primitiveState state ->
  exists tokens state',
    run StringToNumber state agentsDir now = Ok (tokens, state')
    /\ tokens = scanSessionLogs StringToNumber (sinceMsOf state) agentsDir
    /\ lastReportedAt state' = now
    /\ primitiveState state'
    /\ script config state agentsDir now
       = if configReturns config then Ok (tokens, state') else Throw.
Proof.
  intros Hstate.
  destruct (run_primitive StringToNumber state agentsDir now Hstate)
    as (tokens & state' & Hrun & Htokens & Hnow & Hstate').
  exists tokens, state'. repeat (split; [done|]).
  unfold script. rewrite Hrun. cbn [mbind outcome_bind fst snd].
  rewrite !computeCostsReturns_primitive; [by destruct (configReturns config)|done|].
  subst tokens. apply scanSessionLogs_primitive.
Qed.

(** ** The script on the file system *)

Lemma foldThrowing_primitive {B} (body : Tokens -> B -> outcome Tokens)
    (refused : B -> bool) (l : list B) :
  (forall acc x, primitiveTotals acc ->
     if refused x then body acc x = Throw
     else exists acc', body acc x = Ok acc' /\ primitiveTotals acc') ->
  forall acc, primitiveTotals acc ->
    if existsb refused l then foldThrowing body l acc = Throw
    else exists acc', foldThrowing body l acc = Ok acc' /\ primitiveTotals acc'.
Proof.
  intros Hbody. induction l as [|x l IH]; intros acc Hacc; simpl.
  - by exists acc.
  - specialize (Hbody acc x Hacc). destruct (refused x); simpl.
    + by rewrite Hbody.
    + destruct Hbody as (acc' & -> & Hacc'). simpl. by apply IH.
Qed.

Lemma existsb_filter {B} (keep refused : B -> bool) (l : list B) :
  existsb refused (filter (fun x => keep x = true) l)
  = existsb (fun x => keep x && refused x) l.
Proof.
  induction l as [|x l IH]; [done|]. rewrite filter_cons. simpl.
  destruct (decide (keep x = true)) as [Hk|Hk]; simpl.
  - by rewrite Hk, IH.
  - apply not_true_is_false in Hk. by rewrite Hk.
Qed.

Lemma existsb_fmap {B C} (refused : C -> bool) (g : B -> C) (l : list B) :
  existsb refused (map g l) = existsb (fun x => refused (g x)) l.
Proof. induction l as [|x l IH]; [done|]. simpl. by rewrite IH. Qed.

Lemma scanSessionsOnDisk_refused c acc p :
  primitiveTotals acc ->
  if sessionsRefused c p then scanSessionsOnDisk c acc p = Throw
  else exists acc', scanSessionsOnDisk c acc p = Ok acc' /\ primitiveTotals acc'.
Proof.
  intros Hacc. destruct p as [| |entries]; simpl; [by exists acc|done|].
  rewrite <- (existsb_filter (fun e => endsWith (nameOf e) ".jsonl")
                (fun e => match e with
                          | RegularFile _ => false
                          | Folder _ mtime => negb (mtime <? c)
                          | DanglingLink _ => true
                          end)).
  apply foldThrowing_primitive; [|done].
  intros acc0 [file|name mtime|name] Hacc0; simpl; [| |done].
  - eexists. split; [done|]. by apply scanFile_primitive.
  - destruct (mtime <? c); simpl; [by exists acc0|done].
Qed.

Lemma scanSessionLogsOnDisk_refused c p :
  if scanRefused c p then scanSessionLogsOnDisk c p = Throw
  else exists tokens, scanSessionLogsOnDisk c p = Ok tokens /\ primitiveTotals tokens.
Proof.
  destruct p as [| |entries]; simpl; [by eexists|done|].
  rewrite <- (existsb_filter agentIsDirectory
                (fun d => sessionsRefused c (agentSessions d))).
  rewrite <- (existsb_fmap (sessionsRefused c) agentSessions).
  apply foldThrowing_primitive; [|done].
  intros acc x Hacc. by apply scanSessionsOnDisk_refused.
Qed.

Lemma foldThrowing_total {A B} (f : A -> B -> A) (l : list B) (a : A) :
  foldThrowing (fun a x => Ok (f a x)) l a = Ok (fold_left f l a).
Proof. revert a. induction l as [|x l IH]; intros a; [done|]. simpl. apply IH. Qed.

Lemma scanSessionsOnDisk_regular c acc (sessionsDir : option (list SessionFile)) :
  scanSessionsOnDisk c acc
    match sessionsDir with
    | None => NoSessions
    | Some files => SessionsDirectory (map RegularFile files)
    end
  = Ok (scanSessionsDir StringToNumber c acc sessionsDir).
Proof.
  destruct sessionsDir as [files|]; [|done]. simpl.
  assert (filter (fun e => endsWith (nameOf e) ".jsonl" = true) (map RegularFile files)
          = map RegularFile (filter (fun f => endsWith (fileName f) ".jsonl" = true) files))
    as ->.
  { induction files as [|f files IH]; [done|]. simpl. rewrite !filter_cons. simpl.
    destruct (decide (endsWith (fileName f) ".jsonl" = true)); simpl; by rewrite IH. }
  generalize (filter (fun f => endsWith (fileName f) ".jsonl" = true) files).
  intros l. revert acc. induction l as [|f l IH]; intros acc; [done|]. simpl. apply IH.
Qed.

Lemma scanSessionLogsOnDisk_regular c agentsDir :
  scanSessionLogsOnDisk c (onDisk agentsDir) = Ok (scanSessionLogs StringToNumber c agentsDir).
Proof.
  destruct agentsDir as [entries|]; [|done]. simpl. unfold agentDirs.
  generalize (mkTokens (JNum 0) (JNum 0)).
  induction entries as [|a entries IH]; intros acc; [done|].
  simpl. rewrite !filter_cons. simpl.
  destruct (decide (isDirectory a = true)); simpl; [|apply IH].
  rewrite scanSessionsOnDisk_regular. simpl. apply IH.
Qed.


(** ** The script on stores of usage records *)

Lemma scan_usageStore c agentsDir :
  usageStore agentsDir ->
  exists i o,
    scanSessionLogs StringToNumber c agentsDir = mkTokens (JNum i) (JNum o)
    /\ 0 <= i /\ 0 <= o.
Proof.
  intros Hstore.
  exists (windowInput c (linesRead c (scannedFiles agentsDir))),
         (windowOutput c (linesRead c (scannedFiles agentsDir))).
  split; [by apply scan_totals, usageStore_read|].
  apply window_nonneg. intros line r Hl. apply Hstore. by eapply linesRead_subset.
Qed.

Lemma saved_usageStore config state agentsDir now a b :
  lifetimeInput state = JNum a ->
  lifetimeOutput state = JNum b ->
  usageStore agentsDir ->
  if configReturns config
  then accounted state agentsDir now (saved config state agentsDir now)
  else saved config state agentsDir now = state.
Proof.
  intros Ha Hb Hstore.
  assert (primitiveState state) as Hprim.
  { unfold primitiveState. by rewrite Ha, Hb. }
  destruct (script_primitive config state agentsDir now Hprim)
    as (tokens & state' & Hrun & -> & _ & _ & Hscript).
  unfold saved. rewrite Hscript.
  destruct (configReturns config); [|done]. cbn [snd].
  destruct (scan_usageStore (sinceMsOf state) agentsDir Hstore) as (i & o & Hscan & Hi & Ho).
  exists a, b, i, o. repeat (split; [done|]).
  unfold SavingsTracker.run in Hrun. rewrite Hscan in Hrun.
  destruct state as [last li lo]. cbn in Ha, Hb. subst li lo.
  rewrite checkpoint_numbers in Hrun. by injection Hrun as <-.
Qed.

(** C4, as the code has it.  The checkpoint update adds the period totals
    to the lifetime counters and sets the checkpoint to the invocation
    time, for integer counters and totals whose sums a Number holds
    exactly.  Over a sequence of runs of the script, each from the state
    file the run before it left, on stores of usage records (counts are
    integers, none negative) and at clock readings that follow each other
    and are distinct:
    - when [computeCosts] returns for the configuration, every run saves
      the state before it with the totals of its scan added: the lifetime
      counters never decrease and the checkpoint increases strictly;
    - when [computeCosts] throws, no run saves a state: the state file
      stays as it was.
    Nothing is said of a store with a negative count or a count that is
    no integer. *)
Theorem checkpoint_accumulates :
  (forall last li lo i o now,
      Z.abs li + Z.abs i <= 2 ^ 53 ->
      Z.abs lo + Z.abs o <= 2 ^ 53 ->
      checkpoint (mkState last (JNum li) (JNum lo)) (mkTokens (JNum i) (JNum o)) now
      = Ok (mkState now (JNum (li + i)) (JNum (lo + o))))
  /\ (forall config state schedule,
      exactCounters state ->
      (forall store now, (store, now) ∈ schedule -> usageStore store /\ exactStore store) ->
      Sorted Z.le (lastReportedAt state :: map snd schedule) ->
      NoDup (lastReportedAt state :: map snd schedule) ->
      Forall exactCounters (cycles config state schedule) ->
      let states := cycles config state schedule in
      length states = length schedule
      /\ (configReturns config = true ->
          chained state schedule states /\ Sorted advances (state :: states))
      /\ (configReturns config = false -> Forall (fun s => s = state) states)).
Proof.
  split; [intros; apply checkpoint_numbers|].
  intros config state schedule. revert state.
  induction schedule as [|[store now] schedule IH];
    intros state Hexact Hstores Hsorted Hnodup Hall states.
  { repeat split; by repeat constructor. }
  subst states. cbn [cycles] in Hall |- *.
  apply Forall_cons in Hall as [Hexact' Hall].
  destruct Hexact as (a & b & Ha & Hb & _).
  assert (usageStore store) as Hstore by (eapply Hstores; left).
  pose proof (saved_usageStore config state store now a b Ha Hb Hstore) as Hsaved.
  cbn [map snd] in Hsorted, Hnodup.
  apply Sorted_inv in Hsorted as [Hsorted Hhd]. apply HdRel_inv in Hhd.
  apply NoDup_cons in Hnodup as [Hnotin Hnodup].
  assert (lastReportedAt state < now) as Hlater.
  { assert (lastReportedAt state <> now); [|lia].
    intros Heq. apply Hnotin. rewrite Heq. left. }
  set (state' := saved config state store now) in *.
  assert (forall store' now', (store', now') ∈ schedule ->
                              usageStore store' /\ exactStore store') as Hrest.
  { intros store' now' Hin. eapply Hstores. by right. }
  destruct (configReturns config) eqn:Hconfig.
  - destruct Hsaved as (a' & b' & i & o & Ha' & Hb' & Hscan & Hi & Ho & Hstate').
    assert (a' = a /\ b' = b) as [-> ->] by (split; congruence).
    destruct (IH state' Hexact' Hrest) as (Hlen & Hchain & _).
    { by rewrite Hstate'. }
    { by rewrite Hstate'. }
    { done. }
    destruct (Hchain eq_refl) as [Hchained Hadv].
    split; [simpl; by rewrite Hlen|]. split; [|done]. intros _. split.
    + split; [|done]. by exists a, b, i, o.
    + constructor; [done|]. constructor.
      exists a, b, (a + i), (b + o). rewrite Hstate'. cbn.
      repeat split; try done; lia.
  - assert (Sorted Z.le (lastReportedAt state :: map snd schedule)) as Hsorted'.
    { apply Sorted_inv in Hsorted as [Hsorted Hhd'].
      constructor; [done|]. destruct Hhd'; constructor. lia. }
    assert (NoDup (lastReportedAt state :: map snd schedule)) as Hnodup'.
    { apply NoDup_cons in Hnodup as [_ Hnodup]. constructor; [|done].
      intros Hin. apply Hnotin. by right. }
    rewrite Hsaved in Hexact', Hall |- *. clear state' Hsaved.
    destruct (IH state Hexact' Hrest Hsorted' Hnodup' Hall) as (Hlen & _ & Hsame).
    split; [simpl; by rewrite Hlen|]. split; [done|]. intros _.
    constructor; [done|]. by apply Hsame.
Qed.

End Script.
End Costs.

(** ** Concrete runs *)

(** What [loadSansaConfig] answers when [config.json] cannot be read or
    parsed. *)
Definition fallbackConfig : json Q :=
  JObj [("baseline",
         JObj [("inputCostPerMillion", JNum 10%Q); ("outputCostPerMillion", JNum 5%Q)]);
        ("sansa",
         JObj [("inputCostPerMillion", JNum 1.5%Q); ("outputCostPerMillion", JNum 6%Q)])].

(** [loadSansaConfig]; [file] is what [JSON.parse] made of [config.json],
    [None] when reading or parsing threw. *)
Definition loadSansaConfig (file : option (json Q)) : json Q :=
  match file with
  | Some config => config
  | None => fallbackConfig
  end.

Example fallbackConfig_returns : configReturns (loadSansaConfig None) = true.
Proof. reflexivity. Qed.

Example written_config_returns :
  configReturns (loadSansaConfig (Some Installer.defaultSansaConfig)) = true.
Proof. reflexivity. Qed.

(** A session file with one record older than the checkpoint 1500 and one
    record after it, and the same file one record later. *)
Definition morning : option (list AgentEntry) :=
  singleFileStore (mkFile "s1.jsonl" 1700 [firstRecord; secondRecord]).

Definition evening : option (list AgentEntry) :=
  singleFileStore
    (mkFile "s1.jsonl" 2600
       [firstRecord; secondRecord;
        Decoded (usageEntry (Some (JNum 2600)) (JNum 5) (JNum 2))]).

Ltac usage_store :=
  let line := fresh "line" in
  let Hl := fresh "Hl" in
  let r := fresh "r" in
  let Hr := fresh "Hr" in
  intros line Hl; vm_compute in Hl;
  repeat (apply elem_of_cons in Hl as [->|Hl]);
  try (by apply elem_of_nil in Hl);
  (split; [reflexivity|]);
  intros r Hr; vm_compute in Hr; injection Hr as <-; vm_compute; split; discriminate.

(** C4 as the specification words it fails.
    - A record with a negative count is summed like any other: from the
      counters 10 and 4, a run over a record of -7 input tokens saves the
      counter 3.
    - A count that is a string makes the totals of the scan and then the
      counter a string: 10 becomes the text 1007.
    - On a configuration without pricing tables [computeCosts] throws
      before [saveState]: the run at 2000 leaves the checkpoint 1000 in
      the state file. *)
Lemma negative_count_lowers_counter :
  let state := mkState 1000 (JNum 10) (JNum 4) in
  let store (input : value) :=
    singleFileStore
      (mkFile "s1.jsonl" 1500 [Decoded (usageEntry (Some (JNum 1200)) input (JNum 0))]) in
  (cycles noNumericString fallbackConfig state [(store (JNum (-7)), 2000)]
   = [mkState 2000 (JNum 3) (JNum 4)]
   /\ ~ advances state (mkState 2000 (JNum 3) (JNum 4)))
  /\ cycles noNumericString fallbackConfig state [(store (JStr "7"), 2000)]
     = [mkState 2000 (JStr "1007") (JNum 4)]
  /\ (cycles noNumericString (JObj [("savings_notifications", JBool true)] : json Q)
        state [(store (JNum 7), 2000)]
      = [state]
      /\ ~ advances state state).
Proof.
  cbv zeta. split; [split; [reflexivity|]|split; [reflexivity|split; [reflexivity|]]].
  - intros (a & b & a' & b' & Ha & _ & Ha' & _ & Hle & _).
    cbn in Ha, Ha'. injection Ha as <-. injection Ha' as <-. lia.
  - intros (a & b & a' & b' & _ & _ & _ & _ & _ & _ & Hlt). cbn in Hlt. lia.
Qed.

Lemma checkpoint_accumulates_witness :
  let schedule := [(morning, 2000); (evening, 3000)] in
  let states := cycles noNumericString fallbackConfig (mkState 1500 (JNum 10) (JNum 4))
                  schedule in
  states = [mkState 2000 (JNum 17) (JNum 7); mkState 3000 (JNum 22) (JNum 9)]
  /\ chained noNumericString (mkState 1500 (JNum 10) (JNum 4)) schedule states
  /\ Sorted advances (mkState 1500 (JNum 10) (JNum 4) :: states).
Proof.
  cbv zeta. split; [reflexivity|].
  refine (proj1 (proj2 (proj2 (checkpoint_accumulates noNumericString) fallbackConfig
    (mkState 1500 (JNum 10) (JNum 4)) [(morning, 2000); (evening, 3000)] _ _ _ _ _))
    eq_refl).
  - exists 10, 4. by vm_compute.
  - intros store now Hin.
    repeat (apply elem_of_cons in Hin as [Heq|Hin]); [| |by apply elem_of_nil in Hin];
      injection Heq as -> ->;
      (split; [usage_store|vm_compute; split; discriminate]).
  - repeat constructor; cbn; lia.
  - apply (bool_decide_unpack _). by vm_compute.
  - assert (cycles noNumericString fallbackConfig (mkState 1500 (JNum 10) (JNum 4))
              [(morning, 2000); (evening, 3000)]
            = [mkState 2000 (JNum 17) (JNum 7); mkState 3000 (JNum 22) (JNum 9)])
      as -> by reflexivity.
    repeat constructor; [exists 17, 7|exists 22, 9]; by vm_compute.
Defined.

(** A [sessions] directory that holds a directory named like a log. *)
Definition folderAmongLogs : AgentsPath :=
  AgentsDirectory
    [mkAgentPath "main" true
       (SessionsDirectory
          [RegularFile (mkFile "s1.jsonl" 1700 [firstRecord; secondRecord]);
           Folder "archive.jsonl" 1800])].


End TrackerScript.

(* ===================================================================== *)
(** * The selection menu of the installer ([arrowMenu])                   *)
(* ===================================================================== *)

Module Menu.

(** A menu item, and the escape codes handed to the menu. *)
Record MenuItem := mkItem { label : string; hint : option string }.
Record Ansi := mkAnsi { B : string; D : string; G : string; R : string }.

Definition esc : string := String (ascii_of_nat 27) "".
Definition HIDE_CURSOR : string := esc +:+ "[?25l".
Definition SHOW_CURSOR : string := esc +:+ "[?25h".
Definition lineFeed : string := String (ascii_of_nat 10) "".

(** The chunks of input the menu answers to. *)
Definition keyUp : string := esc +:+ "[A".
Definition keyDown : string := esc +:+ "[B".
Definition keyReturn : string := String (ascii_of_nat 13) "".
Definition keyCtrlC : string := String (ascii_of_nat 3) "".

(** The mark of the active item, U+203A, as its three bytes. *)
Definition pointer : string :=
  String (ascii_of_nat 226) (String (ascii_of_nat 128) (String (ascii_of_nat 186) "")).

(** [a % b] on integers; [None] is [NaN]. *)
Definition remainder (a : option Z) (b : Z) : option Z :=
  match a with
  | Some a => if b =? 0 then None else Some (Z.rem a b)
  | None => None
  end.

(** How a call of [arrowMenu] stands: waiting for a key, resolved with an
    index, or ended by [process.exit]. *)
Inductive Status :=
| Waiting
| Resolved (idx : option Z)
| Exited (code : Z).

(** The variable [cursor], the status, and what was written to stdout. *)
Record Terminal := mkTerminal {
  cursor : option Z;
  status : Status;
  written : list string
}.

Section ArrowMenu.
Variable items : list MenuItem.
Variable ansi : Ansi.

Definition count : Z := Z.of_nat (length items).

(** The writes of [renderLines], one per item. *)
Definition renderLines (cursor : option Z) : list string :=
  imap (fun i item =>
          let active := bool_decide (cursor = Some (Z.of_nat i)) in
          let indicator := if active then G ansi +:+ pointer +:+ R ansi else " " in
          let text := if active then B ansi +:+ label item +:+ R ansi else label item in
          let note := match hint item with
                      | Some h => if String.eqb h "" then ""
                                  else "  " +:+ D ansi +:+ h +:+ R ansi
                      | None => ""
                      end in
          "    " +:+ indicator +:+ "  " +:+ text +:+ note +:+ lineFeed)
       items.

(** The listener [onKey]; once the menu is resolved the listener is
    removed, and nothing runs after [process.exit]. *)
Definition onKey (t : Terminal) (key : string) : Terminal :=
  match status t with
  | Waiting =>
      let redraw (c : option Z) :=
        mkTerminal c Waiting
          (written t ++ [esc +:+ "[" +:+ pretty count +:+ "A"] ++ renderLines c) in
      if String.eqb key keyUp then
        redraw (remainder ((fun c => c - 1 + count) <$> cursor t) count)
      else if String.eqb key keyDown then
        redraw (remainder ((fun c => c + 1) <$> cursor t) count)
      else if String.eqb key keyReturn || String.eqb key lineFeed then
        mkTerminal (cursor t) (Resolved (cursor t))
          (written t ++ [SHOW_CURSOR +:+ lineFeed])
      else if String.eqb key keyCtrlC then
        mkTerminal (cursor t) (Exited 130) (written t ++ [SHOW_CURSOR +:+ lineFeed])
      else t
  | _ => t
  end.

(** [arrowMenu(items, ansi)] on the chunks that stdin delivers. *)
Definition arrowMenu (isTTY : bool) (keys : list string) : Terminal :=
  if isTTY then
    fold_left onKey keys
      (mkTerminal (Some 0) Waiting ([lineFeed +:+ HIDE_CURSOR] ++ renderLines (Some 0)))
  else mkTerminal (Some 0) (Resolved (Some 0)) [].

(** The cursor is the index of an item. *)
Definition onItem (c : option Z) : Prop :=
  exists i, c = Some i /\ 0 <= i < count.

Definition arrowKey (key : string) : Prop := key = keyUp \/ key = keyDown.

(** Downs less ups. *)
Fixpoint moves (keys : list string) : Z :=
  match keys with
  | [] => 0
  | key :: rest =>
      (if String.eqb key keyDown then 1 else if String.eqb key keyUp then -1 else 0)
      + moves rest
  end.

Lemma onKey_onItem t key :
  0 < count -> onItem (cursor t) -> onItem (cursor (onKey t key)).
Proof.
  intros Hn (i & Hc & Hi). unfold onKey.
  destruct (status t); [|by exists i..].
  assert ((count =? 0) = false) as Hz by lia.
  destruct (String.eqb key keyUp).
  { rewrite Hc. simpl. rewrite Hz. eexists. split; [done|].
    rewrite Z.rem_mod_nonneg by lia. by apply Z.mod_pos_bound. }
  destruct (String.eqb key keyDown).
  { rewrite Hc. simpl. rewrite Hz. eexists. split; [done|].
    rewrite Z.rem_mod_nonneg by lia. by apply Z.mod_pos_bound. }
  destruct (_ || _); [by exists i|].
  destruct (String.eqb key keyCtrlC); by exists i.
Qed.

Lemma onKey_status t key :
  (status t = Waiting -> onItem (cursor t)) ->
  0 < count ->
  match status (onKey t key) with
  | Waiting => onItem (cursor (onKey t key))
  | Resolved idx => status t = Waiting /\ onItem idx \/ status t = Resolved idx
  | Exited code => status t = Waiting /\ code = 130 \/ status t = Exited code
  end.
Proof.
  intros Hc Hn. pose proof (onKey_onItem t key Hn) as Hstep. revert Hstep.
  unfold onKey. destruct (status t) eqn:Hs; [|rewrite Hs; auto..].
  specialize (Hc eq_refl).
  destruct (String.eqb key keyUp); [simpl; by auto|].
  destruct (String.eqb key keyDown); [simpl; by auto|].
  destruct (_ || _); [simpl; auto|].
  destruct (String.eqb key keyCtrlC); [simpl; auto|]. rewrite Hs. auto.
Qed.

(** The menu is well on its way: it waits with the cursor on an item, or
    it has answered with the index of an item, or it has exited with
    status 130. *)
Definition sound (t : Terminal) : Prop :=
  match status t with
  | Waiting => onItem (cursor t)
  | Resolved idx => onItem idx
  | Exited code => code = 130
  end.

Lemma onKey_sound t key : 0 < count -> sound t -> sound (onKey t key).
Proof.
  intros Hn Ht. unfold sound in *.
  assert (status t = Waiting -> onItem (cursor t)) as Hw.
  { intros Hs. by rewrite Hs in Ht. }
  pose proof (onKey_status t key Hw Hn) as Hstep.
  destruct (status (onKey t key)) as [|idx|code]; [done| |].
  - destruct Hstep as [[_ ?]|Hs]; [done|]. by rewrite Hs in Ht.
  - destruct Hstep as [[_ ?]|Hs]; [done|]. by rewrite Hs in Ht.
Qed.

Lemma onKeys_sound keys : forall t,
  0 < count -> sound t -> sound (fold_left onKey keys t).
Proof.
  induction keys as [|key keys IH]; intros t Hn Ht; [done|].
  simpl. by apply IH, onKey_sound.
Qed.

Lemma onKeys_done keys : forall t,
  status t <> Waiting -> fold_left onKey keys t = t.
Proof.
  induction keys as [|key keys IH]; intros t Ht; [done|]. simpl.
  assert (onKey t key = t) as ->; [|by apply IH].
  unfold onKey. by destruct (status t).
Qed.

Lemma onKey_up c shown :
  0 < count -> 0 <= c ->
  onKey (mkTerminal (Some c) Waiting shown) keyUp
  = mkTerminal (Some ((c - 1 + count) mod count)) Waiting
      (shown ++ [esc +:+ "[" +:+ pretty count +:+ "A"]
             ++ renderLines (Some ((c - 1 + count) mod count))).
Proof.
  intros Hn Hc. unfold onKey. cbn [status cursor written].
  rewrite String.eqb_refl. cbn [fmap option_fmap option_map remainder].
  assert ((count =? 0) = false) as -> by lia.
  by rewrite Z.rem_mod_nonneg by lia.
Qed.

Lemma onKey_down c shown :
  0 < count -> 0 <= c ->
  onKey (mkTerminal (Some c) Waiting shown) keyDown
  = mkTerminal (Some ((c + 1) mod count)) Waiting
      (shown ++ [esc +:+ "[" +:+ pretty count +:+ "A"]
             ++ renderLines (Some ((c + 1) mod count))).
Proof.
  intros Hn Hc. unfold onKey. cbn [status cursor written].
  change (String.eqb keyDown keyUp) with false. rewrite String.eqb_refl.
  cbn [fmap option_fmap option_map remainder].
  assert ((count =? 0) = false) as -> by lia.
  by rewrite Z.rem_mod_nonneg by lia.
Qed.

Lemma onKeys_arrows presses : forall c shown,
  0 < count -> 0 <= c < count -> Forall arrowKey presses ->
  exists shown',
    fold_left onKey presses (mkTerminal (Some c) Waiting shown)
    = mkTerminal (Some ((c + moves presses) mod count)) Waiting shown'.
Proof.
  induction presses as [|key presses IH]; intros c shown Hn Hc Hkeys.
  - exists shown. simpl. by rewrite Z.add_0_r, Z.mod_small.
  - apply Forall_cons in Hkeys as [Hkey Hkeys].
    cbn [fold_left moves]. destruct Hkey as [-> | ->].
    + rewrite onKey_up by lia.
      edestruct (IH ((c - 1 + count) mod count)) as [shown' ->];
        [done|by apply Z.mod_pos_bound|done|].
      exists shown'. do 2 f_equal.
      change (String.eqb keyUp keyDown) with false. rewrite String.eqb_refl.
      rewrite Zplus_mod_idemp_l.
      replace (c - 1 + count + moves presses)
        with (c + (-1 + moves presses) + 1 * count) by lia.
      apply Z_mod_plus_full.
    + rewrite onKey_down by lia.
      edestruct (IH ((c + 1) mod count)) as [shown' ->];
        [done|by apply Z.mod_pos_bound|done|].
      exists shown'. do 2 f_equal. rewrite String.eqb_refl.
      rewrite Zplus_mod_idemp_l. f_equal. lia.
Qed.

(** X26.  The answer of the menu is the index of an item.  For a menu
    with at least one item and whatever chunks stdin delivers (arrows,
    other keys, several keys at once), the call is still waiting, has
    exited with status 130 on Ctrl-C, or has answered with an index
    [0 <= idx < items.length]; when stdin is no TTY the answer is 0 and
    nothing is written. *)
Theorem arrowMenu_answers_an_item isTTY keys :
  0 < count ->
  sound (arrowMenu isTTY keys)
  /\ (isTTY = false ->
      status (arrowMenu isTTY keys) = Resolved (Some 0)
      /\ written (arrowMenu isTTY keys) = []).
Proof.
  intros Hn. split.
  - unfold arrowMenu. destruct isTTY.
    + apply onKeys_sound; [done|]. exists 0. split; [done|lia].
    + exists 0. split; [done|lia].
  - by intros ->.
Qed.

(** X27.  What the arrows select.  After any sequence of up and down
    arrows, Return (or a line feed) answers with the number of downs less
    the number of ups, modulo the number of items: the cursor wraps around
    at both ends, an up undoes a down, and whatever is typed after the
    answer is ignored. *)
Theorem arrowMenu_selects presses enter rest :
  0 < count ->
  Forall arrowKey presses ->
  enter = keyReturn \/ enter = lineFeed ->
  status (arrowMenu true (presses ++ enter :: rest))
  = Resolved (Some (moves presses mod count)).
Proof.
  intros Hn Hkeys Henter. unfold arrowMenu. rewrite fold_left_app.
  destruct (onKeys_arrows presses 0 ([lineFeed +:+ HIDE_CURSOR] ++ renderLines (Some 0))
              Hn) as [shown ->]; [lia|done|].
  rewrite Z.add_0_l. cbn [fold_left].
  assert (exists shown',
            onKey (mkTerminal (Some (moves presses mod count)) Waiting shown) enter
            = mkTerminal (Some (moves presses mod count))
                (Resolved (Some (moves presses mod count))) shown') as [shown' ->].
  { unfold onKey. cbn [status cursor].
    destruct Henter as [-> | ->]; by eexists. }
  by rewrite onKeys_done.
Qed.

End ArrowMenu.

(** The menu of [main]: Yes, No. *)
Definition heartbeatMenu : list MenuItem := [mkItem "Yes" None; mkItem "No" None].

Lemma arrowMenu_answers_an_item_witness :
  sound heartbeatMenu (arrowMenu heartbeatMenu (mkAnsi "" "" "" "") true
                         ["x"; keyDown; keyReturn]).
Proof.
  apply (arrowMenu_answers_an_item heartbeatMenu (mkAnsi "" "" "" "") true
           ["x"; keyDown; keyReturn]).
  reflexivity.
Defined.

Lemma arrowMenu_selects_witness :
  status (arrowMenu heartbeatMenu (mkAnsi "" "" "" "") true
            ([keyDown; keyDown; keyUp; keyDown; keyDown] ++ keyReturn :: [keyDown]))
  = Resolved (Some 1).
Proof.
  apply (arrowMenu_selects heartbeatMenu (mkAnsi "" "" "" "")
           [keyDown; keyDown; keyUp; keyDown; keyDown] keyReturn [keyDown]).
  - reflexivity.
  - repeat constructor; ((by left) || (by right)).
  - by left.
Defined.

End Menu.

(* ===================================================================== *)
(** * The entry point of the installer ([main])                           *)
(* ===================================================================== *)

Module InstallerMain.
Import ConfigPatch Installer.

(** [argv[argv.indexOf(flag) + 1]]: [None] when the flag is not there
    ([indexOf] is -1) or is the last argument (the read is [undefined]). *)
Fixpoint afterFlag (flag : string) (argv : list string) : option string :=
  match argv with
  | [] => None
  | arg :: rest => if String.eqb arg flag then head rest else afterFlag flag rest
  end.

(** How [main] ends: it returns, it ends the process with a status, or it
    waits for ever for an answer of the menu. *)
Inductive Ending :=
| Finished
| ExitWith (code : Z)
| Pending.

(** The escape codes [main] hands to the menu: bold, dim, green, reset. *)
Definition mainAnsi : Menu.Ansi :=
  Menu.mkAnsi (Menu.esc +:+ "[1m") (Menu.esc +:+ "[2m")
              (Menu.esc +:+ "[32m") (Menu.esc +:+ "[0m").

Section Main.

Variables CONFIG_PATH SANSA_CONFIG_PATH SANSA_HOOK_DIR SANSA_SCRIPTS_DIR : string.
Variables HOOK_MD HOOK_HANDLER_JS SAVINGS_TRACKER_MJS : string.
Variable JSON_parse : string -> option document.
Variable JSON_stringify : document -> string.
Variable dirname : string -> string.

(** [String.prototype.trim]. *)
Variable trim : string -> string.

Abbreviation runSteps :=
  (runSteps CONFIG_PATH SANSA_CONFIG_PATH SANSA_HOOK_DIR SANSA_SCRIPTS_DIR
     HOOK_MD HOOK_HANDLER_JS SAVINGS_TRACKER_MJS JSON_parse JSON_stringify dirname).

(** [prompt]: the line typed, trimmed; the empty string when stdin is no
    TTY. *)
Definition prompt (isTTY : bool) (answer : string) : string :=
  if isTTY then trim answer else "".

(** The key [main] goes on with: the argument after [--api-key], trimmed,
    or else the answer to the prompt. *)
Definition apiKeyOf (argv : list string) (isTTY : bool) (answer : string) : string :=
  let fromArgv :=
    match afterFlag "--api-key" argv with
    | Some v => if String.eqb v "" then "" else trim v
    | None => ""
    end in
  if String.eqb fromArgv "" then prompt isTTY answer else fromArgv.

(** [main], on the arguments of the process, the line typed at the prompt
    and the chunks typed at the menu; [now] is the reading of [Date.now()]
    in [patchOpenClawConfig].  A step that throws is caught by
    [main().catch], which exits with status 1. *)
Definition main (argv : list string) (isTTY : bool) (answer : string)
    (keys : list string) (now : Z) (w : World) : Ending * World :=
  let apiKey := apiKeyOf argv isTTY answer in
  if String.eqb apiKey "" then (ExitWith 1, w)
  else
    match Menu.status (Menu.arrowMenu Menu.heartbeatMenu mainAnsi isTTY keys) with
    | Menu.Resolved heartbeatChoice =>
        let addHeartbeat := bool_decide (heartbeatChoice = Some 0) in
        match runSteps apiKey addHeartbeat now w with
        | (Ok _, w') => (Finished, w')
        | (Throw, w') => (ExitWith 1, w')
        end
    | Menu.Exited code => (ExitWith code, w)
    | Menu.Waiting => (Pending, w)
    end.

(** X28.  Without a key nothing is installed: when the arguments give no
    key (no [--api-key], nothing after it, or a value that is empty once
    trimmed) and the prompt gives none either (stdin is no TTY, or the
    line typed is empty once trimmed), [main] exits with status 1 and no
    file has changed, whatever is typed afterwards. *)
Theorem main_requires_key argv isTTY answer keys now w :
  (forall v, afterFlag "--api-key" argv = Some v -> v = "" \/ trim v = "") ->
  (isTTY = true -> trim answer = "") ->
  main argv isTTY answer keys now w = (ExitWith 1, w).
Proof.
  intros Hargv Hprompt. unfold main.
  assert (apiKeyOf argv isTTY answer = "") as ->; [|done].
  unfold apiKeyOf, prompt.
  assert (match afterFlag "--api-key" argv with
          | Some v => if String.eqb v "" then "" else trim v
          | None => ""
          end = "") as ->.
  { destruct (afterFlag "--api-key" argv) as [v|]; [|done].
    destruct (String.eqb_spec v "") as [|Hv]; [done|].
    by destruct (Hargv v eq_refl). }
  simpl. destruct isTTY; [by apply Hprompt|done].
Qed.

(** X29.  A piped installation asks nothing and adds the heartbeat: when
    stdin is no TTY and the arguments give a key, the menu answers 0
    without reading a key, [main] runs the five steps with the trimmed key
    and returns, and afterwards a [HEARTBEAT.md] holds the line on
    [savings-tracker.mjs]. *)
Theorem piped_install_adds_heartbeat argv answer keys now w v :
  afterFlag "--api-key" argv = Some v ->
  v <> "" ->
  trim v <> "" ->
  exists w' workspace content,
    main argv false answer keys now w = (Finished, w')
    /\ runSteps (trim v) true now w = (Ok (), w')
    /\ files w' !! (workspace +:+ "/HEARTBEAT.md") = Some content
    /\ includes marker content = true.
Proof.
  intros Hargv Hv Hkey.
  destruct (runSteps_heartbeat CONFIG_PATH SANSA_CONFIG_PATH SANSA_HOOK_DIR
              SANSA_SCRIPTS_DIR HOOK_MD HOOK_HANDLER_JS SAVINGS_TRACKER_MJS
              JSON_parse JSON_stringify dirname (trim v) now w)
    as (w' & workspace & content & Hrun & Hfile & Hinc).
  exists w', workspace, content. split; [|done].
  unfold main, apiKeyOf. rewrite Hargv.
  apply String.eqb_neq in Hv, Hkey. rewrite Hv, Hkey, Hkey.
  cbn [Menu.arrowMenu Menu.status]. rewrite bool_decide_true by done.
  by rewrite Hrun.
Qed.

End Main.

Lemma main_requires_key_witness :
  main "/c.json" "/s.json" "/hooks" "/scripts" "hook" "handler" "tracker"
    sampleParse sampleStringify (fun p => p) (fun s => s)
    ["node"; "install.mjs"; "--api-key"] false "" [] 1700 sampleWorld
  = (ExitWith 1, sampleWorld).
Proof.
  apply (main_requires_key "/c.json" "/s.json" "/hooks" "/scripts" "hook" "handler"
           "tracker" sampleParse sampleStringify (fun p => p) (fun s => s)
           ["node"; "install.mjs"; "--api-key"] false "" [] 1700 sampleWorld).
  - intros v Hv. discriminate Hv.
  - discriminate.
Defined.

Lemma piped_install_adds_heartbeat_witness :
  exists w' workspace content,
    main sampleConfigPath "/s.json" "/hooks" "/scripts" "hook" "handler" "tracker"
      sampleParse sampleStringify (fun p => p) (fun s => s)
      ["node"; "install.mjs"; "--api-key"; "sk-1"] false "" [] 1700 sampleWorld
    = (Finished, w')
    /\ files w' !! (workspace +:+ "/HEARTBEAT.md") = Some content
    /\ includes marker content = true.
Proof.
  destruct (piped_install_adds_heartbeat sampleConfigPath "/s.json" "/hooks"
              "/scripts" "hook" "handler" "tracker" sampleParse sampleStringify
              (fun p => p) (fun s => s)
              ["node"; "install.mjs"; "--api-key"; "sk-1"] "" [] 1700 sampleWorld
              "sk-1" eq_refl)
    as (w' & workspace & content & Hmain & _ & Hfile & Hinc); [done|done|].
  by exists w', workspace, content.
Defined.

End InstallerMain.
